(** * MetalMinRepro: the host side of the decoupled-lookback stress test

    A shallow embedding of [src/main.cpp].  The host program parses two
    command-line numbers, negotiates a WebGPU device, runs a batch of
    init+stress dispatches and decodes the error telemetry the stress kernel
    leaves behind.

    Modelling choices, all taken from the source:
    - [uint32_t] values are integers in [Z] with the wrap-around of each
      arithmetic operation written out ([U32.wrap]);
    - GPU buffers and [std::vector<uint32_t>] are lists of 32-bit words; sizes
      handed to the device are in bytes, as in the source;
    - the program is written in a state monad over a [World] (device memory,
      both output streams, the device commands issued so far, the number of
      [ProcessEvents] calls); an out-of-bounds vector or mapped-range access,
      undefined behaviour in C++, is the failure [None] of that monad;
    - the device is an opaque collaborator: what it answers (callback
      statuses, the number of polls before a callback fires, what the kernels
      leave in device memory) is an explicit environment argument;
    - in that monad every callback fires after finitely many pumps of the
      event queue.  The wait loops of the source are unbounded, so the bridge
      and the trial runner are also translated pump by pump ([Budgeted],
      [poll]), for a device whose callbacks may never fire. *)

From Stdlib Require Import String Ascii ZArith Bool Lia List.
Import ListNotations.

Local Open Scope string_scope.
Local Open Scope Z_scope.

(** ** 32-bit unsigned arithmetic *)

Module U32.

Definition modulus : Z := 2 ^ 32.

Definition wrap (x : Z) : Z := x mod modulus.

Definition in_range (x : Z) : Prop := 0 <= x < modulus.

Definition add (a b : Z) : Z := wrap (a + b).
Definition mul (a b : Z) : Z := wrap (a * b).

(** [a >> b]; the C++ expression is undefined for [b >= 32], which the
    callers in this program never reach (see [CheckError]). *)
Definition shr (a b : Z) : Z := Z.shiftr a b.

Definition and (a b : Z) : Z := Z.land a b.
Definition or (a b : Z) : Z := Z.lor a b.

End U32.

(** ** printf conversions *)

Module Fmt.

(** The digit [d] as a character; [letter] is the code of the character
    standing for ten, less ten. *)
Definition digit_char (letter d : Z) : ascii :=
  ascii_of_nat (Z.to_nat (if d <? 10 then 48 + d else letter + d)).

Definition upper : Z := 55.
Definition lower : Z := 87.

(** Digits of [x] in base [base], most significant first, at least one. *)
Fixpoint digits (fuel : nat) (letter base x : Z) (acc : string) : string :=
  match fuel with
  | O => acc
  | S fuel' =>
      let acc' := String (digit_char letter (x mod base)) acc in
      if x / base =? 0 then acc' else digits fuel' letter base (x / base) acc'
  end.

Fixpoint zeros (n : nat) : string :=
  match n with
  | O => ""
  | S n' => String "0"%char (zeros n')
  end.

Definition pad (width : nat) (s : string) : string :=
  zeros (width - String.length s) ++ s.

(** [%u] *)
Definition u (x : Z) : string := digits 20 upper 10 x "".

(** [%0<width>X] *)
Definition X (width : nat) (x : Z) : string :=
  pad width (digits 16 upper 16 x "").

(** [std::hex] *)
Definition hex (x : Z) : string := digits 16 lower 16 x "".

End Fmt.

(** ** The hazard protocol constants *)

Definition FLAG_NOT_READY : Z := 0.
Definition FLAG_READY : Z := 0x40000000.
Definition FLAG_INCLUSIVE : Z := 0x80000000.
Definition VALUE_MASK : Z := 0xFFFF.
Definition SPLIT_THREADS : Z := 2.
Definition ERROR_TYPE_MESSAGE : Z := 1.
Definition ERROR_TYPE_SHUFFLE : Z := 2.

Definition EXIT_SUCCESS : Z := 0.
Definition EXIT_FAILURE : Z := 1.

(** ** What the program writes to standard output

    One constructor per [printf] call site, carrying the arguments of the
    call in order; [Cout] is text sent through [std::cout].  [render] gives
    the characters. *)

Inductive Printed : Type :=
| MessagePassingError
    (tile_id tid got not_ready expected_ready val_content mask inclusive : Z)
| ShuffleError (tile_id tid got : Z)
| UnknownError (errCode tile_id tid got : Z)
| Summary (testsPassed batchSize : Z)
| Verdict (all_passed : bool)
| Cout (text : string).

Definition nl : string := String (ascii_of_nat 10) "".

Definition render (p : Printed) : string :=
  match p with
  | MessagePassingError tile_id tid got not_ready expected_ready val_content
                        mask inclusive =>
      "Message Passing type error at tile " ++ Fmt.u tile_id ++ ", thread "
      ++ Fmt.u tid ++ ": GOT 0x" ++ Fmt.X 8 got ++ "." ++ nl
      ++ "  Expected patterns include:" ++ nl
      ++ "    1. 0x" ++ Fmt.X 8 not_ready ++ " (NOT_READY)" ++ nl
      ++ "    2. 0x" ++ Fmt.X 8 expected_ready ++ " (READY state: value 0x"
      ++ Fmt.X 4 val_content ++ " combined with READY flag for this thread)"
      ++ nl
      ++ "    3. (value & 0x" ++ Fmt.X 4 mask ++ ") | 0x" ++ Fmt.X 8 inclusive
      ++ " (INCLUSIVE state: some value derived from lookback "
      ++ "combined with INCLUSIVE flag for this thread)" ++ nl
  | ShuffleError tile_id tid got =>
      "Shuffle error at tile " ++ Fmt.u tile_id ++ ", thread " ++ Fmt.u tid
      ++ ": GOT 0x" ++ Fmt.X 8 got ++ " (this was 'prev_red' from the "
      ++ "shader)." ++ nl
      ++ "  The expected value for 'prev_red' depends on the specific lookback step and scan "
      ++ "phase." ++ nl
      ++ "  It should typically be of the form (tile_id - N) * 1024u (where N is related to "
      ++ "lookback_id or 1 for inclusive end)." ++ nl
  | UnknownError errCode tile_id tid got =>
      "Unknown error code " ++ Fmt.u errCode ++ " detected at tile "
      ++ Fmt.u tile_id ++ ", thread " ++ Fmt.u tid ++ ": GOT 0x"
      ++ Fmt.X 8 got ++ "." ++ nl
  | Summary testsPassed batchSize =>
      Fmt.u testsPassed ++ " / " ++ Fmt.u batchSize
  | Verdict all_passed =>
      if all_passed then " ALL TESTS PASSED" ++ nl else " TEST FAILED"
  | Cout text => text
  end.

(** The tile and thread slot a diagnostic names, when it names one. *)
Definition blamed (p : Printed) : option (Z * Z) :=
  match p with
  | MessagePassingError tile_id tid _ _ _ _ _ _ => Some (tile_id, tid)
  | ShuffleError tile_id tid _ => Some (tile_id, tid)
  | UnknownError _ tile_id tid _ => Some (tile_id, tid)
  | _ => None
  end.


(** ** Device memory and the device commands the host issues *)

Inductive BufferId : Type := Info | ScanBump | Scan | Readback | Err.

(** The five buffers of the source's [GPUBuffers], as the words each holds. *)
Record GPUBuffers : Type := {
  info : list Z;
  scanBump : list Z;
  scan : list Z;
  readback : list Z;
  err : list Z
}.

Definition buffer (b : GPUBuffers) (id : BufferId) : list Z :=
  match id with
  | Info => info b
  | ScanBump => scanBump b
  | Scan => scan b
  | Readback => readback b
  | Err => err b
  end.

Definition set_buffer (b : GPUBuffers) (id : BufferId) (ws : list Z)
  : GPUBuffers :=
  match id with
  | Info => {| info := ws; scanBump := scanBump b; scan := scan b;
               readback := readback b; err := err b |}
  | ScanBump => {| info := info b; scanBump := ws; scan := scan b;
                   readback := readback b; err := err b |}
  | Scan => {| info := info b; scanBump := scanBump b; scan := ws;
               readback := readback b; err := err b |}
  | Readback => {| info := info b; scanBump := scanBump b; scan := scan b;
                   readback := ws; err := err b |}
  | Err => {| info := info b; scanBump := scanBump b; scan := scan b;
              readback := readback b; err := ws |}
  end.

(** What a command encoder records. *)
Inductive Encoded : Type :=
| ComputePass (label : string) (workTiles : Z)
| CopyBufferToBuffer (src : BufferId) (srcOffsetBytes : Z)
                     (dst : BufferId) (dstOffsetBytes sizeBytes : Z).

Inductive Command : Type :=
| CreateInstance
| RequestAdapter
| RequestDevice
| GetQueue
| CreateBuffer (label : string) (sizeBytes : Z)
| CreateShaderModule (path : string)
| GetCompilationInfo
| CreateBindGroupLayout
| CreateBindGroup
| CreatePipelineLayout
| CreateComputePipeline (entryPoint : string)
| WriteBuffer (dst : BufferId) (offsetBytes : Z) (data : list Z)
| Submit (commandBuffers : list (list Encoded))
| OnSubmittedWorkDone
| MapAsync (buf : BufferId) (offsetBytes sizeBytes : Z)
| Unmap (buf : BufferId).

(** ** The world the program runs in, and its monad *)

Record World : Type := {
  bufs : GPUBuffers;        (* device memory *)
  stdout : list Printed;    (* standard output, oldest first *)
  stderr : list string;     (* standard error, oldest first *)
  cmds : list Command;      (* device commands issued, oldest first *)
  polls : nat               (* calls of instance.ProcessEvents() *)
}.

(** [None] is undefined behaviour: an access outside a vector or outside a
    mapped range. *)
Definition M (A : Type) : Type := World -> option (A * World).

Definition ret {A} (a : A) : M A := fun w => Some (a, w).

Definition bind {A B} (c : M A) (k : A -> M B) : M B :=
  fun w => match c w with
           | Some (a, w') => k a w'
           | None => None
           end.

Definition undefined {A} : M A := fun _ => None.

Declare Scope monad_scope.
Delimit Scope monad_scope with monad.
Notation "x <- c ;; k" := (bind c (fun x => k))
  (at level 61, c at next level, right associativity) : monad_scope.
Notation "c ;; k" := (bind c (fun _ => k))
  (at level 61, right associativity) : monad_scope.
Local Open Scope monad_scope.

Definition print (p : Printed) : M unit :=
  fun w => Some (tt, {| bufs := bufs w; stdout := stdout w ++ [p];
                        stderr := stderr w; cmds := cmds w;
                        polls := polls w |}).

Definition eprint (s : string) : M unit :=
  fun w => Some (tt, {| bufs := bufs w; stdout := stdout w;
                        stderr := stderr w ++ [s]; cmds := cmds w;
                        polls := polls w |}).

Definition issue (c : Command) : M unit :=
  fun w => Some (tt, {| bufs := bufs w; stdout := stdout w;
                        stderr := stderr w; cmds := cmds w ++ [c];
                        polls := polls w |}).

Definition ProcessEvents : M unit :=
  fun w => Some (tt, {| bufs := bufs w; stdout := stdout w;
                        stderr := stderr w; cmds := cmds w;
                        polls := S (polls w) |}).

Definition device_memory : M GPUBuffers := fun w => Some (bufs w, w).

Definition set_device_memory (b : GPUBuffers) : M unit :=
  fun w => Some (tt, {| bufs := b; stdout := stdout w; stderr := stderr w;
                        cmds := cmds w; polls := polls w |}).

(** What the device answers to one asynchronous request: the callback fires
    during the [latency]-th pump of the event queue, with a success or a
    failure status and a message. *)
Record Completion : Type := {
  latency : nat;
  ok : bool;
  message : string
}.

(** The bridge of every asynchronous call:
    [while (future.wait_for(100ns) == timeout) instance.ProcessEvents();]
    The callback runs when the event queue has been pumped [n] times. *)
Fixpoint pump (n : nat) : M unit :=
  match n with
  | O => ret tt
  | S n' => ProcessEvents ;; pump n'
  end.

Definition await {A} (c : Completion) (callback : M A) : M A :=
  pump (latency c) ;; callback.

(** ** Device-side semantics of copies and mapped ranges *)

(** [sizeof(uint32_t)] *)
Definition word_bytes : Z := 4.

(** The device accepts a byte range of a buffer when it is word-aligned and
    lies inside the buffer. *)
Definition range_ok (ws : list Z) (offsetBytes sizeBytes : Z) : bool :=
  (0 <=? offsetBytes) && (0 <=? sizeBytes)
  && (offsetBytes mod word_bytes =? 0) && (sizeBytes mod word_bytes =? 0)
  && (offsetBytes + sizeBytes <=? word_bytes * Z.of_nat (length ws)).

Definition slice (ws : list Z) (offsetBytes sizeBytes : Z) : list Z :=
  firstn (Z.to_nat (sizeBytes / word_bytes))
         (skipn (Z.to_nat (offsetBytes / word_bytes)) ws).

(** Storing [data] at the start of [dst]. *)
Definition overwrite (dst data : list Z) : list Z :=
  data ++ skipn (length data) dst.

(** [std::memcpy] into the storage of a vector; writing past its end is
    undefined. *)
Definition memcpy (dst data : list Z) : M (list Z) :=
  if (length data <=? length dst)%nat then ret (overwrite dst data)
  else undefined.

(** [v[i]] of a [std::vector<uint32_t>]; undefined outside the vector. *)
Definition at_index (v : list Z) (i : Z) : M Z :=
  match nth_error v (Z.to_nat i) with
  | Some x => ret x
  | None => undefined
  end.

(** What the device does with a submitted buffer-to-buffer copy (destination
    offset 0): a valid copy is carried out; an invalid one is rejected, device
    memory stays as it is and the uncaptured-error callback of
    [GetGPUContext] reports it. *)
Definition device_copy (src : BufferId) (srcOffsetBytes : Z) (dst : BufferId)
           (sizeBytes : Z) (done : Completion) : M unit :=
  b <- device_memory ;;
  if range_ok (buffer b src) srcOffsetBytes sizeBytes
     && range_ok (buffer b dst) 0 sizeBytes
  then set_device_memory
         (set_buffer b dst
            (overwrite (buffer b dst)
                       (slice (buffer b src) srcOffsetBytes sizeBytes)))
  else eprint ("Error: " ++ message done ++ nl).

(** ** The synchronisation bridge and the readback path *)

Definition QueueSync (done : Completion) : M unit :=
  issue OnSubmittedWorkDone ;;
  await done
    (if ok done then ret tt else eprint ("Queue submission failed" ++ nl)).

Definition CopyBufferSync (srcReadback dstReadback : BufferId)
           (sourceOffsetBytes copySizeBytes : Z) (done : Completion)
  : M unit :=
  issue (Submit [[CopyBufferToBuffer srcReadback sourceOffsetBytes
                                     dstReadback 0 copySizeBytes]]) ;;
  device_copy srcReadback sourceOffsetBytes dstReadback copySizeBytes done ;;
  QueueSync done.

(** The vector behind [readOut] is passed in and the updated vector is
    returned.  A map request over a range the buffer does not have completes
    with a failure status. *)
Definition ReadbackSync (dstReadback : BufferId) (readOut : list Z)
           (readbackSizeBytes : Z) (done : Completion) : M (list Z) :=
  issue (MapAsync dstReadback 0 readbackSizeBytes) ;;
  await done
    (b <- device_memory ;;
     if ok done && range_ok (buffer b dstReadback) 0 readbackSizeBytes
     then
       readOut' <- memcpy readOut
                     (slice (buffer b dstReadback) 0 readbackSizeBytes) ;;
       issue (Unmap dstReadback) ;;
       ret readOut'
     else
       eprint ("Bad readback" ++ nl) ;;
       ret readOut).

Definition CopyAndReadbackSync (srcReadback dstReadback : BufferId)
           (readOut : list Z) (sourceOffset readbackSize : Z)
           (copy_done map_done : Completion) : M (list Z) :=
  CopyBufferSync srcReadback dstReadback (sourceOffset * word_bytes)
                 (readbackSize * word_bytes) copy_done ;;
  ReadbackSync dstReadback readOut (readbackSize * word_bytes) map_done.

(** ** The hazard validator *)

(** [1024u >> (tid * 16u)] is undefined in C++ once [tid * 16 >= 32];
    [Validate] only calls with [tid < SPLIT_THREADS]. *)
Definition CheckError (errCode got tile_id tid : Z) : M bool :=
  if errCode =? 0 then ret true
  else if errCode =? ERROR_TYPE_MESSAGE then
    let val_content_for_ready_state :=
      U32.and (U32.shr 1024 (U32.mul tid 16)) VALUE_MASK in
    let expected_full_value_for_ready_state :=
      U32.or val_content_for_ready_state FLAG_READY in
    print (MessagePassingError tile_id tid got FLAG_NOT_READY
             expected_full_value_for_ready_state
             val_content_for_ready_state VALUE_MASK FLAG_INCLUSIVE) ;;
    ret false
  else if errCode =? ERROR_TYPE_SHUFFLE then
    print (ShuffleError tile_id tid got) ;;
    ret false
  else
    print (UnknownError errCode tile_id tid got) ;;
    ret false.

(** [for (uint32_t i = from; i < from + count; ++i)
       if (!body(i)) return false;
     return true;] *)
Fixpoint all_from (count : nat) (i : Z) (body : Z -> M bool) : M bool :=
  match count with
  | O => ret true
  | S count' =>
      passed <- body i ;;
      if passed then all_from count' (U32.add i 1) body else ret false
  end.

Definition Validate_thread (readOut : list Z) (tile_id t tid : Z) : M bool :=
  errCode <- at_index readOut (U32.add t (U32.mul tid 2)) ;;
  got_val <- at_index readOut (U32.add (U32.add t (U32.mul tid 2)) 1) ;;
  CheckError errCode got_val tile_id tid.

Definition Validate_tile (readOut : list Z) (tile_id : Z) : M bool :=
  let t := U32.mul (U32.mul tile_id SPLIT_THREADS) 2 in
  all_from (Z.to_nat SPLIT_THREADS) 0 (Validate_thread readOut tile_id t).

Definition Validate_scan (readOut : list Z) (size : Z) : M bool :=
  all_from (Z.to_nat size) 0 (Validate_tile readOut).

Definition Validate (size : Z) (copy_done map_done : Completion) : M bool :=
  if size =? 0 then ret true
  else
    let readOut :=
      repeat 0 (Z.to_nat (U32.mul (U32.mul size SPLIT_THREADS) 2)) in
    readOut <- CopyAndReadbackSync Err Readback readOut 0
                 (Z.of_nat (length readOut)) copy_done map_done ;;
    Validate_scan readOut size.



(** ** The trial runner *)

(** What the device does during one trial.  The kernels are opaque: after the
    init and stress dispatches the three buffers bound for writing hold
    whatever words the device left there ([*_after], by word index). *)
Record TrialEnv : Type := {
  scanBump_after : nat -> Z;
  scan_after : nat -> Z;
  err_after : nat -> Z;
  work_done : Completion;
  copy_done : Completion;
  map_done : Completion
}.

Definition written (content : nat -> Z) (old : list Z) : list Z :=
  map (fun i => U32.wrap (content i)) (seq 0 (length old)).

Definition run_kernels (te : TrialEnv) : M unit :=
  b <- device_memory ;;
  set_device_memory
    {| info := info b;
       scanBump := written (scanBump_after te) (scanBump b);
       scan := written (scan_after te) (scan b);
       readback := readback b;
       err := written (err_after te) (err b) |}.

(** The body of the loop of [RunTest]. *)
Definition RunTrial (size : Z) (te : TrialEnv) : M bool :=
  issue (Submit [[ComputePass "Init" 256; ComputePass "Stress" size]]) ;;
  run_kernels te ;;
  QueueSync (work_done te) ;;
  Validate size (copy_done te) (map_done te).

(** [for (uint32_t i = ...; i < batchSize; ++i)] with [remaining] iterations
    to go. *)
Fixpoint RunTest_loop (remaining : nat) (i size : Z) (env : Z -> TrialEnv)
         (testsPassed : Z) : M Z :=
  match remaining with
  | O => ret testsPassed
  | S remaining' =>
      passed <- RunTrial size (env i) ;;
      RunTest_loop remaining' (U32.add i 1) size env
                   (U32.add testsPassed (if passed then 1 else 0))
  end.

Definition RunTest (size batchSize : Z) (env : Z -> TrialEnv) : M unit :=
  testsPassed <- RunTest_loop (Z.to_nat batchSize) 0 size env 0 ;;
  print (Summary testsPassed batchSize) ;;
  print (Verdict (testsPassed =? batchSize)).

(** ** Command-line parsing *)

(** The C library's [strtoul(nptr, &endptr, 10)] where [unsigned long] has 64
    bits: optional white space, an optional sign, then the longest run of
    decimal digits.  A C string is the characters before its first NUL. *)

Definition ULONG_MAX : Z := 2 ^ 64 - 1.

Definition isspace (c : ascii) : bool :=
  let n := Z.of_nat (nat_of_ascii c) in
  (n =? 32) || ((9 <=? n) && (n <=? 13)).

Definition digit_value (c : ascii) : option Z :=
  let n := Z.of_nat (nat_of_ascii c) in
  if (48 <=? n) && (n <=? 57) then Some (n - 48) else None.

Fixpoint skip_spaces (s : string) (skipped : nat) : string * nat :=
  match s with
  | String c rest =>
      if isspace c then skip_spaces rest (S skipped) else (s, skipped)
  | EmptyString => (s, skipped)
  end.

Fixpoint read_digits (s : string) (acc : Z) (count : nat) : Z * nat :=
  match s with
  | String c rest =>
      match digit_value c with
      | Some d => read_digits rest (acc * 10 + d) (S count)
      | None => (acc, count)
      end
  | EmptyString => (acc, count)
  end.

Record strtoul_result : Type := {
  value : Z;        (* the returned unsigned long *)
  consumed : nat;   (* endptr - nptr *)
  erange : bool     (* errno == ERANGE afterwards *)
}.

Definition strtoul (nptr : string) : strtoul_result :=
  let (s, skipped) := skip_spaces nptr 0 in
  let '(negative, s', sign) :=
    match s with
    | String c rest =>
        if Ascii.eqb c "-" then (true, rest, 1%nat)
        else if Ascii.eqb c "+" then (false, rest, 1%nat)
        else (false, s, 0%nat)
    | EmptyString => (false, s, 0%nat)
    end in
  let (magnitude, count) := read_digits s' 0 0 in
  if (count =? 0)%nat then
    {| value := 0; consumed := 0; erange := false |}
  else if magnitude >? ULONG_MAX then
    {| value := ULONG_MAX; consumed := skipped + sign + count;
       erange := true |}
  else
    {| value := if negative then (- magnitude) mod 2 ^ 64 else magnitude;
       consumed := skipped + sign + count; erange := false |}.

(** [s[n]], the terminating NUL included. *)
Definition char_at (s : string) (n : nat) : ascii :=
  match String.get n s with
  | Some c => c
  | None => zero
  end.

(** The result [o] when the source returns [true], [None] when it returns
    [false]. *)
Definition parse (arg_str : string) (exclMax : Z) : option Z :=
  let r := strtoul arg_str in
  if erange r || (consumed r =? 0)%nat
     || negb (Ascii.eqb (char_at arg_str (consumed r)) zero)
     || (value r >? exclMax)
  then None
  else Some (U32.wrap (value r)).

(** ** Device negotiation, resources and pipelines *)

Record AdapterInfo : Type := {
  vendorID : Z;
  vendor : string;
  architecture : string;
  deviceID : Z;
  device : string;
  description : string
}.

Record SessionEnv : Type := {
  instance_created : bool;
  adapter_done : Completion;
  adapter_info : AdapterInfo;
  device_done : Completion
}.

Definition GetGPUContext (env : SessionEnv) : M unit :=
  issue CreateInstance ;;
  (if instance_created env then ret tt
   else eprint ("Instance creation failed!" ++ nl)) ;;
  issue RequestAdapter ;;
  await (adapter_done env)
    (if ok (adapter_done env) then ret tt
     else eprint ("Failed to get adapter" ++ nl)) ;;
  let i := adapter_info env in
  print (Cout ("VendorID: " ++ Fmt.hex (vendorID i) ++ nl)) ;;
  print (Cout ("Vendor: " ++ vendor i ++ nl)) ;;
  print (Cout ("Architecture: " ++ architecture i ++ nl)) ;;
  print (Cout ("DeviceID: " ++ Fmt.hex (deviceID i) ++ nl)) ;;
  print (Cout ("Name: " ++ device i ++ nl)) ;;
  print (Cout ("Driver description: " ++ description i ++ nl)) ;;
  issue RequestDevice ;;
  await (device_done env)
    (if ok (device_done env) then ret tt
     else eprint ("Failed to get device" ++ nl)) ;;
  issue GetQueue.

(** Buffers are created zero-filled; sizes are in bytes. *)
Definition GetGPUBuffers (size : Z) : M unit :=
  issue (CreateBuffer "Info" (word_bytes * 4)) ;;
  issue (CreateBuffer "Scan Atomic Bump" word_bytes) ;;
  issue (CreateBuffer "Scan" (word_bytes * size * 2)) ;;
  issue (CreateBuffer "Main Readback" (word_bytes * size * 4)) ;;
  issue (CreateBuffer "Error" (word_bytes * size * 4)) ;;
  set_device_memory
    {| info := repeat 0 4;
       scanBump := repeat 0 1;
       scan := repeat 0 (Z.to_nat (size * 2));
       readback := repeat 0 (Z.to_nat (size * 4));
       err := repeat 0 (Z.to_nat (size * 4)) |}.

Inductive CompilationMessageType : Type :=
| MessageError | MessageWarning | MessageInfo.

Record ShaderEnv : Type := {
  file_opened : bool;
  compilation_messages : list (CompilationMessageType * string);
  compilation_done : Completion
}.

Definition ReadWGSL (path : string) (env : ShaderEnv) : M unit :=
  if file_opened env then ret tt
  else eprint ("Failed to open file: " ++ path ++ nl).

Fixpoint report_messages
         (messages : list (CompilationMessageType * string)) : M unit :=
  match messages with
  | [] => ret tt
  | (MessageError, text) :: rest =>
      eprint ("Shader compilation error: " ++ text ++ nl) ;;
      report_messages rest
  | (MessageWarning, text) :: rest =>
      eprint ("Shader compilation warning: " ++ text ++ nl) ;;
      report_messages rest
  | (MessageInfo, _) :: rest => report_messages rest
  end.

(** The three descriptors' [label] fields hold [makeLabel(...).c_str()], a
    pointer into a temporary [std::string] that is destroyed at the end of
    the assignment, before the descriptor is handed to the device.  The text
    [csLabel + suffix] therefore never reaches the device, and the commands
    carry no label.  [csLabel] itself is kept in [cs->label], from which
    [SetComputePass] names the compute passes of a trial. *)
Definition GetComputeShaderPipeline (entryPoint csLabel : string) : M unit :=
  issue CreateBindGroupLayout ;;
  issue CreateBindGroup ;;
  issue CreatePipelineLayout ;;
  issue (CreateComputePipeline entryPoint).

Definition CreateShaderFromSource (entryPoint path csLabel : string)
           (env : ShaderEnv) : M unit :=
  ReadWGSL path env ;;
  issue (CreateShaderModule path) ;;
  issue GetCompilationInfo ;;
  await (compilation_done env)
    (report_messages (compilation_messages env)) ;;
  GetComputeShaderPipeline entryPoint csLabel.

Definition GetAllShaders (init stress : ShaderEnv) : M unit :=
  CreateShaderFromSource "main" "Shaders/init.wgsl" "Init" init ;;
  CreateShaderFromSource "main" "Shaders/stress.wgsl" "Stress" stress.

(** What the device does with a queued write at offset 0: carried out when
    the data fit the buffer, rejected and reported otherwise. *)
Definition device_write (dst : BufferId) (data : list Z) (done : Completion)
  : M unit :=
  b <- device_memory ;;
  if range_ok (buffer b dst) 0 (Z.of_nat (length data) * word_bytes)
  then set_device_memory (set_buffer b dst (overwrite (buffer b dst) data))
  else eprint ("Error: " ++ message done ++ nl).

(** The command buffer is finished but [Submit] is called with a count of 0. *)
Definition InitializeUniforms (size : Z) (done : Completion) : M unit :=
  let info_words := [size; 0; 0; 0] in
  issue (WriteBuffer Info 0 info_words) ;;
  device_write Info info_words done ;;
  issue (Submit []) ;;
  QueueSync done.

(** ** The program *)

Record Env : Type := {
  session : SessionEnv;
  init_shader : ShaderEnv;
  stress_shader : ShaderEnv;
  uniforms_done : Completion;
  trial : Z -> TrialEnv
}.

(** [argv[0]] is a null pointer when [argc] is 0; sending it to [std::cerr]
    is undefined. *)
Definition main (argv : list string) (env : Env) : M Z :=
  match argv with
  | [] => undefined
  | [_; arg1; arg2] =>
      match parse arg1 65535 with
      | None =>
          eprint ("Expected uint32_t less than 65536 for maximum test size."
                  ++ nl) ;;
          ret EXIT_FAILURE
      | Some size =>
          match parse arg2 1023 with
          | None =>
              eprint
                ("Expected uint32_t less than 1024 for number of tests to run."
                 ++ nl) ;;
              ret EXIT_FAILURE
          | Some batchSize =>
              GetGPUContext (session env) ;;
              GetGPUBuffers size ;;
              GetAllShaders (init_shader env) (stress_shader env) ;;
              InitializeUniforms size (uniforms_done env) ;;
              RunTest size batchSize (trial env) ;;
              ret EXIT_SUCCESS
          end
      end
  | argv0 :: _ =>
      eprint ("Usage: " ++ argv0 ++ " <test size> <number of tests to run>"
              ++ nl) ;;
      ret EXIT_FAILURE
  end.

(** The state in which the program starts. *)
Definition initial_world : World :=
  {| bufs := {| info := []; scanBump := []; scan := []; readback := [];
                err := [] |};
     stdout := []; stderr := []; cmds := []; polls := 0 |}.

(** ** Vocabulary of the statements *)

(** The world after [out] went to standard output. *)
Definition say (w : World) (out : list Printed) : World :=
  {| bufs := bufs w; stdout := stdout w ++ out; stderr := stderr w;
     cmds := cmds w; polls := polls w |}.

(** The world after [n] more pumps of the event queue. *)
Definition polled (w : World) (n : nat) : World :=
  {| bufs := bufs w; stdout := stdout w; stderr := stderr w;
     cmds := cmds w; polls := n + polls w |}.

(** The world after [line] went to standard error. *)
Definition complain (w : World) (line : string) : World :=
  {| bufs := bufs w; stdout := stdout w; stderr := stderr w ++ [line];
     cmds := cmds w; polls := polls w |}.

(** The diagnostic [CheckError] prints for a nonzero code. *)
Definition diagnostic (errCode got tile_id tid : Z) : Printed :=
  if errCode =? ERROR_TYPE_MESSAGE then
    MessagePassingError tile_id tid got FLAG_NOT_READY
      (U32.or (U32.and (U32.shr 1024 (U32.mul tid 16)) VALUE_MASK) FLAG_READY)
      (U32.and (U32.shr 1024 (U32.mul tid 16)) VALUE_MASK)
      VALUE_MASK FLAG_INCLUSIVE
  else if errCode =? ERROR_TYPE_SHUFFLE then ShuffleError tile_id tid got
  else UnknownError errCode tile_id tid got.

(** Device memory as [GetGPUBuffers] lays it out for a test size: the staging
    buffer and the error buffer hold [size * 4] words each. *)
Definition allocated (size : Z) (b : GPUBuffers) : Prop :=
  length (readback b) = Z.to_nat (size * 4)
  /\ length (err b) = Z.to_nat (size * 4).

(** The map request of [ReadbackSync] completes with a success status. *)
Definition map_succeeds (done : Completion) (b : GPUBuffers)
           (dst : BufferId) (sizeBytes : Z) : bool :=
  ok done && range_ok (buffer b dst) 0 sizeBytes.

(** The error code and the observed value of thread slot [k] of tile [t] in
    a sequence of telemetry words. *)
Definition code_at (words : list Z) (t k : Z) : option Z :=
  nth_error words (Z.to_nat (t * 4 + k * 2)).

Definition got_at (words : list Z) (t k : Z) : option Z :=
  nth_error words (Z.to_nat (t * 4 + k * 2 + 1)).

(** [(t', k')] is scanned before [(t, k)]: increasing tile, then increasing
    thread slot. *)
Definition scanned_before (t' k' t k : Z) : Prop :=
  t' < t \/ (t' = t /\ k' < k).

(** The layout in the words of the specification: for tile [t] in [0..S-1]
    and thread slot [k] in [{0,1}], the error code is the word at index
    [t*4 + k*2] and the observed value the word after it. *)
Definition tile_thread_pairs (S : Z) : list (Z * Z) :=
  flat_map (fun t => [(Z.of_nat t, 0); (Z.of_nat t, 1)]) (seq 0 (Z.to_nat S)).

Definition classify_entry (words : list Z) (t k : Z) : M bool :=
  match code_at words t k, got_at words t k with
  | Some errCode, Some got => CheckError errCode got t k
  | _, _ => undefined
  end.

Fixpoint classify_entries (words : list Z) (pairs : list (Z * Z)) : M bool :=
  match pairs with
  | [] => ret true
  | (t, k) :: rest =>
      passed <- classify_entry words t k ;;
      if passed then classify_entries words rest else ret false
  end.

(** The three shapes the specification calls legal for an observed value
    reported with error code 1. *)
Definition legal_shape (tid got : Z) : bool :=
  (got =? FLAG_NOT_READY)
  || (got =? Z.lor (Z.land (Z.land (Z.shiftr 1024 (tid * 16)) 0xFFFF) 0xFFFF)
                   0x40000000)
  || negb (Z.land got 0x80000000 =? 0).

(** Submissions of the init+stress command stream, one per trial run. *)
Definition is_trial_submission (c : Command) : bool :=
  match c with
  | Submit [[ComputePass _ _; ComputePass _ _]] => true
  | _ => false
  end.

Definition trials_run (cs : list Command) : nat :=
  length (filter is_trial_submission cs).

(** The outcome of a check that either passes silently or fails with one
    diagnostic naming a tile and a thread slot. *)
Definition verdict_of (r : option (bool * World)) (w : World) : Prop :=
  r = Some (true, w)
  \/ exists p, blamed p <> None /\ r = Some (false, say w [p]).

(** ** Vocabulary of the statements about the command line *)

(** [strtoul] converts nothing, or stops before the end of the argument. *)
Definition unparseable (s : string) : bool :=
  let r := strtoul s in
  (consumed r =? 0)%nat || negb (Ascii.eqb (char_at s (consumed r)) zero).

(** The number read does not fit [unsigned long] or is above [max]. *)
Definition exceeds (s : string) (max : Z) : bool :=
  let r := strtoul s in erange r || (value r >? max).

(** Wrong argument count, an unparseable argument, a test size above 65535
    or a trial count above 1023. *)
Definition bad_command_line (argv : list string) : bool :=
  match argv with
  | [_; arg1; arg2] =>
      unparseable arg1 || exceeds arg1 65535
      || unparseable arg2 || exceeds arg2 1023
  | _ => true
  end.

(** The number a plain decimal numeral (one or more digits, nothing else)
    denotes. *)
Fixpoint decimal_digits (s : string) (acc : Z) : option Z :=
  match s with
  | EmptyString => Some acc
  | String c rest =>
      match digit_value c with
      | Some d => decimal_digits rest (acc * 10 + d)
      | None => None
      end
  end.

Definition decimal_value (s : string) : option Z :=
  match s with
  | EmptyString => None
  | _ => decimal_digits s 0
  end.

(** ** Sample devices and worlds, for running the model *)

Definition prompt : Completion :=
  {| latency := 1; ok := true; message := "" |}.

Definition failing : Completion :=
  {| latency := 2; ok := false; message := "device lost" |}.

(** Device memory laid out for [length telemetry / 4] tiles, the error buffer
    holding [telemetry]. *)
Definition sample_world (telemetry : list Z) : World :=
  {| bufs := {| info := [Z.of_nat (length telemetry) / 4; 0; 0; 0];
                scanBump := [0];
                scan := repeat 0 (length telemetry / 2);
                readback := repeat 0 (length telemetry);
                err := telemetry |};
     stdout := []; stderr := []; cmds := []; polls := 0 |}.

(** Six tiles; thread slot 0 of tile 3 reports a message-passing hazard. *)
Definition hazard_at_tile_3 : list Z :=
  [0; 0; 0; 0;  0; 0; 0; 0;  0; 0; 0; 0;
   1; 0xDEAD; 0; 0;  0; 0; 0; 0;  0; 0; 0; 0].

(** The same up to tile 3, with a shuffle hazard recorded at tile 5. *)
Definition hazard_at_tiles_3_and_5 : list Z :=
  [0; 0; 0; 0;  0; 0; 0; 0;  0; 0; 0; 0;
   1; 0xDEAD; 9; 9;  0; 0; 0; 0;  0; 0; 2; 7].

(** A device that answers every request at once and successfully, and whose
    stress kernel reports a shuffle hazard in trial 1 only. *)
Definition sample_trials (i : Z) : TrialEnv :=
  {| scanBump_after := fun _ => 0;
     scan_after := fun _ => 0;
     err_after := fun n => if (i =? 1) && (n =? 6)%nat then 2 else 0;
     work_done := prompt; copy_done := prompt; map_done := prompt |}.

(** Two tiles; every word of the error buffer is stale and nonzero. *)
Definition stale_world : World := sample_world (repeat 5 8).

Definition sample_env : Env :=
  {| session :=
       {| instance_created := true;
          adapter_done := prompt;
          adapter_info :=
            {| vendorID := 0x106b; vendor := "apple";
               architecture := "common-3"; deviceID := 0;
               device := "Apple M1"; description := "Metal driver" |};
          device_done := prompt |};
     init_shader :=
       {| file_opened := true; compilation_messages := [];
          compilation_done := prompt |};
     stress_shader :=
       {| file_opened := true;
          compilation_messages := [(MessageWarning, "unused variable")];
          compilation_done := prompt |};
     uniforms_done := prompt;
     trial := sample_trials |}.

(** * The rest of the program: further vocabulary *)

Definition as_list {A : Type} (o : option A) : list A :=
  match o with
  | Some a => [a]
  | None => []
  end.

Definition is_none {A : Type} (o : option A) : bool :=
  match o with
  | Some _ => false
  | None => true
  end.

(** The diagnostic of the first entry with a nonzero code among [pairs],
    taken in order. *)
Fixpoint first_hazard (words : list Z) (pairs : list (Z * Z))
  : option Printed :=
  match pairs with
  | [] => None
  | (t, k) :: rest =>
      match code_at words t k, got_at words t k with
      | Some errCode, Some got =>
          if errCode =? 0 then first_hazard words rest
          else Some (diagnostic errCode got t k)
      | _, _ => None
      end
  end.

(** The words the stress kernel of a trial leaves in an error buffer of
    [size * 4] words. *)
Definition telemetry (size : Z) (te : TrialEnv) : list Z :=
  map (fun i => U32.wrap (err_after te i)) (seq 0 (Z.to_nat (size * 4))).

(** What a trial prints: nothing when the size is 0 or the map request
    fails, otherwise the first hazard of its telemetry. *)
Definition trial_report (size : Z) (te : TrialEnv) : option Printed :=
  if (size =? 0) || negb (ok (map_done te)) then None
  else first_hazard (telemetry size te) (tile_thread_pairs size).

(** The device commands of one trial. *)
Definition trial_commands (size : Z) (te : TrialEnv) : list Command :=
  [Submit [[ComputePass "Init" 256; ComputePass "Stress" size]];
   OnSubmittedWorkDone]
  ++ (if size =? 0 then []
      else [Submit [[CopyBufferToBuffer Err 0 Readback 0
                                        (size * 4 * word_bytes)]];
            OnSubmittedWorkDone;
            MapAsync Readback 0 (size * 4 * word_bytes)]
           ++ (if ok (map_done te) then [Unmap Readback] else [])).

(** The trials of a batch, by position. *)
Definition trials_of (env : Z -> TrialEnv) (first count : nat)
  : list TrialEnv :=
  map (fun i => env (Z.of_nat i)) (seq first count).

Definition batch_reports (size : Z) (trials : list TrialEnv) : list Printed :=
  flat_map (fun te => as_list (trial_report size te)) trials.

Definition batch_commands (size : Z) (trials : list TrialEnv)
  : list Command :=
  flat_map (trial_commands size) trials.

Definition batch_passed (size : Z) (trials : list TrialEnv) : Z :=
  Z.of_nat (length (filter (fun te => is_none (trial_report size te)) trials)).

(** Map requests among device commands. *)
Definition is_map_request (c : Command) : bool :=
  match c with
  | MapAsync _ _ _ => true
  | _ => false
  end.

Definition maps_requested (cs : list Command) : nat :=
  length (filter is_map_request cs).

(** The world after [lines] went to standard error. *)
Definition logged (w : World) (lines : list string) : World :=
  {| bufs := bufs w; stdout := stdout w; stderr := stderr w ++ lines;
     cmds := cmds w; polls := polls w |}.

(** The lines [GetGPUContext] prints about the adapter. *)
Definition adapter_lines (i : AdapterInfo) : list Printed :=
  [Cout ("VendorID: " ++ Fmt.hex (vendorID i) ++ nl);
   Cout ("Vendor: " ++ vendor i ++ nl);
   Cout ("Architecture: " ++ architecture i ++ nl);
   Cout ("DeviceID: " ++ Fmt.hex (deviceID i) ++ nl);
   Cout ("Name: " ++ device i ++ nl);
   Cout ("Driver description: " ++ description i ++ nl)].

(** The lines [GetGPUContext] writes to standard error: one per failed
    step. *)
Definition negotiation_failures (env : SessionEnv) : list string :=
  (if instance_created env then [] else ["Instance creation failed!" ++ nl])
  ++ (if ok (adapter_done env) then [] else ["Failed to get adapter" ++ nl])
  ++ (if ok (device_done env) then [] else ["Failed to get device" ++ nl]).

(** The lines the compilation callback writes: one per error and per
    warning, in order; other messages are dropped. *)
Definition compilation_log
           (messages : list (CompilationMessageType * string)) : list string :=
  flat_map (fun m =>
              match m with
              | (MessageError, text) =>
                  ["Shader compilation error: " ++ text ++ nl]
              | (MessageWarning, text) =>
                  ["Shader compilation warning: " ++ text ++ nl]
              | (MessageInfo, _) => []
              end) messages.

Definition shader_log (path : string) (env : ShaderEnv) : list string :=
  (if file_opened env then [] else ["Failed to open file: " ++ path ++ nl])
  ++ compilation_log (compilation_messages env).

Definition shader_commands (path : string) : list Command :=
  [CreateShaderModule path; GetCompilationInfo;
   CreateBindGroupLayout; CreateBindGroup; CreatePipelineLayout;
   CreateComputePipeline "main"].

(** The device commands of the program before the first trial. *)
Definition setup_commands (size : Z) : list Command :=
  [CreateInstance; RequestAdapter; RequestDevice; GetQueue;
   CreateBuffer "Info" 16;
   CreateBuffer "Scan Atomic Bump" 4;
   CreateBuffer "Scan" (4 * size * 2);
   CreateBuffer "Main Readback" (4 * size * 4);
   CreateBuffer "Error" (4 * size * 4)]
  ++ shader_commands "Shaders/init.wgsl"
  ++ shader_commands "Shaders/stress.wgsl"
  ++ [WriteBuffer Info 0 [size; 0; 0; 0]; Submit []; OnSubmittedWorkDone].

(** A step that always returns, leaves device memory alone and only appends
    [out] to standard output, [errs] to standard error and [cs] to the device
    commands, pumping the event queue [n] times. *)
Definition appends (c : M unit) (out : list Printed) (errs : list string)
           (cs : list Command) (n : nat) : Prop :=
  forall w,
    exists w',
      c w = Some (tt, w')
      /\ bufs w' = bufs w
      /\ stdout w' = (stdout w ++ out)%list
      /\ stderr w' = (stderr w ++ errs)%list
      /\ cmds w' = (cmds w ++ cs)%list
      /\ polls w' = (n + polls w)%nat.

(** ** The diagnostic dump of the scan buffer *)

(** [a << b] and [a - b] on [uint32_t]. *)
Definition shl32 (a b : Z) : Z := U32.wrap (Z.shiftl a b).
Definition sub32 (a b : Z) : Z := U32.wrap (a - b).

(** [lo & 65535 | hi << 16]: the shift binds tighter than [&], and [&]
    tighter than [|]. *)
Definition rejoin (lo hi : Z) : Z := U32.or (U32.and lo 65535) (shl32 hi 16).

(** [for (uint32_t i = from; i < from + count; ++i) body(i);] *)
Fixpoint for_from (count : nat) (i : Z) (body : Z -> M unit) : M unit :=
  match count with
  | O => ret tt
  | S count' => body i ;; for_from count' (U32.add i 1) body
  end.

(** The body of the inner loop of [ReadbackAndPrintSync]. *)
Definition print_entry (readOut : list Z) (readbackSize lineLength i k : Z)
  : M unit :=
  let index := U32.add (U32.mul i lineLength) k in
  if index <? readbackSize then
    lo <- at_index readOut (U32.mul index 2) ;;
    hi <- at_index readOut (U32.add (U32.mul index 2) 1) ;;
    print (Cout (Fmt.u (rejoin lo hi / 1024) ++ ", "))
  else ret tt.

(** The body of the outer loop. *)
Definition print_line (readOut : list Z) (readbackSize lineLength i : Z)
  : M unit :=
  for_from (Z.to_nat lineLength) 0
           (print_entry readOut readbackSize lineLength i) ;;
  print (Cout nl).

(** [lineLength] is the template argument.  The loop bound divides by it:
    with 0 the behaviour is undefined. *)
Definition ReadbackAndPrintSync (lineLength readbackSize : Z)
           (copy_done map_done : Completion) : M unit :=
  let readOut := repeat 0 (Z.to_nat (U32.mul readbackSize 2)) in
  readOut <- CopyAndReadbackSync Scan Readback readOut 0
               (U32.mul readbackSize 2) copy_done map_done ;;
  if lineLength =? 0 then undefined
  else
    for_from
      (Z.to_nat (sub32 (U32.add readbackSize lineLength) 1 / lineLength)) 0
      (print_line readOut readbackSize lineLength).

(** The value printed for index [j] of a scan buffer holding [words]: the
    two 16-bit halves of words [2j] and [2j+1] rejoined, divided by 1024. *)
Definition scan_value (words : list Z) (j : nat) : Z :=
  rejoin (nth (2 * j) words 0) (nth (2 * j + 1) words 0) / 1024.

Definition printed_value (words : list Z) (j : nat) : Printed :=
  Cout (Fmt.u (scan_value words j) ++ ", ").

(** Line [i] of the dump of the first [n] values, [lineLength] to a line. *)
Definition dump_line (words : list Z) (n lineLength i : nat) : list Printed :=
  map (printed_value words)
      (seq (i * lineLength) (Nat.min lineLength (n - i * lineLength)))
  ++ [Cout nl].

Definition dump (words : list Z) (n lineLength : nat) : list Printed :=
  flat_map (dump_line words n lineLength)
           (seq 0 ((n + lineLength - 1) / lineLength)).

(** A scan buffer of six values whose halves hold 1024, 2048, ..., 5 * 1024
    and 70000 * 1024. *)
Definition sample_scan : list Z :=
  [1024; 0;  2048; 0;  3072; 0;  4096; 0;  5120; 0;  0xC000; 0x445].

Definition scan_world : World :=
  {| bufs := {| info := [6; 0; 0; 0]; scanBump := [0]; scan := sample_scan;
                readback := repeat 0 24; err := repeat 0 24 |};
     stdout := []; stderr := []; cmds := []; polls := 0 |}.

(** ** The wait loops, pump by pump *)

(** [await] gives every callback a finite latency, so the functions that wait
    through it return by construction.  The loops of the source have no
    bound:
    [while (future.wait_for(100ns) == timeout) instance.ProcessEvents();]
    pumps the event queue until the callback has fired, and a callback that
    never fires keeps it pumping.  Below, the bridge and the trial runner are
    translated again, this time run with a budget of pumps against a device
    whose callbacks may never fire. *)

Inductive Outcome (A : Type) : Type :=
| Returned (a : A) (w : World) (spare : nat)  (* returned, [spare] pumps unused *)
| Undefined                                   (* undefined behaviour *)
| StillWaiting.                               (* budget used up inside a wait loop *)

Arguments Returned {A} a w spare.
Arguments Undefined {A}.
Arguments StillWaiting {A}.

Definition Budgeted (A : Type) : Type := nat -> World -> Outcome A.

Definition retB {A} (a : A) : Budgeted A := fun budget w => Returned a w budget.

Definition bindB {A B} (c : Budgeted A) (k : A -> Budgeted B) : Budgeted B :=
  fun budget w =>
    match c budget w with
    | Returned a w' spare => k a spare w'
    | Undefined => Undefined
    | StillWaiting => StillWaiting
    end.

(** A step that does not wait. *)
Definition lift {A} (c : M A) : Budgeted A :=
  fun budget w =>
    match c w with
    | Some (a, w') => Returned a w' budget
    | None => Undefined
    end.

Declare Scope budget_scope.
Delimit Scope budget_scope with budget.
Notation "x <- c ;; k" := (bindB c (fun x => k))
  (at level 61, c at next level, right associativity) : budget_scope.
Notation "c ;; k" := (bindB c (fun _ => k))
  (at level 61, right associativity) : budget_scope.

(** The wait loop.  [fires] is the number of pumps after which the callback
    has run and fulfilled the promise; [None] when it never runs.  The loop
    leaves when the future is ready and pumps once more otherwise. *)
Fixpoint poll {A} (budget : nat) (fires : option nat) (callback : M A)
         (w : World) : Outcome A :=
  match fires with
  | Some O => lift callback budget w
  | _ =>
      match budget with
      | O => StillWaiting
      | S budget' =>
          match ProcessEvents w with
          | Some (_, w1) => poll budget' (option_map Nat.pred fires) callback w1
          | None => Undefined
          end
      end
  end.

Definition await_polling {A} (fires : option nat) (callback : M A)
  : Budgeted A :=
  fun budget w => poll budget fires callback w.

Definition QueueSync_polling (fires : option nat) (done : Completion)
  : Budgeted unit :=
  (lift (issue OnSubmittedWorkDone) ;;
   await_polling fires
     (if ok done then ret tt
      else eprint ("Queue submission failed" ++ nl)))%budget.

Definition CopyBufferSync_polling (srcReadback dstReadback : BufferId)
           (sourceOffsetBytes copySizeBytes : Z)
           (fires : option nat) (done : Completion) : Budgeted unit :=
  (lift (issue (Submit [[CopyBufferToBuffer srcReadback sourceOffsetBytes
                                            dstReadback 0 copySizeBytes]])) ;;
   lift (device_copy srcReadback sourceOffsetBytes dstReadback copySizeBytes
                     done) ;;
   QueueSync_polling fires done)%budget.

(** The callback of [MapAsync]. *)
Definition map_callback (dstReadback : BufferId) (readOut : list Z)
           (readbackSizeBytes : Z) (done : Completion) : M (list Z) :=
  b <- device_memory ;;
  if ok done && range_ok (buffer b dstReadback) 0 readbackSizeBytes
  then
    readOut' <- memcpy readOut
                  (slice (buffer b dstReadback) 0 readbackSizeBytes) ;;
    issue (Unmap dstReadback) ;;
    ret readOut'
  else
    eprint ("Bad readback" ++ nl) ;;
    ret readOut.

Definition ReadbackSync_polling (dstReadback : BufferId) (readOut : list Z)
           (readbackSizeBytes : Z) (fires : option nat) (done : Completion)
  : Budgeted (list Z) :=
  (lift (issue (MapAsync dstReadback 0 readbackSizeBytes)) ;;
   await_polling fires
     (map_callback dstReadback readOut readbackSizeBytes done))%budget.

Definition CopyAndReadbackSync_polling (srcReadback dstReadback : BufferId)
           (readOut : list Z) (sourceOffset readbackSize : Z)
           (copy_fires map_fires : option nat)
           (copy_done map_done : Completion) : Budgeted (list Z) :=
  (CopyBufferSync_polling srcReadback dstReadback
     (sourceOffset * word_bytes) (readbackSize * word_bytes)
     copy_fires copy_done ;;
   ReadbackSync_polling dstReadback readOut (readbackSize * word_bytes)
     map_fires map_done)%budget.

Definition Validate_polling (size : Z) (copy_fires map_fires : option nat)
           (copy_done map_done : Completion) : Budgeted bool :=
  if size =? 0 then retB true
  else
    let readOut :=
      repeat 0 (Z.to_nat (U32.mul (U32.mul size SPLIT_THREADS) 2)) in
    (readOut <- CopyAndReadbackSync_polling Err Readback readOut 0
                  (Z.of_nat (length readOut))
                  copy_fires map_fires copy_done map_done ;;
     lift (Validate_scan readOut size))%budget.

(** When the callbacks of the three requests of a trial fire. *)
Record Firing : Type := {
  work_fires : option nat;
  copy_fires : option nat;
  map_fires : option nat
}.

Definition RunTrial_polling (size : Z) (te : TrialEnv) (f : Firing)
  : Budgeted bool :=
  (lift (issue (Submit [[ComputePass "Init" 256;
                         ComputePass "Stress" size]])) ;;
   lift (run_kernels te) ;;
   QueueSync_polling (work_fires f) (work_done te) ;;
   Validate_polling size (copy_fires f) (map_fires f)
                    (copy_done te) (map_done te))%budget.

Fixpoint RunTest_loop_polling (remaining : nat) (i size : Z)
         (env : Z -> TrialEnv) (firing : Z -> Firing) (testsPassed : Z)
  : Budgeted Z :=
  match remaining with
  | O => retB testsPassed
  | S remaining' =>
      (passed <- RunTrial_polling size (env i) (firing i) ;;
       RunTest_loop_polling remaining' (U32.add i 1) size env firing
         (U32.add testsPassed (if passed then 1 else 0)))%budget
  end.

Definition RunTest_polling (size batchSize : Z) (env : Z -> TrialEnv)
           (firing : Z -> Firing) : Budgeted unit :=
  (testsPassed <- RunTest_loop_polling (Z.to_nat batchSize) 0 size env
                    firing 0 ;;
   lift (print (Summary testsPassed batchSize)) ;;
   lift (print (Verdict (testsPassed =? batchSize))))%budget.

(** A device that answers every request of a trial: each callback fires
    after the latency the trial gives it. *)
Definition responsive (te : TrialEnv) : Firing :=
  {| work_fires := Some (latency (work_done te));
     copy_fires := Some (latency (copy_done te));
     map_fires := Some (latency (map_done te)) |}.

(** A device whose queue never reports that the submitted work is done. *)
Definition stalled_queue : Firing :=
  {| work_fires := None; copy_fires := Some 0%nat; map_fires := Some 0%nat |}.

(** The pumps of the event queue a trial needs on a responsive device. *)
Definition trial_pumps (size : Z) (te : TrialEnv) : nat :=
  (latency (work_done te)
   + (if (size =? 0)%Z then 0
      else latency (copy_done te) + latency (map_done te)))%nat.

Definition batch_pumps (size : Z) (trials : list TrialEnv) : nat :=
  list_sum (map (trial_pumps size) trials).

(** [p] is [c] run pump by pump: whenever [c] returns, it has pumped the
    event queue [n] times, and [p] returns the same with any budget of at
    least [n] pumps, leaving the rest unused. *)
Definition refines {A} (p : Budgeted A) (n : nat) (c : M A) : Prop :=
  forall w a w',
    c w = Some (a, w') ->
    polls w' = (n + polls w)%nat
    /\ forall spare, p (n + spare)%nat w = Returned a w' spare.

(** [c] never changes what [f] observes of the world. *)
Definition preserves {A X} (f : World -> X) (c : M A) : Prop :=
  forall w a w', c w = Some (a, w') -> f w' = f w.

(** The words of the uniform parameter buffer. *)
Definition parameters (w : World) : list Z := info (bufs w).

(** What a step that neither pumps the event queue nor touches device memory
    leaves alone. *)
Definition device_state (w : World) : GPUBuffers * nat := (bufs w, polls w).

(** Instance, adapter and device were all obtained. *)
Definition negotiated (env : SessionEnv) : Prop :=
  instance_created env = true
  /\ ok (adapter_done env) = true
  /\ ok (device_done env) = true.

(** * Properties *)

(** ** Arithmetic on 32-bit words *)

Lemma wrap_in_range x : U32.in_range (U32.wrap x).
Proof.
  unfold U32.in_range, U32.wrap, U32.modulus. apply Z.mod_pos_bound. lia.
Qed.

Lemma wrap_small x : U32.in_range x -> U32.wrap x = x.
Proof. unfold U32.in_range, U32.wrap. intros H. now apply Z.mod_small. Qed.

Lemma add_small a b : 0 <= a + b < 2 ^ 32 -> U32.add a b = a + b.
Proof. intros H. unfold U32.add. now apply wrap_small. Qed.

Lemma mul_small a b : 0 <= a * b < 2 ^ 32 -> U32.mul a b = a * b.
Proof. intros H. unfold U32.mul. now apply wrap_small. Qed.

(** ** The primitive actions *)

Lemma say_nil w : say w [] = w.
Proof. destruct w; unfold say; simpl. now rewrite app_nil_r. Qed.

Lemma say_say w a b : say (say w a) b = say w (a ++ b).
Proof. unfold say; simpl. now rewrite app_assoc. Qed.

Lemma print_say p w : print p w = Some (tt, say w [p]).
Proof. reflexivity. Qed.

Lemma pump_polled n w : pump n w = Some (tt, polled w n).
Proof.
  revert w. induction n as [|n IH]; intros w.
  - destruct w; reflexivity.
  - simpl. unfold bind, ProcessEvents. rewrite IH. unfold polled; simpl.
    do 3 f_equal. lia.
Qed.

(** ** The classifier *)

Lemma diagnostic_blamed errCode got tile_id tid :
  blamed (diagnostic errCode got tile_id tid) = Some (tile_id, tid).
Proof.
  unfold diagnostic.
  destruct (errCode =? ERROR_TYPE_MESSAGE); [reflexivity|].
  destruct (errCode =? ERROR_TYPE_SHUFFLE); reflexivity.
Qed.

Lemma CheckError_zero got tile_id tid w :
  CheckError 0 got tile_id tid w = Some (true, w).
Proof. reflexivity. Qed.

Lemma CheckError_nonzero errCode got tile_id tid w :
  errCode <> 0 ->
  CheckError errCode got tile_id tid w
  = Some (false, say w [diagnostic errCode got tile_id tid]).
Proof.
  intros Hne. unfold CheckError, diagnostic.
  destruct (errCode =? 0) eqn:E0; [apply Z.eqb_eq in E0; contradiction|].
  destruct (errCode =? ERROR_TYPE_MESSAGE); [reflexivity|].
  destruct (errCode =? ERROR_TYPE_SHUFFLE); reflexivity.
Qed.

(** C9.  A telemetry entry passes exactly when its error code word is 0.  For
    every nonzero code, whatever the observed value, the classifier returns
    failure; the observed value only appears in the diagnostic it prints. *)
Theorem CheckError_passes_iff_code_zero errCode got tile_id tid w :
  CheckError errCode got tile_id tid w
  = Some (errCode =? 0,
          if errCode =? 0 then w
          else say w [diagnostic errCode got tile_id tid]).
Proof.
  destruct (errCode =? 0) eqn:E.
  - apply Z.eqb_eq in E. subst errCode. apply CheckError_zero.
  - apply Z.eqb_neq in E. now apply CheckError_nonzero.
Qed.

(** C1, as the specification states it, fails: with error code 1 the
    not-ready sentinel, the ready shape of thread slot 0 and a value with the
    inclusive bit set are all reported as message-passing hazards. *)
Lemma CheckError_rejects_legal_shapes :
  (legal_shape 0 0 = true
   /\ exists w', CheckError 1 0 0 0 initial_world = Some (false, w'))
  /\ (legal_shape 0 0x40000400 = true
      /\ exists w',
          CheckError 1 0x40000400 0 0 initial_world = Some (false, w'))
  /\ (legal_shape 1 0x80001234 = true
      /\ exists w',
          CheckError 1 0x80001234 0 1 initial_world = Some (false, w')).
Proof.
  repeat split; try reflexivity; eexists; vm_compute; reflexivity.
Qed.

(** C1, amended.  For every telemetry entry with error code 1 the classifier
    returns failure whatever the observed value is, and prints one
    message-passing diagnostic that names the tile, the thread slot and the
    observed value and lists the shapes of the protocol: the not-ready
    sentinel 0, the ready value ((1024 >> tid*16) & 0xFFFF) | 0x40000000,
    the mask 0xFFFF and the inclusive flag 0x80000000. *)
Theorem CheckError_message_code_always_hazard got tile_id tid w :
  CheckError ERROR_TYPE_MESSAGE got tile_id tid w
  = Some (false,
          say w [MessagePassingError tile_id tid got 0
                   (Z.lor (Z.land (Z.shiftr 1024 (U32.mul tid 16)) 0xFFFF)
                          0x40000000)
                   (Z.land (Z.shiftr 1024 (U32.mul tid 16)) 0xFFFF)
                   0xFFFF 0x80000000]).
Proof. reflexivity. Qed.

(** ** Loops that stop at the first failure *)

Section AllFrom.

Variable body : Z -> M bool.

Lemma all_from_all_pass count i w :
  0 <= i -> i + Z.of_nat count < 2 ^ 32 ->
  (forall j, i <= j < i + Z.of_nat count -> body j w = Some (true, w)) ->
  all_from count i body w = Some (true, w).
Proof.
  revert i. induction count as [|count IH]; intros i Hi Hb Hpass.
  - reflexivity.
  - simpl. unfold bind. rewrite Hpass by lia.
    rewrite add_small by lia. apply IH; try lia.
    intros j Hj. apply Hpass. lia.
Qed.

Lemma all_from_first_fail count i w j w' :
  0 <= i -> i + Z.of_nat count < 2 ^ 32 ->
  i <= j < i + Z.of_nat count ->
  (forall j', i <= j' < j -> body j' w = Some (true, w)) ->
  body j w = Some (false, w') ->
  all_from count i body w = Some (false, w').
Proof.
  revert i. induction count as [|count IH]; intros i Hi Hb Hj Hpass Hfail.
  - lia.
  - simpl. unfold bind.
    destruct (Z.eq_dec i j) as [->|Hne].
    + now rewrite Hfail.
    + rewrite Hpass by lia. rewrite add_small by lia.
      apply IH; try lia; [|exact Hfail].
      intros j' Hj'. apply Hpass. lia.
Qed.

(** A loop whose body either passes silently or fails with one diagnostic
    does the same as a whole. *)
Lemma all_from_verdict count i w :
  0 <= i -> i + Z.of_nat count < 2 ^ 32 ->
  (forall j, i <= j < i + Z.of_nat count -> verdict_of (body j w) w) ->
  verdict_of (all_from count i body w) w.
Proof.
  revert i. induction count as [|count IH]; intros i Hi Hb Hbody.
  - now left.
  - simpl. unfold bind.
    destruct (Hbody i ltac:(lia)) as [E|[p [Hp E]]]; rewrite E.
    + rewrite add_small by lia. apply IH; try lia.
      intros j Hj. apply Hbody. lia.
    + right. now exists p.
Qed.

End AllFrom.

(** ** Vectors and byte ranges *)

Lemma overwrite_length dst data :
  (length data <= length dst)%nat ->
  length (overwrite dst data) = length dst.
Proof.
  intros H. unfold overwrite. rewrite length_app, length_skipn. lia.
Qed.

Lemma overwrite_same_length dst data :
  length data = length dst -> overwrite dst data = data.
Proof.
  intros H. unfold overwrite. rewrite skipn_all2 by lia. apply app_nil_r.
Qed.

Lemma slice_length ws off sz :
  (length (slice ws off sz) <= Z.to_nat (sz / word_bytes))%nat.
Proof. unfold slice. rewrite length_firstn. lia. Qed.

Lemma words_bytes_words n :
  Z.to_nat (Z.of_nat n * word_bytes / word_bytes) = n.
Proof.
  unfold word_bytes. rewrite Z.div_mul by lia. apply Nat2Z.id.
Qed.

Lemma slice_whole ws :
  slice ws 0 (Z.of_nat (length ws) * word_bytes) = ws.
Proof.
  unfold slice. rewrite words_bytes_words. simpl. apply firstn_all.
Qed.

Lemma range_ok_whole ws :
  range_ok ws 0 (Z.of_nat (length ws) * word_bytes) = true.
Proof.
  unfold range_ok, word_bytes. rewrite Z.mod_mul by lia.
  rewrite !andb_true_iff.
  repeat split; try reflexivity; apply Z.leb_le; lia.
Qed.

(** ** The readback path *)

Lemma QueueSync_spec done w :
  exists w',
    QueueSync done w = Some (tt, w')
    /\ bufs w' = bufs w
    /\ stdout w' = stdout w
    /\ cmds w' = (cmds w ++ [OnSubmittedWorkDone])%list.
Proof.
  unfold QueueSync, await, bind, issue. rewrite pump_polled.
  destruct (ok done); eexists; repeat split; reflexivity.
Qed.

Lemma CopyBufferSync_spec src dst off sz done w :
  exists w',
    CopyBufferSync src dst off sz done w = Some (tt, w')
    /\ stdout w' = stdout w
    /\ cmds w'
       = (cmds w ++ [Submit [[CopyBufferToBuffer src off dst 0 sz]];
                     OnSubmittedWorkDone])%list
    /\ bufs w'
       = if range_ok (buffer (bufs w) src) off sz
            && range_ok (buffer (bufs w) dst) 0 sz
         then set_buffer (bufs w) dst
                (overwrite (buffer (bufs w) dst)
                           (slice (buffer (bufs w) src) off sz))
         else bufs w.
Proof.
  unfold CopyBufferSync, device_copy, QueueSync, await, bind, issue,
    device_memory, set_device_memory, eprint. simpl.
  destruct (range_ok (buffer (bufs w) src) off sz
            && range_ok (buffer (bufs w) dst) 0 sz);
    rewrite pump_polled; destruct (ok done);
    eexists; (split; [reflexivity|]); simpl;
    rewrite <- app_assoc; repeat split.
Qed.

Lemma ReadbackSync_spec dst readOut done w :
  let bytes := Z.of_nat (length readOut) * word_bytes in
  let mapped := map_succeeds done (bufs w) dst bytes in
  exists w',
    ReadbackSync dst readOut bytes done w
    = Some (if mapped
            then overwrite readOut (slice (buffer (bufs w) dst) 0 bytes)
            else readOut, w')
    /\ bufs w' = bufs w
    /\ stdout w' = stdout w
    /\ stderr w'
       = (stderr w ++ (if mapped then [] else [("Bad readback" ++ nl)%string]))%list
    /\ cmds w'
       = (cmds w ++ MapAsync dst 0 bytes
                      :: (if mapped then [Unmap dst] else []))%list.
Proof.
  intros bytes mapped. subst mapped. unfold map_succeeds.
  unfold ReadbackSync, await, bind, issue, device_memory. simpl.
  rewrite pump_polled. simpl.
  destruct (ok done && range_ok (buffer (bufs w) dst) 0 bytes).
  - unfold memcpy.
    assert (L : (length (slice (buffer (bufs w) dst) 0 bytes)
                 <= length readOut)%nat).
    { pose proof (slice_length (buffer (bufs w) dst) 0 bytes) as H.
      subst bytes. now rewrite words_bytes_words in H. }
    apply Nat.leb_le in L. rewrite L. unfold ret.
    eexists; (split; [reflexivity|]); simpl.
    rewrite <- app_assoc. repeat split. now rewrite app_nil_r.
  - unfold eprint, ret.
    eexists; (split; [reflexivity|]); simpl. repeat split.
Qed.



(** ** Decoding the telemetry words *)

Lemma size_words size :
  0 <= size < 2 ^ 30 -> U32.mul (U32.mul size SPLIT_THREADS) 2 = size * 4.
Proof.
  intros H. unfold SPLIT_THREADS.
  rewrite (mul_small size 2) by lia. rewrite mul_small by lia. lia.
Qed.

Lemma entry_index t k :
  0 <= t < 2 ^ 30 -> 0 <= k < 2 ->
  U32.add (U32.mul (U32.mul t SPLIT_THREADS) 2) (U32.mul k 2) = t * 4 + k * 2.
Proof.
  intros Ht Hk. rewrite size_words by lia.
  rewrite (mul_small k 2) by lia. apply add_small. lia.
Qed.

Lemma Validate_thread_classify words t k w :
  0 <= t < 2 ^ 30 -> 0 <= k < 2 ->
  Validate_thread words t (U32.mul (U32.mul t SPLIT_THREADS) 2) k w
  = classify_entry words t k w.
Proof.
  intros Ht Hk. unfold Validate_thread, classify_entry, code_at, got_at.
  rewrite entry_index by assumption.
  rewrite (add_small (t * 4 + k * 2) 1) by lia.
  unfold bind, at_index.
  destruct (nth_error words (Z.to_nat (t * 4 + k * 2))) as [e|];
    [|reflexivity].
  unfold ret.
  destruct (nth_error words (Z.to_nat (t * 4 + k * 2 + 1))); reflexivity.
Qed.

Lemma Validate_tile_classify words t w :
  0 <= t < 2 ^ 30 ->
  Validate_tile words t w = classify_entries words [(t, 0); (t, 1)] w.
Proof.
  intros Ht. unfold Validate_tile. simpl. unfold bind.
  rewrite Validate_thread_classify by lia.
  destruct (classify_entry words t 0 w) as [[[|] w1]|]; try reflexivity.
  change (U32.add 0 1) with 1.
  rewrite Validate_thread_classify by lia.
  destruct (classify_entry words t 1 w1) as [[[|] w2]|]; reflexivity.
Qed.

Lemma Validate_tiles_classify words count n w :
  Z.of_nat n + Z.of_nat count < 2 ^ 30 ->
  all_from count (Z.of_nat n) (Validate_tile words) w
  = classify_entries words
      (flat_map (fun t => [(Z.of_nat t, 0); (Z.of_nat t, 1)]) (seq n count))
      w.
Proof.
  revert n w. induction count as [|count IH]; intros n w Hb.
  - reflexivity.
  - simpl. unfold bind. rewrite Validate_tile_classify by lia.
    simpl. unfold bind.
    destruct (classify_entry words (Z.of_nat n) 0 w) as [[[|] w1]|];
      try reflexivity.
    destruct (classify_entry words (Z.of_nat n) 1 w1) as [[[|] w2]|];
      try reflexivity.
    rewrite add_small by lia.
    replace (Z.of_nat n + 1) with (Z.of_nat (S n)) by lia.
    apply IH. lia.
Qed.

Lemma Validate_scan_classify words size w :
  0 <= size < 2 ^ 30 ->
  Validate_scan words size w
  = classify_entries words (tile_thread_pairs size) w.
Proof.
  intros H. unfold Validate_scan, tile_thread_pairs.
  apply (Validate_tiles_classify words (Z.to_nat size) 0 w). lia.
Qed.

Lemma word_exists (words : list Z) i :
  (i < length words)%nat -> exists x, nth_error words i = Some x.
Proof.
  intros H. destruct (nth_error words i) as [x|] eqn:E.
  - now exists x.
  - apply nth_error_None in E. lia.
Qed.

Lemma entry_exists words size t k :
  length words = Z.to_nat (size * 4) ->
  0 <= t < size -> 0 <= k < 2 ->
  exists e g, code_at words t k = Some e /\ got_at words t k = Some g.
Proof.
  intros L Ht Hk. unfold code_at, got_at.
  destruct (word_exists words (Z.to_nat (t * 4 + k * 2))) as [e He];
    [lia|].
  destruct (word_exists words (Z.to_nat (t * 4 + k * 2 + 1))) as [g Hg];
    [lia|].
  now exists e, g.
Qed.

Lemma classify_entry_pass words t k g w :
  code_at words t k = Some 0 -> got_at words t k = Some g ->
  classify_entry words t k w = Some (true, w).
Proof. intros Hc Hg. unfold classify_entry. now rewrite Hc, Hg. Qed.

Lemma classify_entry_fail words t k e g w :
  code_at words t k = Some e -> e <> 0 -> got_at words t k = Some g ->
  classify_entry words t k w = Some (false, say w [diagnostic e g t k]).
Proof.
  intros Hc Hne Hg. unfold classify_entry. rewrite Hc, Hg.
  now apply CheckError_nonzero.
Qed.

Lemma classify_entry_verdict words size t k w :
  length words = Z.to_nat (size * 4) ->
  0 <= t < size -> 0 <= k < 2 ->
  verdict_of (classify_entry words t k w) w.
Proof.
  intros L Ht Hk.
  destruct (entry_exists words size t k L Ht Hk) as [e [g [He Hg]]].
  destruct (Z.eq_dec e 0) as [->|Hne].
  - left. now apply classify_entry_pass with g.
  - right. exists (diagnostic e g t k). split.
    + rewrite diagnostic_blamed. discriminate.
    + now apply classify_entry_fail.
Qed.

Section Scan.

Variables (words : list Z) (size : Z).
Hypothesis size_bound : 0 <= size < 2 ^ 30.
Hypothesis words_length : length words = Z.to_nat (size * 4).

Lemma Validate_tile_verdict t w :
  0 <= t < size -> verdict_of (Validate_tile words t w) w.
Proof.
  intros Ht. unfold Validate_tile.
  apply all_from_verdict; try (unfold SPLIT_THREADS; simpl; lia).
  intros k Hk. rewrite Validate_thread_classify by (simpl in Hk; lia).
  apply classify_entry_verdict with size; simpl in Hk; auto; lia.
Qed.

Lemma Validate_scan_verdict w : verdict_of (Validate_scan words size w) w.
Proof.
  unfold Validate_scan. apply all_from_verdict; try lia.
  intros t Ht. apply Validate_tile_verdict. lia.
Qed.

Lemma Validate_tile_pass t w :
  0 <= t < size ->
  (forall k, 0 <= k < 2 -> code_at words t k = Some 0) ->
  Validate_tile words t w = Some (true, w).
Proof.
  intros Ht Hz. unfold Validate_tile.
  apply all_from_all_pass; try (unfold SPLIT_THREADS; simpl; lia).
  intros k Hk. simpl in Hk.
  rewrite Validate_thread_classify by lia.
  destruct (entry_exists words size t k words_length Ht ltac:(lia))
    as [e [g [He Hg]]].
  apply classify_entry_pass with g; [apply Hz; lia|exact Hg].
Qed.

Lemma Validate_scan_all_pass w :
  (forall t k, 0 <= t < size -> 0 <= k < 2 -> code_at words t k = Some 0) ->
  Validate_scan words size w = Some (true, w).
Proof.
  intros Hz. unfold Validate_scan. apply all_from_all_pass; try lia.
  intros t Ht. apply Validate_tile_pass; [lia|].
  intros k Hk. apply Hz; lia.
Qed.

Lemma Validate_scan_first_failure t k e g w :
  0 <= t < size -> 0 <= k < 2 ->
  code_at words t k = Some e -> e <> 0 -> got_at words t k = Some g ->
  (forall t' k', 0 <= t' -> 0 <= k' < 2 -> scanned_before t' k' t k ->
                 code_at words t' k' = Some 0) ->
  Validate_scan words size w = Some (false, say w [diagnostic e g t k]).
Proof.
  intros Ht Hk He Hne Hg Hbefore. unfold Validate_scan.
  apply all_from_first_fail with (j := t); try lia.
  - intros t' Ht'. apply Validate_tile_pass; [lia|].
    intros k' Hk'. apply Hbefore; try lia. left. lia.
  - unfold Validate_tile.
    apply all_from_first_fail with (j := k);
      try (unfold SPLIT_THREADS; simpl; lia).
    + intros k' Hk'. rewrite Validate_thread_classify by lia.
      destruct (entry_exists words size t k' words_length Ht ltac:(lia))
        as [e' [g' [He' Hg']]].
      apply classify_entry_pass with g'; [|exact Hg'].
      apply Hbefore; try lia. right. lia.
    + rewrite Validate_thread_classify by lia.
      now apply classify_entry_fail.
Qed.

End Scan.

(** ** Validation as a whole *)

Lemma Validate_readback size copy_done map_done w :
  0 < size < 2 ^ 30 ->
  let bytes := size * 4 * word_bytes in
  let zeros := repeat 0 (Z.to_nat (size * 4)) in
  exists readOut w',
    Validate size copy_done map_done w = Validate_scan readOut size w'
    /\ length readOut = Z.to_nat (size * 4)
    /\ stdout w' = stdout w
    /\ err (bufs w') = err (bufs w)
    /\ cmds w'
       = (cmds w
          ++ [Submit [[CopyBufferToBuffer Err 0 Readback 0 bytes]];
              OnSubmittedWorkDone; MapAsync Readback 0 bytes]
          ++ (if map_succeeds map_done (bufs w') Readback bytes
              then [Unmap Readback] else []))%list
    /\ readOut
       = (if map_succeeds map_done (bufs w') Readback bytes
          then overwrite zeros (slice (readback (bufs w')) 0 bytes)
          else zeros)
    /\ (allocated size (bufs w) -> readback (bufs w') = err (bufs w)).
Proof.
  intros Hs bytes zeros. unfold Validate.
  destruct (size =? 0) eqn:E; [apply Z.eqb_eq in E; lia|].
  rewrite size_words by lia. fold zeros.
  assert (Lz : Z.of_nat (length zeros) = size * 4).
  { subst zeros. rewrite repeat_length. lia. }
  unfold CopyAndReadbackSync, bind. rewrite Lz. fold bytes.
  destruct (CopyBufferSync_spec Err Readback (0 * word_bytes) bytes
              copy_done w) as [w1 [E1 [O1 [C1 B1]]]].
  rewrite E1.
  pose proof (ReadbackSync_spec Readback zeros map_done w1) as R.
  rewrite Lz in R. fold bytes in R. cbv zeta in R.
  destruct R as [w2 [E2 [B2 [O2 [_ C2]]]]].
  rewrite E2.
  eexists. exists w2. split; [reflexivity|].
  rewrite B2.
  assert (Herr : err (bufs w1) = err (bufs w)).
  { rewrite B1. destruct (_ && _); reflexivity. }
  repeat split.
  - destruct (map_succeeds map_done (bufs w1) Readback bytes).
    + rewrite overwrite_length.
      * subst zeros. apply repeat_length.
      * pose proof (slice_length (buffer (bufs w1) Readback) 0 bytes) as H.
        unfold bytes, word_bytes in H. rewrite Z.div_mul in H by lia.
        subst zeros. rewrite repeat_length. exact H.
    + subst zeros. apply repeat_length.
  - congruence.
  - exact Herr.
  - rewrite C2, C1. rewrite <- app_assoc. reflexivity.
  - intros [Lr Le]. rewrite B1. simpl.
    assert (Hb : bytes = Z.of_nat (length (err (bufs w))) * word_bytes).
    { subst bytes. rewrite Le. f_equal. lia. }
    assert (Hb' : bytes = Z.of_nat (length (readback (bufs w))) * word_bytes).
    { subst bytes. rewrite Lr. f_equal. lia. }
    rewrite Hb at 1. rewrite range_ok_whole.
    rewrite Hb' at 1. rewrite range_ok_whole. simpl.
    rewrite Hb. rewrite slice_whole.
    apply overwrite_same_length. congruence.
Qed.

Lemma Validate_decodes_err size copy_done map_done w :
  0 < size < 2 ^ 30 -> allocated size (bufs w) -> ok map_done = true ->
  exists w',
    Validate size copy_done map_done w
    = Validate_scan (err (bufs w)) size w'
    /\ stdout w' = stdout w
    /\ err (bufs w') = err (bufs w)
    /\ allocated size (bufs w')
    /\ cmds w'
       = (cmds w
          ++ [Submit [[CopyBufferToBuffer Err 0 Readback 0
                                          (size * 4 * word_bytes)]];
              OnSubmittedWorkDone;
              MapAsync Readback 0 (size * 4 * word_bytes);
              Unmap Readback])%list.
Proof.
  intros Hs Ha Hok.
  destruct (Validate_readback size copy_done map_done w Hs)
    as [readOut [w' [EV [L [O [E [C [R A]]]]]]]].
  specialize (A Ha). destruct Ha as [Lr Le].
  assert (Hb : size * 4 * word_bytes
               = Z.of_nat (length (readback (bufs w'))) * word_bytes).
  { rewrite A, Le. f_equal. lia. }
  assert (Hm : map_succeeds map_done (bufs w') Readback
                 (size * 4 * word_bytes) = true).
  { unfold map_succeeds. rewrite Hok. simpl. rewrite Hb.
    apply range_ok_whole. }
  rewrite Hm in R, C.
  rewrite Hb, slice_whole, A in R.
  rewrite overwrite_same_length in R
    by (rewrite repeat_length; congruence).
  subst readOut. exists w'. repeat split; auto; congruence.
Qed.

Lemma Validate_decodes_zeros size copy_done map_done w :
  0 < size < 2 ^ 30 -> ok map_done = false ->
  exists w',
    Validate size copy_done map_done w
    = Validate_scan (repeat 0 (Z.to_nat (size * 4))) size w'
    /\ stdout w' = stdout w
    /\ err (bufs w') = err (bufs w)
    /\ (allocated size (bufs w) -> allocated size (bufs w'))
    /\ cmds w'
       = (cmds w
          ++ [Submit [[CopyBufferToBuffer Err 0 Readback 0
                                          (size * 4 * word_bytes)]];
              OnSubmittedWorkDone;
              MapAsync Readback 0 (size * 4 * word_bytes)])%list.
Proof.
  intros Hs Hok.
  destruct (Validate_readback size copy_done map_done w Hs)
    as [readOut [w' [EV [L [O [E [C [R A]]]]]]]].
  assert (Hm : map_succeeds map_done (bufs w') Readback
                 (size * 4 * word_bytes) = false).
  { unfold map_succeeds. now rewrite Hok. }
  rewrite Hm in R, C. subst readOut. exists w'.
  repeat split; auto.
  - specialize (A H). destruct H. congruence.
  - rewrite E. now destruct H.
Qed.

Lemma zeros_code_at size t k :
  0 <= t < size -> 0 <= k < 2 ->
  code_at (repeat 0 (Z.to_nat (size * 4))) t k = Some 0.
Proof.
  intros Ht Hk. unfold code_at. apply nth_error_repeat. lia.
Qed.

(** Validation returns for every size below 2^30, whatever the device holds
    and answers: it passes silently or fails with one diagnostic. *)
Lemma Validate_verdict size copy_done map_done w :
  0 <= size < 2 ^ 30 ->
  exists passed out w',
    Validate size copy_done map_done w = Some (passed, w')
    /\ stdout w' = (stdout w ++ out)%list
    /\ trials_run (cmds w') = trials_run (cmds w)
    /\ (passed = true /\ out = []
        \/ passed = false /\ exists p, out = [p] /\ blamed p <> None).
Proof.
  intros Hs. destruct (Z.eq_dec size 0) as [->|Hne].
  - exists true, [], w. repeat split; auto. now rewrite app_nil_r.
  - destruct (Validate_readback size copy_done map_done w ltac:(lia))
      as [readOut [w' [EV [L [O [E [C _]]]]]]].
    assert (T : trials_run (cmds w') = trials_run (cmds w)).
    { rewrite C. unfold trials_run. rewrite !filter_app. simpl.
      destruct (map_succeeds _ _ _ _); simpl;
        rewrite !length_app; simpl; lia. }
    rewrite EV.
    destruct (Validate_scan_verdict readOut size Hs L w')
      as [E'|[p [Hp E']]]; rewrite E'.
    + exists true, [], w'. repeat split; auto.
      rewrite O. now rewrite app_nil_r.
    + exists false, [p], (say w' [p]). repeat split; auto.
      * simpl. now rewrite O.
      * right. split; auto. now exists p.
Qed.

(** The bound on the size is needed: at 2^30 the word count [size * 4] wraps
    to 0, the host vector is empty, and the first [readOut[...]] of the scan
    is outside it. *)
Remark Validate_wrapping_size_undefined copy_done map_done w :
  Validate (2 ^ 30) copy_done map_done w = None.
Proof.
  unfold Validate.
  change (2 ^ 30 =? 0) with false. cbv iota.
  change (U32.mul (U32.mul (2 ^ 30) SPLIT_THREADS) 2) with 0.
  change (repeat 0 (Z.to_nat 0)) with (@nil Z).
  unfold CopyAndReadbackSync, bind.
  destruct (CopyBufferSync_spec Err Readback (0 * word_bytes)
              (Z.of_nat (length (@nil Z)) * word_bytes) copy_done w)
    as [w1 [E1 _]].
  rewrite E1.
  destruct (ReadbackSync_spec Readback [] map_done w1) as [w2 [E2 _]].
  rewrite E2.
  replace (if map_succeeds map_done (bufs w1) Readback
                (Z.of_nat (length (@nil Z)) * word_bytes)
           then overwrite [] (slice (buffer (bufs w1) Readback) 0
                                (Z.of_nat (length (@nil Z)) * word_bytes))
           else []) with (@nil Z)
    by (destruct (map_succeeds _ _ _ _); reflexivity).
  unfold Validate_scan.
  destruct (Z.to_nat (2 ^ 30)) as [|n] eqn:E; [lia|].
  reflexivity.
Qed.

(** C5.  For test size 0 validation passes whatever the error buffer holds,
    and the world is left exactly as it was: no copy is submitted, no map is
    requested, nothing is printed. *)
Theorem Validate_size_zero copy_done map_done w :
  Validate 0 copy_done map_done w = Some (true, w).
Proof. reflexivity. Qed.

(** C6.  For a test size S with 0 < S (and S * 4 representable, which every
    accepted test size is), on device memory laid out by [GetGPUBuffers], the
    validator submits one copy of S*2*2 words (S*2*2*4 bytes) from offset 0 of
    the error buffer to the staging buffer and maps the same number of bytes;
    the words it decodes are the first S*2*2 words of the error buffer when
    the map succeeds (zeros otherwise); and its result is that of reading,
    for tile t = 0..S-1 and thread slot k = 0,1 in that order, the error code
    at index t*4 + k*2 and the observed value at index t*4 + k*2 + 1. *)
Theorem Validate_reads_and_decodes_layout S copy_done map_done w :
  0 < S < 2 ^ 30 -> allocated S (bufs w) ->
  exists words w',
    length words = Z.to_nat (S * 2 * 2)
    /\ words = (if ok map_done
                then firstn (Z.to_nat (S * 2 * 2)) (err (bufs w))
                else repeat 0 (Z.to_nat (S * 2 * 2)))
    /\ cmds w'
       = (cmds w
          ++ [Submit [[CopyBufferToBuffer Err 0 Readback 0 (S * 2 * 2 * 4)]];
              OnSubmittedWorkDone;
              MapAsync Readback 0 (S * 2 * 2 * 4)]
          ++ (if ok map_done then [Unmap Readback] else []))%list
    /\ stdout w' = stdout w
    /\ Validate S copy_done map_done w
       = classify_entries words (tile_thread_pairs S) w'.
Proof.
  intros Hs Ha.
  replace (S * 2 * 2) with (S * 4) by lia.
  change (S * 4 * 4) with (S * 4 * word_bytes).
  destruct (ok map_done) eqn:Hok.
  - destruct (Validate_decodes_err S copy_done map_done w Hs Ha Hok)
      as [w' [EV [O [E [A C]]]]].
    exists (err (bufs w)), w'. destruct Ha as [Lr Le].
    repeat split; auto.
    + rewrite <- Le. symmetry. apply firstn_all.
    + rewrite EV. apply Validate_scan_classify. lia.
  - destruct (Validate_decodes_zeros S copy_done map_done w Hs Hok)
      as [w' [EV [O [E [A C]]]]].
    exists (repeat 0 (Z.to_nat (S * 4))), w'.
    repeat split; auto.
    + apply repeat_length.
    + rewrite EV. apply Validate_scan_classify. lia.
Qed.

Lemma Validate_reads_and_decodes_layout_witness :
  (0 < 6 < 2 ^ 30 /\ allocated 6 (bufs (sample_world hazard_at_tile_3)))
  /\ exists words w',
      length words = Z.to_nat (6 * 2 * 2)
      /\ words = (if ok prompt
                  then firstn (Z.to_nat (6 * 2 * 2))
                         (err (bufs (sample_world hazard_at_tile_3)))
                  else repeat 0 (Z.to_nat (6 * 2 * 2)))
      /\ cmds w'
         = (cmds (sample_world hazard_at_tile_3)
            ++ [Submit [[CopyBufferToBuffer Err 0 Readback 0 (6 * 2 * 2 * 4)]];
                OnSubmittedWorkDone;
                MapAsync Readback 0 (6 * 2 * 2 * 4)]
            ++ (if ok prompt then [Unmap Readback] else []))%list
      /\ stdout w' = stdout (sample_world hazard_at_tile_3)
      /\ Validate 6 prompt prompt (sample_world hazard_at_tile_3)
         = classify_entries words (tile_thread_pairs 6) w'.
Proof.
  assert (H1 : 0 < 6 < 2 ^ 30) by lia.
  assert (H2 : allocated 6 (bufs (sample_world hazard_at_tile_3)))
    by (split; reflexivity).
  split; [split; assumption|].
  exact (Validate_reads_and_decodes_layout
           6 prompt prompt (sample_world hazard_at_tile_3) H1 H2).
Defined.

(** Among the entries with a nonzero code there is one that is scanned
    first. *)
Lemma least_below (P : nat -> Prop) (dec : forall n, {P n} + {~ P n}) b :
  (forall j, (j < b)%nat -> ~ P j)
  \/ exists m, (m < b)%nat /\ P m /\ forall j, (j < m)%nat -> ~ P j.
Proof.
  induction b as [|b [IH|IH]].
  - left. intros j Hj. lia.
  - destruct (dec b) as [Hb|Hb].
    + right. exists b. repeat split; auto.
    + left. intros j Hj. destruct (Nat.eq_dec j b) as [->|Hne]; auto.
      apply IH. lia.
  - right. destruct IH as [m [Hm H]]. exists m. split; [lia|exact H].
Qed.

Lemma pair_index t k :
  0 <= k < 2 -> (t * 2 + k) / 2 = t /\ (t * 2 + k) mod 2 = k.
Proof.
  intros Hk.
  pose proof (Z.div_mod (t * 2 + k) 2 ltac:(lia)).
  pose proof (Z.mod_pos_bound (t * 2 + k) 2 ltac:(lia)).
  lia.
Qed.

Lemma scan_dichotomy words size :
  0 <= size -> length words = Z.to_nat (size * 4) ->
  (forall t k, 0 <= t < size -> 0 <= k < 2 -> code_at words t k = Some 0)
  \/ exists t k e g,
      0 <= t < size /\ 0 <= k < 2
      /\ code_at words t k = Some e /\ e <> 0 /\ got_at words t k = Some g
      /\ forall t' k', 0 <= t' -> 0 <= k' < 2 -> scanned_before t' k' t k ->
                       code_at words t' k' = Some 0.
Proof.
  intros Hs L.
  set (P := fun n : nat =>
              code_at words (Z.of_nat n / 2) (Z.of_nat n mod 2) <> Some 0).
  assert (dec : forall n, {P n} + {~ P n}).
  { intros n. unfold P.
    destruct (code_at words (Z.of_nat n / 2) (Z.of_nat n mod 2)) as [c|].
    - destruct (Z.eq_dec c 0) as [->|Hc].
      + right. intros H. now apply H.
      + left. congruence.
    - left. discriminate. }
  assert (zero : forall t k, 0 <= t -> 0 <= k < 2 ->
                             ~ P (Z.to_nat (t * 2 + k)) ->
                             code_at words t k = Some 0).
  { intros t k Ht Hk H. unfold P in H. rewrite Z2Nat.id in H by lia.
    destruct (pair_index t k Hk) as [Hq Hr]. rewrite Hq, Hr in H.
    destruct (code_at words t k) as [c|].
    - destruct (Z.eq_dec c 0) as [->|Hc]; [reflexivity|].
      exfalso. apply H. congruence.
    - exfalso. apply H. discriminate. }
  destruct (least_below P dec (Z.to_nat (size * 2)))
    as [Hnone|[m [Hm [Pm Hleast]]]].
  - left. intros t k Ht Hk. apply zero; try lia. apply Hnone. lia.
  - right.
    set (t := Z.of_nat m / 2) in *. set (k := Z.of_nat m mod 2) in *.
    assert (Hm2 : Z.of_nat m = 2 * t + k) by (apply Z.div_mod; lia).
    assert (Hk : 0 <= k < 2) by (apply Z.mod_pos_bound; lia).
    assert (Ht : 0 <= t < size) by lia.
    destruct (entry_exists words size t k L Ht Hk) as [e [g [He Hg]]].
    exists t, k, e, g. repeat split; try lia; auto.
    + unfold P in Pm. fold t k in Pm. congruence.
    + intros t' k' Ht' Hk' Hb. apply zero; try lia.
      apply Hleast. unfold scanned_before in Hb. lia.
Qed.

Lemma first_failing_entry words size :
  0 <= size -> length words = Z.to_nat (size * 4) ->
  (exists t k, 0 <= t < size /\ 0 <= k < 2 /\ code_at words t k <> Some 0) ->
  exists t k e g,
    0 <= t < size /\ 0 <= k < 2
    /\ code_at words t k = Some e /\ e <> 0 /\ got_at words t k = Some g
    /\ forall t' k', 0 <= t' -> 0 <= k' < 2 -> scanned_before t' k' t k ->
                     code_at words t' k' = Some 0.
Proof.
  intros Hs L [t0 [k0 [Ht0 [Hk0 Hbad]]]].
  destruct (scan_dichotomy words size Hs L) as [Hall|Hfirst].
  - exfalso. apply Hbad. now apply Hall.
  - exact Hfirst.
Qed.

(** What the scan returns and prints is a function of the words alone. *)
Lemma Validate_scan_outcome words size :
  0 <= size < 2 ^ 30 -> length words = Z.to_nat (size * 4) ->
  exists passed out,
    (passed = true /\ out = []
     \/ passed = false /\ exists p, out = [p] /\ blamed p <> None)
    /\ forall w, Validate_scan words size w = Some (passed, say w out).
Proof.
  intros Hs L.
  destruct (scan_dichotomy words size ltac:(lia) L)
    as [Hall|[t [k [e [g [Ht [Hk [He [Hne [Hg Hbefore]]]]]]]]]].
  - exists true, []. split; [now left|]. intros w. rewrite say_nil.
    now apply Validate_scan_all_pass.
  - exists false, [diagnostic e g t k]. split.
    + right. split; [reflexivity|]. eexists. split; [reflexivity|].
      rewrite diagnostic_blamed. discriminate.
    + intros w. now apply Validate_scan_first_failure.
Qed.

Lemma Validate_fails_at_first_failure size copy_done map_done w t k e g :
  0 < size < 2 ^ 30 -> allocated size (bufs w) -> ok map_done = true ->
  0 <= t < size -> 0 <= k < 2 ->
  code_at (err (bufs w)) t k = Some e -> e <> 0 ->
  got_at (err (bufs w)) t k = Some g ->
  (forall t' k', 0 <= t' -> 0 <= k' < 2 -> scanned_before t' k' t k ->
                 code_at (err (bufs w)) t' k' = Some 0) ->
  exists w',
    Validate size copy_done map_done w = Some (false, w')
    /\ stdout w' = (stdout w ++ [diagnostic e g t k])%list.
Proof.
  intros Hs Ha Hok Ht Hk He Hne Hg Hbefore.
  destruct (Validate_decodes_err size copy_done map_done w Hs Ha Hok)
    as [w' [EV [O _]]].
  rewrite EV.
  rewrite (Validate_scan_first_failure (err (bufs w)) size
             ltac:(lia) (proj2 Ha) t k e g w' Ht Hk He Hne Hg Hbefore).
  eexists. split; [reflexivity|]. simpl. now rewrite O.
Qed.

(** C3.  On device memory laid out for the test size and read back
    successfully: when some entry of the error buffer has a nonzero code,
    there is a first such entry (t, k) in the scan order (increasing tile,
    then increasing thread slot); validation returns failure and prints
    exactly one diagnostic, which names tile t and thread slot k; and any
    other error buffer that agrees with this one up to and including that
    entry gives the same failure and the same diagnostic, whatever it holds
    afterwards. *)
Theorem Validate_stops_at_first_failure size copy_done map_done w :
  0 < size < 2 ^ 30 -> allocated size (bufs w) -> ok map_done = true ->
  (exists t k, 0 <= t < size /\ 0 <= k < 2
               /\ code_at (err (bufs w)) t k <> Some 0) ->
  exists t k e g,
    (0 <= t < size /\ 0 <= k < 2
     /\ code_at (err (bufs w)) t k = Some e /\ e <> 0
     /\ got_at (err (bufs w)) t k = Some g
     /\ forall t' k', 0 <= t' -> 0 <= k' < 2 -> scanned_before t' k' t k ->
                      code_at (err (bufs w)) t' k' = Some 0)
    /\ blamed (diagnostic e g t k) = Some (t, k)
    /\ (exists w',
          Validate size copy_done map_done w = Some (false, w')
          /\ stdout w' = (stdout w ++ [diagnostic e g t k])%list)
    /\ (forall w2 copy_done2 map_done2,
          allocated size (bufs w2) -> ok map_done2 = true ->
          (forall i, (i < Z.to_nat (t * 4 + k * 2 + 2))%nat ->
                     nth_error (err (bufs w2)) i
                     = nth_error (err (bufs w)) i) ->
          exists w2',
            Validate size copy_done2 map_done2 w2 = Some (false, w2')
            /\ stdout w2' = (stdout w2 ++ [diagnostic e g t k])%list).
Proof.
  intros Hs Ha Hok Hsome.
  destruct (first_failing_entry (err (bufs w)) size ltac:(lia) (proj2 Ha)
              Hsome) as [t [k [e [g First]]]].
  exists t, k, e, g. split; [exact First|].
  destruct First as [Ht [Hk [He [Hne [Hg Hbefore]]]]].
  split; [apply diagnostic_blamed|]. split.
  - now apply Validate_fails_at_first_failure.
  - intros w2 copy_done2 map_done2 Ha2 Hok2 Hagree.
    apply Validate_fails_at_first_failure; auto.
    + unfold code_at. rewrite Hagree by lia. exact He.
    + unfold got_at. rewrite Hagree by lia. exact Hg.
    + intros t' k' Ht' Hk' Hb. unfold code_at.
      rewrite Hagree by (destruct Hb; lia).
      now apply Hbefore.
Qed.

Lemma Validate_stops_at_first_failure_witness :
  let w := sample_world hazard_at_tiles_3_and_5 in
  exists t k e g,
    (0 <= t < 6 /\ 0 <= k < 2
     /\ code_at (err (bufs w)) t k = Some e /\ e <> 0
     /\ got_at (err (bufs w)) t k = Some g
     /\ forall t' k', 0 <= t' -> 0 <= k' < 2 -> scanned_before t' k' t k ->
                      code_at (err (bufs w)) t' k' = Some 0)
    /\ blamed (diagnostic e g t k) = Some (t, k)
    /\ (exists w',
          Validate 6 prompt prompt w = Some (false, w')
          /\ stdout w' = (stdout w ++ [diagnostic e g t k])%list)
    /\ (forall w2 copy_done2 map_done2,
          allocated 6 (bufs w2) -> ok map_done2 = true ->
          (forall i, (i < Z.to_nat (t * 4 + k * 2 + 2))%nat ->
                     nth_error (err (bufs w2)) i
                     = nth_error (err (bufs w)) i) ->
          exists w2',
            Validate 6 copy_done2 map_done2 w2 = Some (false, w2')
            /\ stdout w2' = (stdout w2 ++ [diagnostic e g t k])%list).
Proof.
  intros w.
  apply (Validate_stops_at_first_failure 6 prompt prompt w).
  - lia.
  - split; reflexivity.
  - reflexivity.
  - exists 5, 1. repeat split; try lia. discriminate.
Defined.

(** The outcome on the two sample buffers: the diagnostic names tile 3 in
    both, whatever tile 5 holds. *)
Example Validate_hazard_at_tile_3 :
  option_map (fun r => (fst r, stdout (snd r)))
             (Validate 6 prompt prompt (sample_world hazard_at_tile_3))
  = Some (false, [MessagePassingError 3 0 0xDEAD 0 0x40000400 0x400 0xFFFF
                                      0x80000000])
  /\ option_map (fun r => (fst r, stdout (snd r)))
                (Validate 6 prompt prompt
                          (sample_world hazard_at_tiles_3_and_5))
     = Some (false, [MessagePassingError 3 0 0xDEAD 0 0x40000400 0x400 0xFFFF
                                         0x80000000]).
Proof. split; vm_compute; reflexivity. Qed.

(** Validation is a function of the test size, the words of the error buffer
    and the status of the map request. *)
Lemma Validate_depends_on_telemetry
      size copy_done1 map_done1 copy_done2 map_done2 w1 w2 :
  0 <= size < 2 ^ 30 ->
  allocated size (bufs w1) -> allocated size (bufs w2) ->
  err (bufs w1) = err (bufs w2) -> ok map_done1 = ok map_done2 ->
  exists passed out w1' w2',
    Validate size copy_done1 map_done1 w1 = Some (passed, w1')
    /\ Validate size copy_done2 map_done2 w2 = Some (passed, w2')
    /\ stdout w1' = (stdout w1 ++ out)%list
    /\ stdout w2' = (stdout w2 ++ out)%list
    /\ err (bufs w1') = err (bufs w1)
    /\ allocated size (bufs w1').
Proof.
  intros Hs Ha1 Ha2 Herr Hok.
  destruct (Z.eq_dec size 0) as [->|Hne].
  { exists true, [], w1, w2. rewrite !app_nil_r. repeat split; auto;
      now destruct Ha1. }
  assert (Hs' : 0 < size < 2 ^ 30) by lia.
  destruct (ok map_done1) eqn:Hok1; symmetry in Hok.
  - destruct (Validate_decodes_err size copy_done1 map_done1 w1 Hs' Ha1 Hok1)
      as [w1' [EV1 [O1 [E1 [A1 _]]]]].
    destruct (Validate_decodes_err size copy_done2 map_done2 w2 Hs' Ha2 Hok)
      as [w2' [EV2 [O2 _]]].
    destruct (Validate_scan_outcome (err (bufs w1)) size Hs (proj2 Ha1))
      as [passed [out [_ Hscan]]].
    exists passed, out, (say w1' out), (say w2' out).
    rewrite EV1, EV2, <- Herr, !Hscan. simpl. rewrite O1, O2.
    repeat split; auto; now destruct A1.
  - destruct (Validate_decodes_zeros size copy_done1 map_done1 w1 Hs' Hok1)
      as [w1' [EV1 [O1 [E1 [A1 _]]]]].
    destruct (Validate_decodes_zeros size copy_done2 map_done2 w2 Hs' Hok)
      as [w2' [EV2 [O2 _]]].
    destruct (Validate_scan_outcome (repeat 0 (Z.to_nat (size * 4))) size Hs
                (repeat_length _ _)) as [passed [out [_ Hscan]]].
    exists passed, out, (say w1' out), (say w2' out).
    rewrite EV1, EV2, !Hscan. simpl. rewrite O1, O2.
    specialize (A1 Ha1).
    repeat split; auto; now destruct A1.
Qed.

(** C7.  Decoding the same telemetry twice classifies it the same way.  On
    device memory laid out for the test size, validation returns a result and
    a diagnostic output that depend only on the test size, on the words of
    the error buffer and on whether the map request succeeds: two worlds
    holding the same error-buffer words give the same pass/fail result and
    print the same diagnostics; and validating again in the world the first
    validation leaves behind gives that result and those diagnostics
    again. *)
Theorem Validate_decoding_is_deterministic
        size copy_done1 map_done1 copy_done2 map_done2 w1 w2 :
  0 <= size < 2 ^ 30 ->
  allocated size (bufs w1) -> allocated size (bufs w2) ->
  err (bufs w1) = err (bufs w2) -> ok map_done1 = ok map_done2 ->
  exists passed out w1' w2' w1'',
    Validate size copy_done1 map_done1 w1 = Some (passed, w1')
    /\ stdout w1' = (stdout w1 ++ out)%list
    /\ Validate size copy_done2 map_done2 w2 = Some (passed, w2')
    /\ stdout w2' = (stdout w2 ++ out)%list
    /\ Validate size copy_done2 map_done2 w1' = Some (passed, w1'')
    /\ stdout w1'' = (stdout w1' ++ out)%list.
Proof.
  intros Hs Ha1 Ha2 Herr Hok.
  destruct (Validate_depends_on_telemetry
              size copy_done1 map_done1 copy_done2 map_done2 w1 w2
              Hs Ha1 Ha2 Herr Hok)
    as [passed [out [w1' [w2' [V1 [V2 [O1 [O2 [E1 A1]]]]]]]]].
  destruct (Validate_depends_on_telemetry
              size copy_done1 map_done1 copy_done2 map_done2 w1 w1'
              Hs Ha1 A1 (eq_sym E1) Hok)
    as [passed' [out' [w1x [w1'' [V1' [V3 [O1' [O3 _]]]]]]]].
  rewrite V1 in V1'. injection V1' as Hp Hw. subst passed' w1x.
  rewrite O1 in O1'. apply app_inv_head in O1'. subst out'.
  exists passed, out, w1', w2', w1''. repeat split; assumption.
Qed.

Lemma Validate_decoding_is_deterministic_witness :
  let w1 := sample_world hazard_at_tiles_3_and_5 in
  let w2 := say (sample_world hazard_at_tiles_3_and_5) [Summary 0 0] in
  exists passed out w1' w2' w1'',
    Validate 6 prompt prompt w1 = Some (passed, w1')
    /\ stdout w1' = (stdout w1 ++ out)%list
    /\ Validate 6 failing prompt w2 = Some (passed, w2')
    /\ stdout w2' = (stdout w2 ++ out)%list
    /\ Validate 6 failing prompt w1' = Some (passed, w1'')
    /\ stdout w1'' = (stdout w1' ++ out)%list.
Proof.
  intros w1 w2.
  apply (Validate_decoding_is_deterministic 6 prompt prompt failing prompt
                                            w1 w2).
  - lia.
  - split; reflexivity.
  - split; reflexivity.
  - reflexivity.
  - reflexivity.
Defined.

(** ** Trials *)

Lemma written_length content old : length (written content old) = length old.
Proof. unfold written. now rewrite length_map, length_seq. Qed.

Lemma RunTrial_spec size te w :
  exists w1,
    RunTrial size te w = Validate size (copy_done te) (map_done te) w1
    /\ stdout w1 = stdout w
    /\ trials_run (cmds w1) = S (trials_run (cmds w))
    /\ (allocated size (bufs w) -> allocated size (bufs w1))
    /\ err (bufs w1) = written (err_after te) (err (bufs w)).
Proof.
  unfold RunTrial, run_kernels, bind, issue, device_memory,
    set_device_memory. simpl.
  match goal with
  | |- context [QueueSync ?d ?w0] =>
      destruct (QueueSync_spec d w0) as [w1 [E [B [O C]]]]
  end.
  rewrite E. exists w1. split; [reflexivity|].
  rewrite B, O, C. simpl. repeat split.
  - unfold trials_run. rewrite !filter_app. simpl.
    rewrite !length_app. simpl. lia.
  - destruct H as [H _]. exact H.
  - destruct H as [_ H]. simpl. now rewrite written_length.
Qed.

Lemma RunTrial_verdict size te w :
  0 <= size < 2 ^ 30 ->
  exists passed out w',
    RunTrial size te w = Some (passed, w')
    /\ stdout w' = (stdout w ++ out)%list
    /\ trials_run (cmds w') = S (trials_run (cmds w))
    /\ (passed = true /\ out = []
        \/ passed = false /\ exists p, out = [p] /\ blamed p <> None).
Proof.
  intros Hs.
  destruct (RunTrial_spec size te w) as [w1 [E [O [T _]]]].
  destruct (Validate_verdict size (copy_done te) (map_done te) w1 Hs)
    as [passed [out [w' [EV [O' [T' V]]]]]].
  exists passed, out, w'. rewrite E. repeat split; auto; congruence.
Qed.

(** C10.  When the map request of a trial's readback fails and the test size
    is positive (and accepted: below 2^30 here), validation passes, because
    the zero-filled host vector is decoded as it was created; the trial
    returns pass, prints no diagnostic, and the loop of [RunTest] adds 1 to
    the count of passed trials, whatever the error buffer holds. *)
Theorem failed_map_counts_as_passed size te w :
  0 < size < 2 ^ 30 -> ok (map_done te) = false ->
  (exists w',
      Validate size (copy_done te) (map_done te) w = Some (true, w')
      /\ stdout w' = stdout w)
  /\ (exists w',
         RunTrial size te w = Some (true, w') /\ stdout w' = stdout w
         /\ forall remaining i env testsPassed,
             env i = te ->
             RunTest_loop (S remaining) i size env testsPassed w
             = RunTest_loop remaining (U32.add i 1) size env
                            (U32.add testsPassed 1) w').
Proof.
  intros Hs Hok.
  assert (V : forall w0, exists w',
               Validate size (copy_done te) (map_done te) w0
               = Some (true, w') /\ stdout w' = stdout w0).
  { intros w0.
    destruct (Validate_decodes_zeros size (copy_done te) (map_done te) w0
                Hs Hok) as [w' [EV [O _]]].
    exists w'. split; [|exact O]. rewrite EV.
    apply Validate_scan_all_pass; try lia.
    - apply repeat_length.
    - intros t k Ht Hk. now apply zeros_code_at. }
  split; [apply V|].
  destruct (RunTrial_spec size te w) as [w1 [E [O _]]].
  destruct (V w1) as [w' [EV O']].
  exists w'. rewrite E. repeat split; [exact EV|congruence|].
  intros remaining i env testsPassed Henv. simpl. unfold bind.
  rewrite Henv, E, EV. reflexivity.
Qed.

Lemma failed_map_counts_as_passed_witness :
  let te := {| scanBump_after := fun _ => 0; scan_after := fun _ => 0;
               err_after := fun _ => 1;
               work_done := prompt; copy_done := prompt;
               map_done := failing |} in
  let w := sample_world hazard_at_tile_3 in
  (exists w',
      Validate 6 (copy_done te) (map_done te) w = Some (true, w')
      /\ stdout w' = stdout w)
  /\ (exists w',
         RunTrial 6 te w = Some (true, w') /\ stdout w' = stdout w
         /\ forall remaining i env testsPassed,
             env i = te ->
             RunTest_loop (S remaining) i 6 env testsPassed w
             = RunTest_loop remaining (U32.add i 1) 6 env
                            (U32.add testsPassed 1) w').
Proof.
  intros te w.
  apply (failed_map_counts_as_passed 6 te w).
  - lia.
  - reflexivity.
Defined.

Lemma RunTest_loop_spec size env remaining :
  0 <= size < 2 ^ 30 ->
  forall i testsPassed w,
    0 <= testsPassed -> testsPassed + Z.of_nat remaining < 2 ^ 32 ->
    exists diags w',
      RunTest_loop remaining i size env testsPassed w
      = Some (testsPassed + Z.of_nat remaining - Z.of_nat (length diags), w')
      /\ stdout w' = (stdout w ++ diags)%list
      /\ (length diags <= remaining)%nat
      /\ Forall (fun p => blamed p <> None) diags
      /\ trials_run (cmds w') = (trials_run (cmds w) + remaining)%nat.
Proof.
  intros Hs. induction remaining as [|remaining IH];
    intros i testsPassed w Hp Hb.
  - exists [], w. simpl. rewrite app_nil_r. repeat split; auto.
    unfold ret. do 2 f_equal. lia.
  - simpl. unfold bind.
    destruct (RunTrial_verdict size (env i) w Hs)
      as [passed [out [w1 [E [O [T V]]]]]].
    rewrite E.
    destruct V as [[-> ->]|[-> [p [-> Hp']]]].
    + rewrite (add_small testsPassed 1) by lia.
      destruct (IH (U32.add i 1) (testsPassed + 1) w1 ltac:(lia) ltac:(lia))
        as [diags [w' [E' [O' [L [F T']]]]]].
      exists diags, w'. rewrite E'. repeat split; auto.
      * do 2 f_equal. lia.
      * rewrite O', O. now rewrite app_nil_r.
      * lia.
    + rewrite (add_small testsPassed 0) by lia.
      destruct (IH (U32.add i 1) (testsPassed + 0) w1 ltac:(lia) ltac:(lia))
        as [diags [w' [E' [O' [L [F T']]]]]].
      exists (p :: diags), w'. rewrite E'. repeat split; auto.
      * do 2 f_equal. simpl length. lia.
      * rewrite O', O. now rewrite <- app_assoc.
      * simpl. lia.
      * lia.
Qed.

Lemma RunTest_spec size batchSize env w :
  0 <= size < 2 ^ 30 -> 0 <= batchSize < 2 ^ 32 ->
  exists passed diags w',
    RunTest size batchSize env w = Some (tt, w')
    /\ stdout w'
       = (stdout w ++ diags
          ++ [Summary passed batchSize; Verdict (passed =? batchSize)])%list
    /\ 0 <= passed <= batchSize
    /\ passed + Z.of_nat (length diags) = batchSize
    /\ Forall (fun p => blamed p <> None) diags
    /\ trials_run (cmds w')
       = (trials_run (cmds w) + Z.to_nat batchSize)%nat.
Proof.
  intros Hs Hb. unfold RunTest, bind.
  destruct (RunTest_loop_spec size env (Z.to_nat batchSize) ltac:(lia)
              0 0 w ltac:(lia) ltac:(lia))
    as [diags [w1 [E [O [L [F T]]]]]].
  rewrite E. rewrite !print_say.
  exists (0 + Z.of_nat (Z.to_nat batchSize) - Z.of_nat (length diags)),
    diags, (say (say w1 [Summary
                           (0 + Z.of_nat (Z.to_nat batchSize)
                            - Z.of_nat (length diags)) batchSize])
                [Verdict (0 + Z.of_nat (Z.to_nat batchSize)
                          - Z.of_nat (length diags) =? batchSize)]).
  split; [reflexivity|]. simpl.
  repeat split; auto; try lia.
  rewrite O. now rewrite <- !app_assoc.
Qed.

(** The batch on the sample device: trial 1 fails, the others pass. *)
Example RunTest_sample :
  option_map (fun r => stdout (snd r))
             (RunTest 2 3 sample_trials stale_world)
  = Some [ShuffleError 1 1 0; Summary 2 3; Verdict false].
Proof. vm_compute. reflexivity. Qed.

(** ** The command line *)

Lemma read_digits_lower s : forall acc count v n,
  0 <= acc -> read_digits s acc count = (v, n) -> acc <= v.
Proof.
  induction s as [|c s IH]; intros acc count v n Hacc E; simpl in E.
  - injection E as <- _. lia.
  - unfold digit_value in E.
    destruct ((48 <=? Z.of_nat (nat_of_ascii c))
              && (Z.of_nat (nat_of_ascii c) <=? 57)) eqn:D.
    + apply andb_prop in D. destruct D as [D1 D2].
      apply Z.leb_le in D1. apply IH in E; lia.
    + injection E as <- _. lia.
Qed.

Lemma strtoul_value_nonneg s : 0 <= value (strtoul s).
Proof.
  unfold strtoul.
  destruct (skip_spaces s 0) as [s1 skipped].
  destruct (match s1 with
            | String c rest =>
                if Ascii.eqb c "-" then (true, rest, 1%nat)
                else if Ascii.eqb c "+" then (false, rest, 1%nat)
                else (false, s1, 0%nat)
            | EmptyString => (false, s1, 0%nat)
            end) as [[negative s2] sign].
  destruct (read_digits s2 0 0) as [magnitude count] eqn:R.
  apply read_digits_lower in R; [|lia].
  destruct (count =? 0)%nat; simpl; [lia|].
  destruct (magnitude >? ULONG_MAX); simpl; [unfold ULONG_MAX; lia|].
  destruct negative; [|lia].
  apply Z.mod_pos_bound. lia.
Qed.

Lemma parse_None_iff s max :
  parse s max = None <-> unparseable s = true \/ exceeds s max = true.
Proof.
  unfold parse, unparseable, exceeds.
  destruct (erange (strtoul s)), (consumed (strtoul s) =? 0)%nat,
    (Ascii.eqb (char_at s (consumed (strtoul s))) zero),
    (value (strtoul s) >? max); simpl; intuition discriminate.
Qed.

Lemma parse_range s max v :
  max < 2 ^ 32 -> parse s max = Some v -> 0 <= v <= max.
Proof.
  intros Hmax. unfold parse.
  destruct (_ || _) eqn:E; [discriminate|].
  intros H. injection H as <-.
  apply orb_false_elim in E. destruct E as [_ E].
  pose proof (strtoul_value_nonneg s).
  rewrite wrap_small by (unfold U32.in_range, U32.modulus; lia). lia.
Qed.

Lemma digit_value_code c d :
  digit_value c = Some d ->
  48 <= Z.of_nat (nat_of_ascii c) <= 57 /\ d = Z.of_nat (nat_of_ascii c) - 48.
Proof.
  unfold digit_value.
  destruct ((48 <=? Z.of_nat (nat_of_ascii c))
            && (Z.of_nat (nat_of_ascii c) <=? 57)) eqn:D; [|discriminate].
  intros H. injection H as <-.
  apply andb_prop in D. destruct D as [D1 D2].
  apply Z.leb_le in D1. apply Z.leb_le in D2. lia.
Qed.

Lemma digit_not_space c d : digit_value c = Some d -> isspace c = false.
Proof.
  intros H. apply digit_value_code in H. destruct H as [H _].
  unfold isspace. apply orb_false_intro.
  - apply Z.eqb_neq. lia.
  - apply andb_false_intro2. apply Z.leb_gt. lia.
Qed.

Lemma digit_not_sign c d :
  digit_value c = Some d ->
  Ascii.eqb c "-" = false /\ Ascii.eqb c "+" = false.
Proof.
  intros H. split.
  - destruct (Ascii.eqb_spec c "-") as [->|]; [discriminate|reflexivity].
  - destruct (Ascii.eqb_spec c "+") as [->|]; [discriminate|reflexivity].
Qed.

Lemma read_digits_decimal s : forall acc count n,
  decimal_digits s acc = Some n ->
  read_digits s acc count = (n, (count + String.length s)%nat).
Proof.
  induction s as [|c s IH]; intros acc count n H; simpl in *.
  - injection H as <-. f_equal. lia.
  - destruct (digit_value c) as [d|]; [|discriminate].
    rewrite (IH _ (S count) _ H). f_equal. lia.
Qed.

Lemma char_at_end s : char_at s (String.length s) = zero.
Proof.
  unfold char_at.
  assert (H : String.get (String.length s) s = None).
  { induction s as [|c s IH]; simpl; auto. }
  now rewrite H.
Qed.

Lemma strtoul_decimal s n :
  decimal_value s = Some n ->
  0 <= n
  /\ strtoul s
     = if n >? ULONG_MAX
       then {| value := ULONG_MAX; consumed := String.length s;
               erange := true |}
       else {| value := n; consumed := String.length s; erange := false |}.
Proof.
  destruct s as [|c s]; [discriminate|]. intros H.
  assert (D : exists d, digit_value c = Some d).
  { simpl in H. destruct (digit_value c) as [d|]; [now exists d|discriminate]. }
  destruct D as [d D].
  pose proof (read_digits_decimal (String c s) 0 0 n H) as R.
  split; [apply (read_digits_lower _ _ _ _ _ (Z.le_refl 0) R)|].
  unfold strtoul.
  assert (S1 : skip_spaces (String c s) 0 = (String c s, 0%nat)).
  { simpl. now rewrite (digit_not_space c d D). }
  rewrite S1.
  destruct (digit_not_sign c d D) as [-> ->].
  rewrite R. simpl Nat.eqb.
  destruct (n >? ULONG_MAX); reflexivity.
Qed.

(** A plain decimal numeral is accepted exactly when the number it denotes
    is at most the bound, and then that number is the result. *)
Lemma parse_decimal s n max :
  0 <= max < 2 ^ 32 -> decimal_value s = Some n ->
  parse s max = if n <=? max then Some n else None.
Proof.
  intros Hmax H. destruct (strtoul_decimal s n H) as [Hn E].
  assert (Hlen : (String.length s =? 0)%nat = false).
  { destruct s; [discriminate|reflexivity]. }
  unfold parse. rewrite E.
  destruct (n >? ULONG_MAX) eqn:Hbig; simpl.
  - destruct (n <=? max) eqn:Hle; [|reflexivity].
    apply Z.leb_le in Hle. unfold ULONG_MAX in Hbig. lia.
  - rewrite Hlen, char_at_end. simpl.
    destruct (n <=? max) eqn:Hle.
    + apply Z.leb_le in Hle.
      assert (G : (n >? max) = false) by lia. rewrite G.
      rewrite wrap_small by (unfold U32.in_range, U32.modulus; lia).
      reflexivity.
    + apply Z.leb_gt in Hle.
      assert (G : (n >? max) = true) by lia. now rewrite G.
Qed.

Example parse_boundaries :
  parse "65535" 65535 = Some 65535 /\ parse "65536" 65535 = None
  /\ parse "1023" 1023 = Some 1023 /\ parse "1024" 1023 = None
  /\ parse "" 1023 = None /\ parse "12x" 1023 = None
  /\ parse "-1" 1023 = None
  /\ parse "99999999999999999999" 65535 = None.
Proof. repeat split; vm_compute; reflexivity. Qed.

(** ** The program *)

Lemma report_messages_total messages w :
  exists w', report_messages messages w = Some (tt, w').
Proof.
  revert w. induction messages as [|[[| |] text] rest IH]; intros w; simpl.
  - now exists w.
  - unfold bind, eprint. apply IH.
  - unfold bind, eprint. apply IH.
  - apply IH.
Qed.

Lemma returns_bind {A B} (c : M A) (k : A -> M B) :
  (forall w, exists a w', c w = Some (a, w')) ->
  (forall a w, exists b w', k a w = Some (b, w')) ->
  forall w, exists b w', bind c k w = Some (b, w').
Proof.
  intros Hc Hk w. unfold bind.
  destruct (Hc w) as [a [w1 E]]. rewrite E. apply Hk.
Qed.

Lemma GetGPUContext_total env w :
  exists w', GetGPUContext env w = Some (tt, w').
Proof.
  assert (H : forall w0, exists (b : unit) w',
                GetGPUContext env w0 = Some (b, w')).
  { unfold GetGPUContext, await.
    repeat (apply returns_bind; [|intros ?]);
      try (intros w0; rewrite pump_polled; eexists; eexists; reflexivity);
      try (intros w0; eexists; eexists; reflexivity);
      try (intros w0; destruct (instance_created env);
           eexists; eexists; reflexivity);
      try (intros w0; destruct (ok (adapter_done env));
           eexists; eexists; reflexivity);
      try (intros w0; destruct (ok (device_done env));
           eexists; eexists; reflexivity). }
  destruct (H w) as [[] [w' E]]. now exists w'.
Qed.

Lemma GetGPUBuffers_total size w :
  exists w', GetGPUBuffers size w = Some (tt, w').
Proof. unfold GetGPUBuffers, bind, issue, set_device_memory. eexists. reflexivity. Qed.

Lemma CreateShaderFromSource_total entryPoint path csLabel env w :
  exists w', CreateShaderFromSource entryPoint path csLabel env w
             = Some (tt, w').
Proof.
  unfold CreateShaderFromSource, ReadWGSL, GetComputeShaderPipeline, await,
    bind, issue, eprint, ret.
  destruct (file_opened env); simpl; rewrite pump_polled;
    match goal with
    | |- context [report_messages ?m ?w0] =>
        destruct (report_messages_total m w0) as [w1 E]; rewrite E
    end; eexists; reflexivity.
Qed.

(** The layout the validator relies on is the one [GetGPUBuffers] creates. *)
Lemma GetGPUBuffers_allocated size w :
  exists w', GetGPUBuffers size w = Some (tt, w') /\ allocated size (bufs w').
Proof.
  unfold GetGPUBuffers, bind, issue, set_device_memory.
  eexists. split; [reflexivity|]. split; simpl; apply repeat_length.
Qed.

Lemma GetAllShaders_total init stress w :
  exists w', GetAllShaders init stress w = Some (tt, w').
Proof.
  unfold GetAllShaders, bind.
  destruct (CreateShaderFromSource_total "main" "Shaders/init.wgsl" "Init"
              init w) as [w1 E1].
  rewrite E1. apply CreateShaderFromSource_total.
Qed.

Lemma InitializeUniforms_total size done w :
  exists w', InitializeUniforms size done w = Some (tt, w').
Proof.
  unfold InitializeUniforms, device_write, bind, issue, device_memory,
    set_device_memory, eprint.
  simpl. destruct (range_ok _ _ _); simpl;
  match goal with
  | |- context [QueueSync ?d ?w0] =>
      destruct (QueueSync_spec d w0) as [w1 [E _]]
  end; exists w1; exact E.
Qed.

(** Once both arguments are accepted the program runs the batch and returns
    [EXIT_SUCCESS], whatever the device answers. *)
Lemma main_accepted argv0 arg1 arg2 size batchSize env w :
  parse arg1 65535 = Some size -> parse arg2 1023 = Some batchSize ->
  exists passed w',
    main [argv0; arg1; arg2] env w = Some (EXIT_SUCCESS, w')
    /\ 0 <= passed <= batchSize
    /\ exists printed,
        stdout w'
        = (printed ++ [Summary passed batchSize;
                       Verdict (passed =? batchSize)])%list.
Proof.
  intros P1 P2. unfold main. rewrite P1, P2.
  apply parse_range in P1; [|lia]. apply parse_range in P2; [|lia].
  unfold bind.
  destruct (GetGPUContext_total (session env) w) as [w1 E1]. rewrite E1.
  destruct (GetGPUBuffers_total size w1) as [w2 E2]. rewrite E2.
  destruct (GetAllShaders_total (init_shader env) (stress_shader env) w2)
    as [w3 E3]. rewrite E3.
  destruct (InitializeUniforms_total size (uniforms_done env) w3)
    as [w4 E4]. rewrite E4.
  destruct (RunTest_spec size batchSize (trial env) w4 ltac:(lia) ltac:(lia))
    as [passed [diags [w5 [E5 [O5 [Hp _]]]]]].
  rewrite E5. exists passed, w5. split; [reflexivity|]. split; [exact Hp|].
  exists (stdout w4 ++ diags)%list. rewrite O5. now rewrite app_assoc.
Qed.

Lemma bad_three argv0 arg1 arg2 :
  bad_command_line [argv0; arg1; arg2] = true
  <-> parse arg1 65535 = None \/ parse arg2 1023 = None.
Proof.
  rewrite !parse_None_iff. unfold bad_command_line.
  rewrite !orb_true_iff. tauto.
Qed.

Lemma main_rejected line w :
  (eprint line ;; ret EXIT_FAILURE) w = Some (EXIT_FAILURE, complain w line).
Proof. reflexivity. Qed.

(** C4.  For a command line with a program name: when the argument count is
    wrong, an argument is unparseable, the test size exceeds 65535 or the
    trial count exceeds 1023, the program writes one line to standard error
    and returns the failure status, having issued no device command, printed
    nothing and left device memory alone; otherwise it returns the success
    status whatever the device answers, so however many trials fail
    validation.  For arguments that are plain decimal numerals the rejected
    command lines are exactly those whose test size is above 65535 or whose
    trial count is above 1023. *)
Theorem main_exit_status argv env w :
  argv <> [] ->
  (bad_command_line argv = true ->
   exists line, main argv env w = Some (EXIT_FAILURE, complain w line))
  /\ (bad_command_line argv = false ->
      exists w', main argv env w = Some (EXIT_SUCCESS, w'))
  /\ (forall argv0 arg1 arg2 n1 n2,
         argv = [argv0; arg1; arg2] ->
         decimal_value arg1 = Some n1 -> decimal_value arg2 = Some n2 ->
         (bad_command_line argv = true <-> 65535 < n1 \/ 1023 < n2)).
Proof.
  intros Hne.
  destruct argv as [|argv0 [|arg1 [|arg2 [|arg3 rest]]]];
    try contradiction.
  - split; [|split]; try discriminate. intros _. eexists. apply main_rejected.
  - split; [|split]; try discriminate. intros _. eexists. apply main_rejected.
  - split; [|split].
    + intros Hbad. apply bad_three in Hbad. unfold main.
      destruct (parse arg1 65535) as [size|];
        [|eexists; apply main_rejected].
      destruct (parse arg2 1023) as [batchSize|];
        [|eexists; apply main_rejected].
      destruct Hbad; discriminate.
    + intros Hgood.
      destruct (parse arg1 65535) as [size|] eqn:P1.
      * destruct (parse arg2 1023) as [batchSize|] eqn:P2.
        -- destruct (main_accepted argv0 arg1 arg2 size batchSize env w P1 P2)
             as [passed [w' [E _]]].
           now exists w'.
        -- assert (B : bad_command_line [argv0; arg1; arg2] = true)
             by (apply bad_three; now right).
           congruence.
      * assert (B : bad_command_line [argv0; arg1; arg2] = true)
          by (apply bad_three; now left).
        congruence.
    + intros a0 a1 a2 n1 n2 E D1 D2. injection E as -> -> ->.
      rewrite bad_three.
      rewrite (parse_decimal a1 n1 65535 ltac:(lia) D1).
      rewrite (parse_decimal a2 n2 1023 ltac:(lia) D2).
      destruct (n1 <=? 65535) eqn:L1; destruct (n2 <=? 1023) eqn:L2;
        try apply Z.leb_le in L1; try apply Z.leb_gt in L1;
        try apply Z.leb_le in L2; try apply Z.leb_gt in L2;
        split; intros H; try (destruct H; discriminate || lia);
        auto.
  - split; [|split]; try discriminate. intros _. eexists. apply main_rejected.
Qed.

Lemma main_exit_status_witness :
  (exists line,
      main ["scan"; "65536"; "4"] sample_env initial_world
      = Some (EXIT_FAILURE, complain initial_world line))
  /\ (exists w',
         main ["scan"; "2"; "3"] sample_env initial_world
         = Some (EXIT_SUCCESS, w'))
  /\ (bad_command_line ["scan"; "2"; "1024"] = true <-> 65535 < 2 \/ 1023 < 1024).
Proof.
  assert (N : forall a b c : string, [a; b; c] <> []) by discriminate.
  split; [|split].
  - apply (proj1 (main_exit_status ["scan"; "65536"; "4"] sample_env
                                   initial_world (N _ _ _))).
    reflexivity.
  - apply (proj1 (proj2 (main_exit_status ["scan"; "2"; "3"] sample_env
                                          initial_world (N _ _ _)))).
    reflexivity.
  - apply (proj2 (proj2 (main_exit_status ["scan"; "2"; "1024"] sample_env
                                          initial_world (N _ _ _)))
             "scan" "2" "1024" 2 1024); reflexivity.
Defined.

(** The program on the sample device: a size above the bound is refused
    before any device command; an accepted command line ends with the success
    status although trial 1 fails. *)
Example main_sample_runs :
  main ["scan"; "65536"; "4"] sample_env initial_world
  = Some (EXIT_FAILURE,
          complain initial_world
            ("Expected uint32_t less than 65536 for maximum test size."
             ++ nl)%string)
  /\ option_map (fun r => (fst r, stdout (snd r)))
                (main ["scan"; "2"; "3"] sample_env initial_world)
     = Some (EXIT_SUCCESS,
             [Cout ("VendorID: 106b" ++ nl)%string;
              Cout ("Vendor: apple" ++ nl)%string;
              Cout ("Architecture: common-3" ++ nl)%string;
              Cout ("DeviceID: 0" ++ nl)%string;
              Cout ("Name: Apple M1" ++ nl)%string;
              Cout ("Driver description: Metal driver" ++ nl)%string;
              ShuffleError 1 1 0; Summary 2 3; Verdict false]).
Proof. split; vm_compute; reflexivity. Qed.

(** The characters of the final line of a unanimous batch and of a failed
    one. *)
Example render_summary :
  (render (Summary 4 4) ++ render (Verdict true))%string
  = ("4 / 4 ALL TESTS PASSED" ++ nl)%string
  /\ (render (Summary 3 4) ++ render (Verdict false))%string
     = "3 / 4 TEST FAILED".
Proof. split; reflexivity. Qed.

(** * Further properties *)

(** ** [parse] and the shapes of argument it accepts *)

(** X1.  A plain decimal numeral is accepted exactly when the number it
    denotes is at most the bound, and the result is then that number. *)
Theorem parse_numeral_accepted_iff_within_bound s n max :
  0 <= max < 2 ^ 32 -> decimal_value s = Some n ->
  parse s max = if n <=? max then Some n else None.
Proof. intros Hmax H. now apply parse_decimal. Qed.

Lemma parse_numeral_accepted_iff_within_bound_witness :
  parse "65535" 65535 = (if 65535 <=? 65535 then Some 65535 else None)
  /\ parse "65536" 65535 = (if 65536 <=? 65535 then Some 65536 else None).
Proof.
  split.
  - apply (parse_numeral_accepted_iff_within_bound "65535" 65535 65535);
      [lia|reflexivity].
  - apply (parse_numeral_accepted_iff_within_bound "65536" 65536 65535);
      [lia|reflexivity].
Defined.

(** X2.  Whatever the argument, a value [parse] accepts lies between 0 and
    the bound, so the narrowing to [uint32_t] loses nothing. *)
Theorem parse_result_within_bound s max v :
  max < 2 ^ 32 -> parse s max = Some v ->
  0 <= v <= max /\ v = value (strtoul s).
Proof.
  intros Hmax H. pose proof (parse_range s max v Hmax H) as R.
  split; [exact R|].
  unfold parse in H. destruct (_ || _) eqn:E; [discriminate|].
  injection H as <-.
  apply orb_false_elim in E. destruct E as [_ E].
  pose proof (strtoul_value_nonneg s).
  apply wrap_small. unfold U32.in_range, U32.modulus. lia.
Qed.

Lemma parse_result_within_bound_witness :
  0 <= 12 <= 1023 /\ 12 = value (strtoul " +12").
Proof.
  apply (parse_result_within_bound " +12" 1023 12); [lia|reflexivity].
Defined.

Lemma skip_spaces_shift s : forall k,
  skip_spaces s (S k)
  = (fst (skip_spaces s k), S (snd (skip_spaces s k))).
Proof.
  induction s as [|c s IH]; intros k; simpl.
  - reflexivity.
  - destruct (isspace c); [apply IH|reflexivity].
Qed.

Lemma strtoul_leading_space c s :
  isspace c = true ->
  value (strtoul (String c s)) = value (strtoul s)
  /\ erange (strtoul (String c s)) = erange (strtoul s)
  /\ consumed (strtoul (String c s))
     = match consumed (strtoul s) with
       | O => O
       | S n => S (S n)
       end.
Proof.
  intros Hc. unfold strtoul. simpl skip_spaces. rewrite Hc.
  rewrite skip_spaces_shift.
  destruct (skip_spaces s 0) as [s1 skipped]. simpl fst. simpl snd.
  destruct (match s1 with
            | String c0 rest =>
                if Ascii.eqb c0 "-" then (true, rest, 1%nat)
                else if Ascii.eqb c0 "+" then (false, rest, 1%nat)
                else (false, s1, 0%nat)
            | EmptyString => (false, s1, 0%nat)
            end) as [[negative s2] sign].
  destruct (read_digits s2 0 0) as [magnitude count].
  destruct (count =? 0)%nat eqn:Ec; [simpl; auto|].
  apply Nat.eqb_neq in Ec.
  destruct (magnitude >? ULONG_MAX); simpl; repeat split;
    destruct (skipped + sign + count)%nat eqn:E; auto; lia.
Qed.

(** X3.  Leading white space does not matter: an argument with one more
    white-space character in front is accepted or rejected alike, with the
    same value. *)
Theorem parse_ignores_leading_space c s max :
  isspace c = true -> parse (String c s) max = parse s max.
Proof.
  intros Hc.
  destruct (strtoul_leading_space c s Hc) as [Hv [He Hn]].
  unfold parse. rewrite Hv, He, Hn.
  destruct (consumed (strtoul s)) as [|n]; [|reflexivity].
  simpl Nat.eqb. now rewrite !orb_true_r.
Qed.

Lemma parse_ignores_leading_space_witness :
  parse (String " " "1023") 1023 = parse "1023" 1023.
Proof.
  apply (parse_ignores_leading_space " " "1023" 1023). reflexivity.
Defined.

Lemma strtoul_signed c d n :
  c = "-"%char \/ c = "+"%char -> decimal_value d = Some n ->
  0 <= n
  /\ strtoul (String c d)
     = if n >? ULONG_MAX
       then {| value := ULONG_MAX; consumed := S (String.length d);
               erange := true |}
       else {| value := if Ascii.eqb c "-" then (- n) mod 2 ^ 64 else n;
               consumed := S (String.length d); erange := false |}.
Proof.
  intros Hc H.
  assert (Hd : decimal_digits d 0 = Some n /\ (String.length d =? 0)%nat = false).
  { destruct d; [discriminate|]. split; [exact H|reflexivity]. }
  destruct Hd as [Hd Hlen].
  pose proof (read_digits_decimal d 0 0 n Hd) as R.
  split; [apply (read_digits_lower _ _ _ _ _ (Z.le_refl 0) R)|].
  unfold strtoul.
  assert (S1 : skip_spaces (String c d) 0 = (String c d, 0%nat))
    by (destruct Hc as [-> | ->]; reflexivity).
  rewrite S1.
  destruct Hc as [-> | ->]; simpl Ascii.eqb; cbv iota; rewrite R;
    simpl Nat.add; rewrite Hlen; destruct (n >? ULONG_MAX); reflexivity.
Qed.

(** X4.  A plus sign in front of a plain decimal numeral changes nothing. *)
Theorem parse_accepts_plus_sign d n max :
  0 <= max < 2 ^ 32 -> decimal_value d = Some n ->
  parse (String "+" d) max = parse d max.
Proof.
  intros Hmax H.
  rewrite (parse_decimal d n max Hmax H).
  destruct (strtoul_signed "+" d n (or_intror eq_refl) H) as [Hn E].
  unfold parse. rewrite E.
  destruct (n >? ULONG_MAX) eqn:Hbig; simpl.
  - destruct (n <=? max) eqn:Hle; [|reflexivity].
    apply Z.leb_le in Hle. unfold ULONG_MAX in Hbig. lia.
  - pose proof (char_at_end (String "+" d)) as Hend. simpl String.length in Hend.
    rewrite Hend. simpl.
    destruct (n <=? max) eqn:Hle.
    + apply Z.leb_le in Hle.
      assert (G : (n >? max) = false) by lia. rewrite G.
      rewrite wrap_small by (unfold U32.in_range, U32.modulus; lia).
      reflexivity.
    + apply Z.leb_gt in Hle.
      assert (G : (n >? max) = true) by lia. now rewrite G.
Qed.

Lemma parse_accepts_plus_sign_witness :
  parse (String "+" "512") 1023 = parse "512" 1023.
Proof.
  apply (parse_accepts_plus_sign "512" 512 1023); [lia|reflexivity].
Defined.

(** X5.  A minus sign in front of a plain decimal numeral does not by itself
    cause rejection: [strtoul] negates in [unsigned long].  The argument is
    accepted as 0 when the numeral denotes 0, and as 2^64 - n when the
    numeral denotes an n with 2^64 - max <= n < 2^64; every other negative
    numeral is rejected. *)
Theorem parse_minus_sign_wraps d n max :
  0 <= max < 2 ^ 32 -> decimal_value d = Some n ->
  parse (String "-" d) max
  = if n =? 0 then Some 0
    else if (n <=? ULONG_MAX) && (2 ^ 64 - n <=? max) then Some (2 ^ 64 - n)
    else None.
Proof.
  intros Hmax H.
  destruct (strtoul_signed "-" d n (or_introl eq_refl) H) as [Hn E].
  rewrite Ascii.eqb_refl in E.
  unfold parse. rewrite E.
  pose proof (char_at_end (String "-" d)) as Hend.
  change (String.length (String "-" d)) with (S (String.length d)) in Hend.
  destruct (n >? ULONG_MAX) eqn:Hbig; cbn [value consumed erange orb].
  - assert (G0 : (n =? 0) = false) by (unfold ULONG_MAX in Hbig; lia).
    assert (G1 : (n <=? ULONG_MAX) = false) by lia.
    now rewrite G0, G1.
  - rewrite Hend, Ascii.eqb_refl.
    change (S (String.length d) =? 0)%nat with false.
    cbn [orb negb].
    assert (G1 : (n <=? ULONG_MAX) = true) by lia. rewrite G1.
    cbn [andb]. unfold ULONG_MAX in Hbig.
    destruct (n =? 0) eqn:Hz.
    + apply Z.eqb_eq in Hz. subst n.
      change (- 0) with 0. rewrite Z.mod_0_l by lia.
      assert (G : (0 >? max) = false) by lia. rewrite G.
      now rewrite wrap_small by (unfold U32.in_range, U32.modulus; lia).
    + apply Z.eqb_neq in Hz.
      assert (Hv : (- n) mod 2 ^ 64 = 2 ^ 64 - n).
      { unfold ULONG_MAX in Hbig.
        symmetry. apply Z.mod_unique with (-1); lia. }
      rewrite Hv.
      destruct (2 ^ 64 - n <=? max) eqn:Hle.
      * apply Z.leb_le in Hle.
        assert (G : (2 ^ 64 - n >? max) = false) by lia. rewrite G.
        rewrite wrap_small by (unfold U32.in_range, U32.modulus; lia).
        reflexivity.
      * apply Z.leb_gt in Hle.
        assert (G : (2 ^ 64 - n >? max) = true) by lia. now rewrite G.
Qed.

Lemma parse_minus_sign_wraps_witness :
  parse (String "-" "18446744073709551615") 65535
  = (if 18446744073709551615 =? 0 then Some 0
     else if (18446744073709551615 <=? ULONG_MAX)
             && (2 ^ 64 - 18446744073709551615 <=? 65535)
          then Some (2 ^ 64 - 18446744073709551615)
          else None).
Proof.
  apply (parse_minus_sign_wraps "18446744073709551615"
                                18446744073709551615 65535);
    [lia|reflexivity].
Defined.

Example parse_negative_numerals :
  parse "-1" 65535 = None /\ parse "-0" 65535 = Some 0
  /\ parse "-18446744073709551615" 65535 = Some 1.
Proof. repeat split; vm_compute; reflexivity. Qed.

Lemma read_digits_stops d : forall acc count n c rest,
  decimal_digits d acc = Some n -> digit_value c = None ->
  read_digits (d ++ String c rest) acc count
  = (n, (count + String.length d)%nat).
Proof.
  induction d as [|c0 d IH]; intros acc count n c rest H Hc; simpl in *.
  - rewrite Hc. injection H as <-. f_equal. lia.
  - destruct (digit_value c0) as [v|]; [|discriminate].
    rewrite (IH _ (S count) _ _ _ H Hc). f_equal. lia.
Qed.

Lemma char_at_append d c rest :
  char_at (d ++ String c rest) (String.length d) = c.
Proof.
  unfold char_at. induction d as [|c0 d IH]; simpl; auto.
Qed.

(** X6.  Anything but the end of the argument after the digits causes
    rejection: a plain decimal numeral followed by a character that is
    neither a digit nor NUL is refused, whatever comes after and however
    small the number. *)
Theorem parse_rejects_trailing_characters d n c rest max :
  decimal_value d = Some n -> digit_value c = None -> c <> zero ->
  parse (d ++ String c rest) max = None.
Proof.
  intros H Hc Hz.
  destruct d as [|c0 d]; [discriminate|].
  assert (D : exists v, digit_value c0 = Some v).
  { simpl in H. destruct (digit_value c0) as [v|]; [now exists v|discriminate]. }
  destruct D as [v D].
  pose proof (read_digits_stops (String c0 d) 0 0 n c rest H Hc) as R.
  assert (E : consumed (strtoul (String c0 d ++ String c rest))
              = String.length (String c0 d)).
  { unfold strtoul.
    assert (S1 : skip_spaces (String c0 d ++ String c rest) 0
                 = (String c0 d ++ String c rest, 0%nat)).
    { simpl. now rewrite (digit_not_space c0 v D). }
    rewrite S1. simpl append.
    destruct (digit_not_sign c0 v D) as [-> ->].
    simpl append in R. rewrite R.
    simpl Nat.eqb. destruct (n >? ULONG_MAX); reflexivity. }
  unfold parse. rewrite E, char_at_append.
  assert (Hneq : Ascii.eqb c zero = false).
  { destruct (Ascii.eqb_spec c zero); [contradiction|reflexivity]. }
  rewrite Hneq. simpl. now rewrite orb_true_r.
Qed.

Lemma parse_rejects_trailing_characters_witness :
  parse ("12" ++ String "x" "") 65535 = None.
Proof.
  apply (parse_rejects_trailing_characters "12" 12 "x" "" 65535);
    [reflexivity|reflexivity|discriminate].
Defined.

(** ** What validation returns, prints and touches *)

Lemma CheckError_outcome errCode got tile_id tid w :
  CheckError errCode got tile_id tid w
  = Some (errCode =? 0,
          if errCode =? 0 then w
          else say w [diagnostic errCode got tile_id tid]).
Proof.
  destruct (errCode =? 0) eqn:E.
  - apply Z.eqb_eq in E. subst errCode. apply CheckError_zero.
  - apply Z.eqb_neq in E. now apply CheckError_nonzero.
Qed.

Lemma pairs_in_range size t k :
  In (t, k) (tile_thread_pairs size) -> 0 <= t < size /\ 0 <= k < 2.
Proof.
  unfold tile_thread_pairs. intros H. apply in_flat_map in H.
  destruct H as [n [Hn H]]. apply in_seq in Hn.
  destruct H as [H|[H|[]]]; injection H as <- <-; lia.
Qed.

Lemma classify_entries_first_hazard words size pairs w :
  length words = Z.to_nat (size * 4) ->
  (forall t k, In (t, k) pairs -> 0 <= t < size /\ 0 <= k < 2) ->
  classify_entries words pairs w
  = Some (is_none (first_hazard words pairs),
          say w (as_list (first_hazard words pairs))).
Proof.
  intros L. induction pairs as [|[t k] rest IH]; intros Hin.
  - simpl. now rewrite say_nil.
  - destruct (Hin t k (or_introl eq_refl)) as [Ht Hk].
    destruct (entry_exists words size t k L Ht Hk) as [e [g [He Hg]]].
    simpl. unfold bind, classify_entry. rewrite He, Hg.
    rewrite CheckError_outcome.
    destruct (e =? 0).
    + apply IH. intros t' k' H. apply Hin. now right.
    + reflexivity.
Qed.

Lemma Validate_exact size copy_done map_done w :
  0 < size < 2 ^ 30 -> allocated size (bufs w) ->
  let report :=
    if ok map_done
    then first_hazard (err (bufs w)) (tile_thread_pairs size)
    else None in
  exists w',
    Validate size copy_done map_done w = Some (is_none report, w')
    /\ stdout w' = (stdout w ++ as_list report)%list
    /\ cmds w'
       = (cmds w
          ++ [Submit [[CopyBufferToBuffer Err 0 Readback 0
                                          (size * 4 * word_bytes)]];
              OnSubmittedWorkDone;
              MapAsync Readback 0 (size * 4 * word_bytes)]
          ++ (if ok map_done then [Unmap Readback] else []))%list
    /\ bufs w' = set_buffer (bufs w) Readback (err (bufs w)).
Proof.
  intros Hs Ha report. destruct Ha as [Lr Le]. unfold Validate.
  destruct (size =? 0) eqn:E; [apply Z.eqb_eq in E; lia|].
  rewrite size_words by lia.
  set (zeros := repeat 0 (Z.to_nat (size * 4))).
  set (bytes := size * 4 * word_bytes).
  assert (Lz : Z.of_nat (length zeros) = size * 4).
  { subst zeros. rewrite repeat_length. lia. }
  assert (Hb : bytes = Z.of_nat (length (err (bufs w))) * word_bytes).
  { subst bytes. rewrite Le. f_equal. lia. }
  assert (Hb' : bytes = Z.of_nat (length (readback (bufs w))) * word_bytes).
  { subst bytes. rewrite Lr. f_equal. lia. }
  unfold CopyAndReadbackSync, bind. rewrite Lz. fold bytes.
  destruct (CopyBufferSync_spec Err Readback (0 * word_bytes) bytes
              copy_done w) as [w1 [E1 [O1 [C1 B1]]]].
  rewrite E1.
  assert (B1' : bufs w1 = set_buffer (bufs w) Readback (err (bufs w))).
  { rewrite B1. simpl buffer. simpl Z.mul.
    rewrite Hb at 1. rewrite range_ok_whole.
    rewrite Hb' at 1. rewrite range_ok_whole. simpl andb. cbv iota.
    rewrite Hb, slice_whole.
    rewrite overwrite_same_length by congruence. reflexivity. }
  pose proof (ReadbackSync_spec Readback zeros map_done w1) as R.
  rewrite Lz in R. fold bytes in R. cbv zeta in R.
  destruct R as [w2 [E2 [B2 [O2 [_ C2]]]]].
  rewrite E2.
  assert (Hm : map_succeeds map_done (bufs w1) Readback bytes = ok map_done).
  { unfold map_succeeds. rewrite B1'. simpl buffer.
    rewrite Hb, range_ok_whole. apply andb_true_r. }
  rewrite Hm in C2 |- *.
  subst report. destruct (ok map_done).
  - rewrite B1'. simpl buffer. rewrite Hb, slice_whole.
    rewrite overwrite_same_length
      by (subst zeros; rewrite repeat_length; congruence).
    rewrite Validate_scan_classify by lia.
    rewrite (classify_entries_first_hazard (err (bufs w)) size
               (tile_thread_pairs size) w2 Le (pairs_in_range size)).
    eexists. split; [reflexivity|]. simpl.
    rewrite O2, O1, C2, C1, B2, B1', <- app_assoc, <- Hb. repeat split.
  - rewrite (Validate_scan_all_pass zeros size ltac:(lia)
               (repeat_length _ _) w2)
      by (intros t k Ht Hk; now apply zeros_code_at).
    exists w2. split; [reflexivity|]. simpl.
    rewrite O2, O1, C2, C1, B2, B1', <- app_assoc, app_nil_r.
    repeat split.
Qed.

(** X7.  On device memory laid out for the test size and read back
    successfully, validation passes exactly when every entry of the error
    buffer, for tile 0..size-1 and thread slot 0..1, has error code 0; the
    observed values play no part. *)
Theorem Validate_passes_iff_all_codes_zero size copy_done map_done w :
  0 < size < 2 ^ 30 -> allocated size (bufs w) -> ok map_done = true ->
  exists passed w',
    Validate size copy_done map_done w = Some (passed, w')
    /\ (passed = true
        <-> forall t k, 0 <= t < size -> 0 <= k < 2 ->
                        code_at (err (bufs w)) t k = Some 0).
Proof.
  intros Hs Ha Hok.
  destruct (Validate_decodes_err size copy_done map_done w Hs Ha Hok)
    as [w' [EV _]].
  rewrite EV.
  destruct (scan_dichotomy (err (bufs w)) size ltac:(lia) (proj2 Ha))
    as [Hall|[t [k [e [g [Ht [Hk [He [Hne [Hg Hbefore]]]]]]]]]].
  - exists true, w'. split.
    + apply Validate_scan_all_pass; try lia; [apply Ha|exact Hall].
    + split; auto.
  - exists false, (say w' [diagnostic e g t k]). split.
    + apply Validate_scan_first_failure; try lia; auto. apply Ha.
    + split; [discriminate|].
      intros Hall. specialize (Hall t k Ht Hk). congruence.
Qed.

Lemma Validate_passes_iff_all_codes_zero_witness :
  exists passed w',
    Validate 6 prompt prompt (sample_world hazard_at_tile_3)
    = Some (passed, w')
    /\ (passed = true
        <-> forall t k, 0 <= t < 6 -> 0 <= k < 2 ->
                        code_at (err (bufs (sample_world hazard_at_tile_3)))
                                t k = Some 0).
Proof.
  apply (Validate_passes_iff_all_codes_zero
           6 prompt prompt (sample_world hazard_at_tile_3)).
  - lia.
  - split; reflexivity.
  - reflexivity.
Defined.

(** X8.  Validation changes device memory in one way only: afterwards the
    staging buffer holds a copy of the error buffer.  The error buffer
    itself, the parameters, the bump counter and the scan buffer are as
    before, whether the map request succeeds or not. *)
Theorem Validate_only_writes_staging size copy_done map_done w :
  0 < size < 2 ^ 30 -> allocated size (bufs w) ->
  exists passed w',
    Validate size copy_done map_done w = Some (passed, w')
    /\ readback (bufs w') = err (bufs w)
    /\ err (bufs w') = err (bufs w)
    /\ info (bufs w') = info (bufs w)
    /\ scanBump (bufs w') = scanBump (bufs w)
    /\ scan (bufs w') = scan (bufs w).
Proof.
  intros Hs Ha.
  destruct (Validate_exact size copy_done map_done w Hs Ha)
    as [w' [EV [_ [_ B]]]].
  eexists. exists w'. split; [exact EV|].
  rewrite B. repeat split.
Qed.

Lemma Validate_only_writes_staging_witness :
  exists passed w',
    Validate 6 prompt failing (sample_world hazard_at_tile_3)
    = Some (passed, w')
    /\ readback (bufs w') = err (bufs (sample_world hazard_at_tile_3))
    /\ err (bufs w') = err (bufs (sample_world hazard_at_tile_3))
    /\ info (bufs w') = info (bufs (sample_world hazard_at_tile_3))
    /\ scanBump (bufs w') = scanBump (bufs (sample_world hazard_at_tile_3))
    /\ scan (bufs w') = scan (bufs (sample_world hazard_at_tile_3)).
Proof.
  apply (Validate_only_writes_staging
           6 prompt failing (sample_world hazard_at_tile_3)).
  - lia.
  - split; reflexivity.
Defined.

(** ** The batch, trial by trial *)

Lemma telemetry_written size te old :
  length old = Z.to_nat (size * 4) ->
  written (err_after te) old = telemetry size te.
Proof. intros L. unfold written, telemetry. now rewrite L. Qed.

Lemma RunTrial_exact size te w :
  0 <= size < 2 ^ 30 -> allocated size (bufs w) ->
  exists w',
    RunTrial size te w = Some (is_none (trial_report size te), w')
    /\ stdout w' = (stdout w ++ as_list (trial_report size te))%list
    /\ cmds w' = (cmds w ++ trial_commands size te)%list
    /\ allocated size (bufs w')
    /\ err (bufs w') = telemetry size te.
Proof.
  intros Hs Ha. unfold RunTrial, run_kernels, bind, issue, device_memory,
    set_device_memory. simpl.
  match goal with
  | |- context [QueueSync ?d ?w0] =>
      destruct (QueueSync_spec d w0) as [w1 [E [B [O C]]]]
  end.
  rewrite E. simpl in B, O, C.
  assert (Ha1 : allocated size (bufs w1)).
  { rewrite B. destruct Ha as [Lr Le]. split; simpl; auto.
    now rewrite written_length. }
  assert (He1 : err (bufs w1) = telemetry size te).
  { rewrite B. simpl. apply telemetry_written. apply Ha. }
  unfold trial_report, trial_commands.
  destruct (Z.eq_dec size 0) as [->|Hne].
  - simpl. exists w1. rewrite O, C, app_nil_r, <- app_assoc.
    repeat split; auto; apply Ha1.
  - destruct (size =? 0) eqn:Ez; [apply Z.eqb_eq in Ez; contradiction|].
    destruct (Validate_exact size (copy_done te) (map_done te) w1
                ltac:(lia) Ha1) as [w' [EV [O' [C' B']]]].
    rewrite He1 in EV, O', B'. simpl orb.
    assert (R : (if ok (map_done te)
                 then first_hazard (telemetry size te)
                                   (tile_thread_pairs size)
                 else None)
                = (if negb (ok (map_done te)) then None
                   else first_hazard (telemetry size te)
                                     (tile_thread_pairs size)))
      by (destruct (ok (map_done te)); reflexivity).
    rewrite R in EV, O'.
    exists w'. split; [exact EV|].
    rewrite O', O, C', C, B'. rewrite <- !app_assoc.
    repeat split; simpl; try apply Ha1.
    + unfold telemetry. now rewrite length_map, length_seq.
    + exact He1.
Qed.

Lemma RunTest_loop_exact size env remaining :
  0 <= size < 2 ^ 30 ->
  forall first testsPassed w,
    allocated size (bufs w) ->
    Z.of_nat first + Z.of_nat remaining < 2 ^ 32 ->
    0 <= testsPassed -> testsPassed + Z.of_nat remaining < 2 ^ 32 ->
    exists w',
      RunTest_loop remaining (Z.of_nat first) size env testsPassed w
      = Some (testsPassed
              + batch_passed size (trials_of env first remaining), w')
      /\ stdout w'
         = (stdout w ++ batch_reports size (trials_of env first remaining))%list
      /\ cmds w'
         = (cmds w ++ batch_commands size (trials_of env first remaining))%list
      /\ allocated size (bufs w').
Proof.
  intros Hs. induction remaining as [|remaining IH];
    intros first testsPassed w Ha Hi Hp Hb.
  - exists w. unfold batch_passed, batch_reports, batch_commands. simpl.
    rewrite !app_nil_r. split; [|auto].
    unfold ret. do 2 f_equal. lia.
  - simpl RunTest_loop. unfold bind.
    destruct (RunTrial_exact size (env (Z.of_nat first)) w Hs Ha)
      as [w1 [E [O [C [Ha1 _]]]]].
    rewrite E.
    rewrite (add_small (Z.of_nat first) 1) by lia.
    replace (Z.of_nat first + 1) with (Z.of_nat (S first)) by lia.
    set (report := trial_report size (env (Z.of_nat first))) in *.
    assert (Hadd : U32.add testsPassed (if is_none report then 1 else 0)
                   = testsPassed + (if is_none report then 1 else 0)).
    { apply add_small. destruct (is_none report); lia. }
    rewrite Hadd.
    destruct (IH (S first)
                 (testsPassed + (if is_none report then 1 else 0)) w1 Ha1
                 ltac:(lia)
                 ltac:(destruct (is_none report); lia)
                 ltac:(destruct (is_none report); lia))
      as [w' [E' [O' [C' Ha']]]].
    exists w'. rewrite E'.
    unfold trials_of, batch_passed, batch_reports, batch_commands in *.
    simpl seq. simpl map. simpl flat_map. simpl filter. fold report.
    rewrite O', O, C', C, <- !app_assoc.
    repeat split; auto; try apply Ha'.
    do 2 f_equal. destruct (is_none report); simpl length; lia.
Qed.

Lemma batch_passed_bounds size trials :
  0 <= batch_passed size trials <= Z.of_nat (length trials).
Proof.
  unfold batch_passed.
  pose proof (filter_length_le
                (fun te => is_none (trial_report size te)) trials).
  lia.
Qed.

Lemma trials_of_length env first count :
  length (trials_of env first count) = count.
Proof. unfold trials_of. now rewrite length_map, length_seq. Qed.

Lemma RunTest_exact size batchSize env w :
  0 <= size < 2 ^ 30 -> 0 <= batchSize < 2 ^ 32 ->
  allocated size (bufs w) ->
  let trials := trials_of env 0 (Z.to_nat batchSize) in
  exists w',
    RunTest size batchSize env w = Some (tt, w')
    /\ stdout w'
       = (stdout w ++ batch_reports size trials
          ++ [Summary (batch_passed size trials) batchSize;
              Verdict (batch_passed size trials =? batchSize)])%list
    /\ cmds w' = (cmds w ++ batch_commands size trials)%list
    /\ allocated size (bufs w').
Proof.
  intros Hs Hb Ha trials. unfold RunTest, bind.
  destruct (RunTest_loop_exact size env (Z.to_nat batchSize) Hs 0%nat 0 w Ha
              ltac:(lia) ltac:(lia) ltac:(lia))
    as [w1 [E [O [C Ha1]]]].
  change (Z.of_nat 0) with 0 in E. rewrite E. fold trials.
  rewrite !print_say. eexists. split; [reflexivity|].
  simpl. rewrite O, C, <- !app_assoc. repeat split; auto; apply Ha1.
Qed.

(** X9.  On device memory laid out for the test size, a batch prints exactly
    this: for each trial in order, nothing if the trial passes and otherwise
    the diagnostic of the first nonzero error code in the telemetry its stress
    kernel left; then the summary, whose passed count is the number of trials
    that printed nothing (those with all codes zero, and those whose map
    request failed), and the verdict. *)
Theorem RunTest_prints_first_hazard_of_each_failing_trial
        size batchSize env w :
  0 <= size < 2 ^ 30 -> 0 <= batchSize < 2 ^ 32 ->
  allocated size (bufs w) ->
  exists w',
    RunTest size batchSize env w = Some (tt, w')
    /\ stdout w'
       = (stdout w
          ++ batch_reports size (trials_of env 0 (Z.to_nat batchSize))
          ++ [Summary
                (batch_passed size (trials_of env 0 (Z.to_nat batchSize)))
                batchSize;
              Verdict
                (batch_passed size (trials_of env 0 (Z.to_nat batchSize))
                 =? batchSize)])%list.
Proof.
  intros Hs Hb Ha.
  destruct (RunTest_exact size batchSize env w Hs Hb Ha) as [w' [E [O _]]].
  exists w'. split; assumption.
Qed.

Lemma RunTest_prints_first_hazard_of_each_failing_trial_witness :
  exists w',
    RunTest 2 3 sample_trials stale_world = Some (tt, w')
    /\ stdout w'
       = (stdout stale_world
          ++ batch_reports 2 (trials_of sample_trials 0 (Z.to_nat 3))
          ++ [Summary (batch_passed 2 (trials_of sample_trials 0 (Z.to_nat 3)))
                      3;
              Verdict (batch_passed 2 (trials_of sample_trials 0 (Z.to_nat 3))
                       =? 3)])%list.
Proof.
  apply (RunTest_prints_first_hazard_of_each_failing_trial
           2 3 sample_trials stale_world).
  - lia.
  - lia.
  - split; reflexivity.
Defined.



(** X11.  Whatever the device holds and answers, the batch reports that all
    tests passed exactly when no trial printed a diagnostic. *)
Theorem RunTest_all_passed_iff_no_diagnostic size batchSize env w :
  0 <= size < 2 ^ 30 -> 0 <= batchSize < 2 ^ 32 ->
  exists passed diags w',
    RunTest size batchSize env w = Some (tt, w')
    /\ stdout w'
       = (stdout w ++ diags
          ++ [Summary passed batchSize; Verdict (passed =? batchSize)])%list
    /\ Forall (fun p => blamed p <> None) diags
    /\ ((passed =? batchSize) = true <-> diags = []).
Proof.
  intros Hs Hb.
  destruct (RunTest_spec size batchSize env w Hs Hb)
    as [passed [diags [w' [E [O [Hp [Hsum [F _]]]]]]]].
  exists passed, diags, w'. repeat split; auto.
  - intros H. apply Z.eqb_eq in H. destruct diags; [reflexivity|].
    simpl length in Hsum. lia.
  - intros ->. apply Z.eqb_eq. simpl in Hsum. lia.
Qed.

Lemma RunTest_all_passed_iff_no_diagnostic_witness :
  exists passed diags w',
    RunTest 2 3 sample_trials stale_world = Some (tt, w')
    /\ stdout w'
       = (stdout stale_world ++ diags
          ++ [Summary passed 3; Verdict (passed =? 3)])%list
    /\ Forall (fun p => blamed p <> None) diags
    /\ ((passed =? 3) = true <-> diags = []).
Proof.
  apply (RunTest_all_passed_iff_no_diagnostic 2 3 sample_trials stale_world);
    lia.
Defined.

Lemma RunTest_loop_size_zero env remaining :
  forall i testsPassed w,
    0 <= testsPassed -> testsPassed + Z.of_nat remaining < 2 ^ 32 ->
    exists w',
      RunTest_loop remaining i 0 env testsPassed w
      = Some (testsPassed + Z.of_nat remaining, w')
      /\ stdout w' = stdout w
      /\ maps_requested (cmds w') = maps_requested (cmds w)
      /\ trials_run (cmds w') = (trials_run (cmds w) + remaining)%nat.
Proof.
  induction remaining as [|remaining IH]; intros i testsPassed w Hp Hb.
  - exists w. simpl. unfold ret. repeat split; auto. do 2 f_equal. lia.
  - simpl RunTest_loop. unfold bind.
    assert (T : exists w1,
               RunTrial 0 (env i) w = Some (true, w1)
               /\ stdout w1 = stdout w
               /\ cmds w1
                  = (cmds w
                     ++ [Submit [[ComputePass "Init" 256;
                                  ComputePass "Stress" 0]];
                         OnSubmittedWorkDone])%list).
    { unfold RunTrial, run_kernels, bind, issue, device_memory,
        set_device_memory. simpl.
      match goal with
      | |- context [QueueSync ?d ?w0] =>
          destruct (QueueSync_spec d w0) as [w1 [E [B [O C]]]]
      end.
      rewrite E. exists w1. simpl in O, C.
      rewrite O, C, <- app_assoc. repeat split. }
    destruct T as [w1 [E [O C]]]. rewrite E.
    rewrite (add_small testsPassed 1) by lia.
    destruct (IH (U32.add i 1) (testsPassed + 1) w1 ltac:(lia) ltac:(lia))
      as [w' [E' [O' [M' T']]]].
    exists w'. rewrite E'. repeat split.
    + do 2 f_equal. lia.
    + congruence.
    + rewrite M', C. unfold maps_requested. rewrite filter_app. simpl.
      rewrite length_app. simpl. lia.
    + rewrite T', C. unfold trials_run. rewrite filter_app. simpl.
      rewrite length_app. simpl. lia.
Qed.

(** X12.  With test size 0 every trial counts as passed, whatever the device
    holds and answers: the init+stress stream is still submitted once per
    trial, no map is ever requested, no diagnostic is printed and the batch
    ends with total / total and the all-passed verdict. *)
Theorem RunTest_size_zero_passes_every_trial batchSize env w :
  0 <= batchSize < 2 ^ 32 ->
  exists w',
    RunTest 0 batchSize env w = Some (tt, w')
    /\ stdout w'
       = (stdout w ++ [Summary batchSize batchSize; Verdict true])%list
    /\ maps_requested (cmds w') = maps_requested (cmds w)
    /\ trials_run (cmds w') = (trials_run (cmds w) + Z.to_nat batchSize)%nat.
Proof.
  intros Hb. unfold RunTest, bind.
  destruct (RunTest_loop_size_zero env (Z.to_nat batchSize) 0 0 w
              ltac:(lia) ltac:(lia)) as [w1 [E [O [M T]]]].
  rewrite E. rewrite !print_say.
  replace (0 + Z.of_nat (Z.to_nat batchSize)) with batchSize by lia.
  rewrite Z.eqb_refl.
  eexists. split; [reflexivity|]. simpl. rewrite O, <- app_assoc.
  repeat split; auto.
Qed.

Lemma RunTest_size_zero_passes_every_trial_witness :
  exists w',
    RunTest 0 3 sample_trials stale_world = Some (tt, w')
    /\ stdout w'
       = (stdout stale_world ++ [Summary 3 3; Verdict true])%list
    /\ maps_requested (cmds w') = maps_requested (cmds stale_world)
    /\ trials_run (cmds w')
       = (trials_run (cmds stale_world) + Z.to_nat 3)%nat.
Proof.
  apply (RunTest_size_zero_passes_every_trial 3 sample_trials stale_world).
  lia.
Defined.

(** ** The batch on a device that may never answer *)

Lemma preserves_ret {A X} (f : World -> X) (a : A) : preserves f (ret a).
Proof. intros w a' w' H. now inversion H. Qed.

Lemma preserves_bind {A B X} (f : World -> X) (c : M A) (k : A -> M B) :
  preserves f c -> (forall a, preserves f (k a)) -> preserves f (bind c k).
Proof.
  intros Hc Hk w b w' H. unfold bind in H.
  destruct (c w) as [[a w1]|] eqn:E; [|discriminate].
  rewrite (Hk a w1 b w' H). exact (Hc w a w1 E).
Qed.

Lemma preserves_view {A X Y} (f : World -> X) (g : X -> Y) (c : M A) :
  preserves f c -> preserves (fun w => g (f w)) c.
Proof. intros H w a w' E. now rewrite (H w a w' E). Qed.

Lemma preserves_polls {A} (c : M A) :
  preserves device_state c -> preserves polls c.
Proof. apply (preserves_view device_state snd). Qed.

Lemma preserves_parameters {A} (c : M A) :
  preserves device_state c -> preserves parameters c.
Proof. apply (preserves_view device_state (fun s => info (fst s))). Qed.

Lemma issue_device_state c : preserves device_state (issue c).
Proof. intros w a w' H. now inversion H. Qed.

Lemma print_device_state p : preserves device_state (print p).
Proof. intros w a w' H. now inversion H. Qed.

Lemma eprint_device_state line : preserves device_state (eprint line).
Proof. intros w a w' H. now inversion H. Qed.

Lemma unless_device_state (succeeded : bool) line :
  preserves device_state (if succeeded then ret tt else eprint line).
Proof.
  destruct succeeded; [apply preserves_ret | apply eprint_device_state].
Qed.

Lemma at_index_device_state v i : preserves device_state (at_index v i).
Proof.
  intros w a w' H. unfold at_index in H.
  destruct (nth_error v (Z.to_nat i)); [now inversion H | discriminate].
Qed.

Lemma CheckError_device_state errCode got tile_id tid :
  preserves device_state (CheckError errCode got tile_id tid).
Proof.
  unfold CheckError.
  destruct (errCode =? 0); [apply preserves_ret|].
  destruct (errCode =? ERROR_TYPE_MESSAGE);
    [|destruct (errCode =? ERROR_TYPE_SHUFFLE)];
    (apply preserves_bind;
     [apply print_device_state | intros _; apply preserves_ret]).
Qed.

Lemma all_from_preserves {X} (f : World -> X) body count :
  (forall i, preserves f (body i)) ->
  forall i, preserves f (all_from count i body).
Proof.
  intros Hb. induction count as [|count IH]; intros i; simpl.
  - apply preserves_ret.
  - apply preserves_bind; [apply Hb|].
    intros [|]; [apply IH | apply preserves_ret].
Qed.

Lemma Validate_scan_device_state readOut size :
  preserves device_state (Validate_scan readOut size).
Proof.
  unfold Validate_scan. apply all_from_preserves. intros tile_id.
  unfold Validate_tile. apply all_from_preserves. intros tid.
  unfold Validate_thread.
  apply preserves_bind; [apply at_index_device_state|]. intros errCode.
  apply preserves_bind; [apply at_index_device_state|]. intros got.
  apply CheckError_device_state.
Qed.

Lemma run_kernels_polls te : preserves polls (run_kernels te).
Proof. intros w a w' H. now inversion H. Qed.

Lemma run_kernels_parameters te : preserves parameters (run_kernels te).
Proof. intros w a w' H. now inversion H. Qed.

Lemma device_copy_polls src off dst sz done :
  preserves polls (device_copy src off dst sz done).
Proof.
  intros w a w' H.
  unfold device_copy, bind, device_memory, set_device_memory, eprint in H.
  destruct (range_ok (buffer (bufs w) src) off sz
            && range_ok (buffer (bufs w) dst) 0 sz); now inversion H.
Qed.

Lemma device_copy_parameters src off sz done :
  preserves parameters (device_copy src off Readback sz done).
Proof.
  intros w a w' H.
  unfold device_copy, bind, device_memory, set_device_memory, eprint in H.
  destruct (range_ok (buffer (bufs w) src) off sz
            && range_ok (buffer (bufs w) Readback) 0 sz); now inversion H.
Qed.

Lemma map_callback_device_state dst readOut bytes done :
  preserves device_state (map_callback dst readOut bytes done).
Proof.
  intros w a w' H.
  unfold map_callback, bind, device_memory, memcpy, issue, eprint, ret,
    undefined in H.
  destruct (ok done && range_ok (buffer (bufs w) dst) 0 bytes).
  - destruct (length (slice (buffer (bufs w) dst) 0 bytes)
              <=? length readOut)%nat; [now inversion H | discriminate].
  - now inversion H.
Qed.

Lemma pump_parameters n : preserves parameters (pump n).
Proof. intros w a w' H. rewrite pump_polled in H. now inversion H. Qed.

Lemma await_parameters {A} done (callback : M A) :
  preserves parameters callback -> preserves parameters (await done callback).
Proof.
  intros H. unfold await. apply preserves_bind; [apply pump_parameters|].
  intros _. exact H.
Qed.

Lemma QueueSync_parameters done : preserves parameters (QueueSync done).
Proof.
  unfold QueueSync.
  apply preserves_bind;
    [apply preserves_parameters, issue_device_state|]. intros _.
  apply await_parameters, preserves_parameters, unless_device_state.
Qed.

Lemma Validate_parameters size copy_done map_done :
  preserves parameters (Validate size copy_done map_done).
Proof.
  unfold Validate. destruct (size =? 0); [apply preserves_ret|].
  cbv zeta. apply preserves_bind.
  - unfold CopyAndReadbackSync. apply preserves_bind.
    + unfold CopyBufferSync.
      apply preserves_bind;
        [apply preserves_parameters, issue_device_state|]. intros _.
      apply preserves_bind; [apply device_copy_parameters|]. intros _.
      apply QueueSync_parameters.
    + intros _.
      match goal with
      | |- preserves _ (ReadbackSync ?dst ?readOut ?bytes ?done) =>
          change (ReadbackSync dst readOut bytes done)
            with (bind (issue (MapAsync dst 0 bytes))
                       (fun _ => await done
                                   (map_callback dst readOut bytes done)))
      end.
      apply preserves_bind;
        [apply preserves_parameters, issue_device_state|]. intros _.
      apply await_parameters, preserves_parameters,
        map_callback_device_state.
  - intros readOut. apply preserves_parameters, Validate_scan_device_state.
Qed.

Lemma RunTrial_parameters size te : preserves parameters (RunTrial size te).
Proof.
  unfold RunTrial.
  apply preserves_bind;
    [apply preserves_parameters, issue_device_state|]. intros _.
  apply preserves_bind; [apply run_kernels_parameters|]. intros _.
  apply preserves_bind; [apply QueueSync_parameters|]. intros _.
  apply Validate_parameters.
Qed.

Lemma RunTest_loop_parameters size env remaining :
  forall i testsPassed,
    preserves parameters (RunTest_loop remaining i size env testsPassed).
Proof.
  induction remaining as [|remaining IH]; intros i testsPassed; simpl.
  - apply preserves_ret.
  - apply preserves_bind; [apply RunTrial_parameters|]. intros passed.
    apply IH.
Qed.

Lemma RunTest_parameters size batchSize env :
  preserves parameters (RunTest size batchSize env).
Proof.
  unfold RunTest. apply preserves_bind; [apply RunTest_loop_parameters|].
  intros testsPassed.
    apply preserves_bind; [|intros _];
      apply preserves_parameters, print_device_state.
Qed.

Lemma poll_never {A} (callback : M A) :
  forall budget w, poll budget None callback w = StillWaiting.
Proof.
  induction budget as [|budget IH]; intros w; simpl; [reflexivity|].
  apply IH.
Qed.

Lemma poll_fires {A} (callback : M A) n :
  forall spare w,
    poll (n + spare) (Some n) callback w = lift callback spare (polled w n).
Proof.
  induction n as [|n IH]; intros spare w.
  - replace (polled w 0) with w by (destruct w; reflexivity).
    destruct spare; reflexivity.
  - simpl. rewrite IH. f_equal. unfold polled. simpl. f_equal. lia.
Qed.

Lemma refines_lift {A} (c : M A) : preserves polls c -> refines (lift c) 0 c.
Proof.
  intros H w a w' E. split; [exact (H w a w' E)|].
  intros spare. unfold lift. now rewrite E.
Qed.

Lemma refines_ret {A} (a : A) : refines (retB a) 0 (ret a).
Proof. intros w a' w' E. inversion E. subst. split; reflexivity. Qed.

Lemma refines_bind {A B} (p : Budgeted A) (q : A -> Budgeted B)
      (c : M A) (k : A -> M B) n1 n2 :
  refines p n1 c -> (forall a, refines (q a) n2 (k a)) ->
  refines (bindB p q) (n1 + n2) (bind c k).
Proof.
  intros Hp Hq w b w' E. unfold bind in E.
  destruct (c w) as [[a w1]|] eqn:E1; [|discriminate].
  destruct (Hp w a w1 E1) as [P1 R1].
  destruct (Hq a w1 b w' E) as [P2 R2].
  split; [lia|]. intros spare. unfold bindB.
  rewrite <- Nat.add_assoc, R1. apply R2.
Qed.

Lemma refines_await {A} done (callback : M A) :
  preserves polls callback ->
  refines (await_polling (Some (latency done)) callback) (latency done)
          (await done callback).
Proof.
  intros H w a w' E. unfold await, bind in E. rewrite pump_polled in E.
  split.
  - now rewrite (H _ _ _ E).
  - intros spare. unfold await_polling. rewrite poll_fires.
    unfold lift. now rewrite E.
Qed.

Lemma refines_pumps {A} (p : Budgeted A) (c : M A) n n' :
  refines p n c -> n' = n -> refines p n' c.
Proof. now intros H ->. Qed.

Lemma QueueSync_refines done :
  refines (QueueSync_polling (Some (latency done)) done) (latency done)
          (QueueSync done).
Proof.
  unfold QueueSync_polling, QueueSync.
  apply (refines_bind _ _ _ _ 0).
  - apply refines_lift, preserves_polls, issue_device_state.
  - intros _. apply refines_await, preserves_polls, unless_device_state.
Qed.

Lemma CopyBufferSync_refines src dst off sz done :
  refines (CopyBufferSync_polling src dst off sz (Some (latency done)) done)
          (latency done) (CopyBufferSync src dst off sz done).
Proof.
  unfold CopyBufferSync_polling, CopyBufferSync.
  apply (refines_bind _ _ _ _ 0).
  - apply refines_lift, preserves_polls, issue_device_state.
  - intros _. apply (refines_bind _ _ _ _ 0).
    + apply refines_lift, device_copy_polls.
    + intros _. apply QueueSync_refines.
Qed.

Lemma ReadbackSync_refines dst readOut bytes done :
  refines (ReadbackSync_polling dst readOut bytes (Some (latency done)) done)
          (latency done) (ReadbackSync dst readOut bytes done).
Proof.
  unfold ReadbackSync_polling.
  change (ReadbackSync dst readOut bytes done)
    with (bind (issue (MapAsync dst 0 bytes))
               (fun _ => await done (map_callback dst readOut bytes done))).
  apply (refines_bind _ _ _ _ 0).
  - apply refines_lift, preserves_polls, issue_device_state.
  - intros _. apply refines_await, preserves_polls, map_callback_device_state.
Qed.

Lemma Validate_refines size copy_done map_done :
  refines (Validate_polling size (Some (latency copy_done))
                            (Some (latency map_done)) copy_done map_done)
          (if size =? 0 then 0 else latency copy_done + latency map_done)
          (Validate size copy_done map_done).
Proof.
  unfold Validate_polling, Validate.
  destruct (size =? 0); [apply refines_ret|]. cbv zeta.
  eapply refines_pumps.
  - apply refines_bind.
    + unfold CopyAndReadbackSync_polling, CopyAndReadbackSync.
      apply refines_bind; [apply CopyBufferSync_refines|].
      intros _. apply ReadbackSync_refines.
    + intros readOut.
      apply refines_lift, preserves_polls, Validate_scan_device_state.
  - lia.
Qed.

Lemma RunTrial_refines size te :
  refines (RunTrial_polling size te (responsive te)) (trial_pumps size te)
          (RunTrial size te).
Proof.
  unfold RunTrial_polling, RunTrial, trial_pumps, responsive.
  cbn [work_fires copy_fires map_fires].
  apply (refines_bind _ _ _ _ 0).
  - apply refines_lift, preserves_polls, issue_device_state.
  - intros _. apply (refines_bind _ _ _ _ 0).
    + apply refines_lift, run_kernels_polls.
    + intros _. apply refines_bind; [apply QueueSync_refines|].
      intros _. apply Validate_refines.
Qed.

Lemma RunTest_loop_refines size env firing remaining :
  forall first testsPassed,
    Z.of_nat first + Z.of_nat remaining < 2 ^ 32 ->
    (forall j, (first <= j < first + remaining)%nat ->
               firing (Z.of_nat j) = responsive (env (Z.of_nat j))) ->
    refines (RunTest_loop_polling remaining (Z.of_nat first) size env firing
                                  testsPassed)
            (batch_pumps size (trials_of env first remaining))
            (RunTest_loop remaining (Z.of_nat first) size env testsPassed).
Proof.
  induction remaining as [|remaining IH]; intros first testsPassed Hb Hf.
  - apply refines_ret.
  - simpl RunTest_loop_polling. simpl RunTest_loop.
    rewrite (Hf first) by lia.
    rewrite (add_small (Z.of_nat first) 1) by lia.
    replace (Z.of_nat first + 1) with (Z.of_nat (S first)) by lia.
    unfold batch_pumps, trials_of. simpl seq. simpl map. simpl list_sum.
    apply refines_bind; [apply RunTrial_refines|].
    intros passed. apply IH; [lia|]. intros j Hj. apply Hf. lia.
Qed.

Lemma RunTest_refines size batchSize env firing :
  0 <= batchSize < 2 ^ 32 ->
  (forall i, 0 <= i < batchSize -> firing i = responsive (env i)) ->
  refines (RunTest_polling size batchSize env firing)
          (batch_pumps size (trials_of env 0 (Z.to_nat batchSize)))
          (RunTest size batchSize env).
Proof.
  intros Hb Hf. unfold RunTest_polling, RunTest.
  eapply refines_pumps.
  - apply refines_bind.
    + apply (RunTest_loop_refines size env firing (Z.to_nat batchSize) 0 0).
      * lia.
      * intros j Hj. apply Hf. lia.
    + intros testsPassed. apply (refines_bind _ _ _ _ 0 0).
      * apply refines_lift, preserves_polls, print_device_state.
      * intros _. apply refines_lift, preserves_polls, print_device_state.
  - simpl. lia.
Qed.

Lemma RunTrial_polling_stalls size te f :
  work_fires f = None ->
  forall budget w, RunTrial_polling size te f budget w = StillWaiting.
Proof.
  intros H budget w.
  unfold RunTrial_polling, QueueSync_polling, await_polling, bindB, lift,
    run_kernels, bind, issue, device_memory, set_device_memory.
  rewrite H. now rewrite poll_never.
Qed.

Lemma RunTest_polling_stalls size batchSize env firing :
  0 < batchSize -> work_fires (firing 0) = None ->
  forall budget w,
    RunTest_polling size batchSize env firing budget w = StillWaiting.
Proof.
  intros Hb H budget w. unfold RunTest_polling, bindB.
  destruct (Z.to_nat batchSize) as [|remaining] eqn:E; [lia|].
  simpl RunTest_loop_polling. unfold bindB.
  now rewrite RunTrial_polling_stalls.
Qed.

Lemma last_two_inv {A} (l l' : list A) a b a' b' :
  (l ++ [a; b] = l' ++ [a'; b'])%list -> l = l' /\ a = a' /\ b = b'.
Proof.
  intros H.
  change (l ++ [a; b])%list with (l ++ [a] ++ [b])%list in H.
  change (l' ++ [a'; b'])%list with (l' ++ [a'] ++ [b'])%list in H.
  rewrite !app_assoc in H.
  apply app_inj_tail_iff in H. destruct H as [H ->].
  apply app_inj_tail_iff in H. destruct H as [-> ->]. auto.
Qed.

(** The claim of C2 as stated fails on a device that stops answering: with
    test size 2 and 3 trials on device memory laid out for size 2, if the
    queue never reports that the work of the first trial is done, the wait
    loop of [QueueSync] is still pumping after any number of pumps.  The
    batch never returns and prints no summary. *)
Lemma RunTest_never_returns_on_a_stalled_queue :
  allocated 2 (bufs stale_world)
  /\ forall budget,
       RunTest_polling 2 3 sample_trials (fun _ => stalled_queue) budget
                       stale_world
       = StillWaiting.
Proof.
  split; [split; reflexivity|].
  intros budget. apply RunTest_polling_stalls; [lia | reflexivity].
Qed.

(** C2 (amended).  For every test size below 65536 and every trial count
    below 1024, on a device that answers every request of every trial (each
    completion callback fires after finitely many pumps of the event queue),
    the batch returns, after exactly the pumps its trials wait for.  It
    submits the init+stress command stream once per requested trial; every
    trial either counts as passed or prints exactly one diagnostic; the last
    two things printed are the summary passed / total, with
    0 <= passed <= total and total the requested trial count, and the
    verdict, which says all passed exactly when passed = total.  No trial is
    skipped or cut short: on device memory laid out for the test size, the
    diagnostics are, trial by trial in order, the first hazard of the
    telemetry of each trial whose map request succeeded, passed is the number
    of trials without one, and the device commands are those of every trial
    in order (submission, wait, copy, wait, map, unmap), whatever earlier
    trials reported. *)
Theorem RunTest_runs_every_trial_and_reports size batchSize env firing w :
  0 <= size < 65536 -> 0 <= batchSize < 1024 ->
  (forall i, 0 <= i < batchSize -> firing i = responsive (env i)) ->
  exists passed diags w',
    RunTest size batchSize env w = Some (tt, w')
    /\ (forall spare,
          RunTest_polling size batchSize env firing
            (batch_pumps size (trials_of env 0 (Z.to_nat batchSize))
             + spare)%nat w
          = Returned tt w' spare)
    /\ polls w'
       = (batch_pumps size (trials_of env 0 (Z.to_nat batchSize))
          + polls w)%nat
    /\ stdout w'
       = (stdout w ++ diags
          ++ [Summary passed batchSize; Verdict (passed =? batchSize)])%list
    /\ 0 <= passed <= batchSize
    /\ passed + Z.of_nat (length diags) = batchSize
    /\ Forall (fun p => blamed p <> None) diags
    /\ trials_run (cmds w') = (trials_run (cmds w) + Z.to_nat batchSize)%nat
    /\ (allocated size (bufs w) ->
        diags = batch_reports size (trials_of env 0 (Z.to_nat batchSize))
        /\ passed = batch_passed size (trials_of env 0 (Z.to_nat batchSize))
        /\ cmds w'
           = (cmds w
              ++ batch_commands size
                   (trials_of env 0 (Z.to_nat batchSize)))%list).
Proof.
  intros Hs Hb Hf.
  destruct (RunTest_spec size batchSize env w ltac:(lia) ltac:(lia))
    as [passed [diags [w' [E [O [Hp [Hsum [F T]]]]]]]].
  destruct (RunTest_refines size batchSize env firing ltac:(lia) Hf w tt w' E)
    as [Hpolls Hret].
  exists passed, diags, w'.
  do 8 (split; [auto; lia|]).
  intros Ha.
  destruct (RunTest_exact size batchSize env w ltac:(lia) ltac:(lia) Ha)
    as [w2 [E2 [O2 [C2 _]]]].
  rewrite E in E2. injection E2 as <-. rewrite O in O2.
  apply app_inv_head in O2.
  destruct (last_two_inv _ _ _ _ _ _ O2) as [D [S _]].
  injection S as S. auto.
Qed.

Lemma RunTest_runs_every_trial_and_reports_witness :
  exists passed diags w',
    RunTest 2 3 sample_trials stale_world = Some (tt, w')
    /\ (forall spare,
          RunTest_polling 2 3 sample_trials
            (fun i => responsive (sample_trials i))
            (batch_pumps 2 (trials_of sample_trials 0 (Z.to_nat 3))
             + spare)%nat stale_world
          = Returned tt w' spare)
    /\ polls w'
       = (batch_pumps 2 (trials_of sample_trials 0 (Z.to_nat 3))
          + polls stale_world)%nat
    /\ stdout w'
       = (stdout stale_world ++ diags
          ++ [Summary passed 3; Verdict (passed =? 3)])%list
    /\ 0 <= passed <= 3
    /\ passed + Z.of_nat (length diags) = 3
    /\ Forall (fun p => blamed p <> None) diags
    /\ trials_run (cmds w')
       = (trials_run (cmds stale_world) + Z.to_nat 3)%nat
    /\ diags = batch_reports 2 (trials_of sample_trials 0 (Z.to_nat 3))
    /\ passed = batch_passed 2 (trials_of sample_trials 0 (Z.to_nat 3))
    /\ cmds w'
       = (cmds stale_world
          ++ batch_commands 2 (trials_of sample_trials 0 (Z.to_nat 3)))%list.
Proof.
  destruct (RunTest_runs_every_trial_and_reports
              2 3 sample_trials (fun i => responsive (sample_trials i))
              stale_world)
    as [passed [diags [w' [E [R [P [O [B [S [F [T X]]]]]]]]]]].
  - lia.
  - lia.
  - reflexivity.
  - exists passed, diags, w'.
    do 8 (split; [assumption|]).
    apply X. split; reflexivity.
Defined.

(** The sample batch, pump by pump: the device answers every request, the
    nine waits take nine pumps, trial 1 reports its hazard and the others
    pass. *)
Example RunTest_polling_sample :
  match RunTest_polling 2 3 sample_trials
          (fun i => responsive (sample_trials i)) 12%nat stale_world with
  | Returned _ w' spare => Some (stdout w', polls w', spare)
  | _ => None
  end
  = Some ([ShuffleError 1 1 0; Summary 2 3; Verdict false], 9%nat, 3%nat).
Proof. vm_compute. reflexivity. Qed.

(** With one pump fewer than needed it is still waiting. *)
Example RunTest_polling_sample_short :
  RunTest_polling 2 3 sample_trials
    (fun i => responsive (sample_trials i)) 8%nat stale_world
  = StillWaiting.
Proof. vm_compute. reflexivity. Qed.

(** ** Negotiation, pipelines and uniforms *)

Lemma report_messages_exact messages w :
  report_messages messages w
  = Some (tt, logged w (compilation_log messages)).
Proof.
  revert w. induction messages as [|[[| |] text] rest IH]; intros w.
  - destruct w. unfold logged, compilation_log. simpl.
    now rewrite app_nil_r.
  - simpl report_messages. unfold bind, eprint. rewrite IH.
    unfold logged, compilation_log. simpl. now rewrite <- app_assoc.
  - simpl report_messages. unfold bind, eprint. rewrite IH.
    unfold logged, compilation_log. simpl. now rewrite <- app_assoc.
  - simpl report_messages. rewrite IH. reflexivity.
Qed.

Section Appends.

Lemma appends_ret : appends (ret tt) [] [] [] 0.
Proof.
  intros w. exists w. rewrite !app_nil_r. repeat split.
Qed.

Lemma appends_issue c : appends (issue c) [] [] [c] 0.
Proof.
  intros w. eexists. split; [reflexivity|]. simpl.
  rewrite !app_nil_r. repeat split.
Qed.

Lemma appends_print p : appends (print p) [p] [] [] 0.
Proof.
  intros w. eexists. split; [reflexivity|]. simpl.
  rewrite !app_nil_r. repeat split.
Qed.

Lemma appends_eprint line : appends (eprint line) [] [line] [] 0.
Proof.
  intros w. eexists. split; [reflexivity|]. simpl.
  rewrite !app_nil_r. repeat split.
Qed.

Lemma appends_pump n : appends (pump n) [] [] [] n.
Proof.
  intros w. rewrite pump_polled. eexists. split; [reflexivity|]. simpl.
  rewrite !app_nil_r. repeat split.
Qed.

Lemma appends_bind c1 c2 o1 o2 e1 e2 cs1 cs2 n1 n2 :
  appends c1 o1 e1 cs1 n1 -> appends c2 o2 e2 cs2 n2 ->
  appends (c1 ;; c2) (o1 ++ o2) (e1 ++ e2) (cs1 ++ cs2) (n1 + n2).
Proof.
  intros H1 H2 w. unfold bind.
  destruct (H1 w) as [w1 [E1 [B1 [O1 [S1 [C1 P1]]]]]]. rewrite E1.
  destruct (H2 w1) as [w2 [E2 [B2 [O2 [S2 [C2 P2]]]]]].
  exists w2. split; [exact E2|].
  rewrite B2, O2, S2, C2, P2, B1, O1, S1, C1, P1, !app_assoc.
  repeat split. lia.
Qed.

(** [if (!succeeded) std::cerr << line;] *)
Lemma appends_unless (succeeded : bool) line :
  appends (if succeeded then ret tt else eprint line)
          [] (if succeeded then [] else [line]) [] 0.
Proof.
  destruct succeeded; [apply appends_ret|apply appends_eprint].
Qed.

Lemma appends_await done callback o e cs n :
  appends callback o e cs n ->
  appends (await done callback) o e cs (latency done + n).
Proof.
  intros H. unfold await.
  apply (appends_bind _ _ [] o [] e [] cs _ _ (appends_pump _) H).
Qed.

Lemma appends_seq c1 c2 o1 o2 e1 e2 cs1 cs2 n1 n2 o e cs n :
  appends c1 o1 e1 cs1 n1 -> appends c2 o2 e2 cs2 n2 ->
  o = (o1 ++ o2)%list -> e = (e1 ++ e2)%list -> cs = (cs1 ++ cs2)%list ->
  n = (n1 + n2)%nat ->
  appends (c1 ;; c2) o e cs n.
Proof. intros H1 H2 -> -> -> ->. now apply appends_bind. Qed.

Lemma appends_eq c o e cs n o' e' cs' n' :
  appends c o e cs n -> o' = o -> e' = e -> cs' = cs -> n' = n ->
  appends c o' e' cs' n'.
Proof. now intros H -> -> -> ->. Qed.

End Appends.

(** Running a straight-line sequence of such steps. *)
Ltac appends_steps :=
  cbv zeta;
  first
    [ apply appends_issue
    | apply appends_print
    | apply appends_eprint
    | apply appends_unless
    | apply appends_ret
    | apply appends_await; appends_steps
    | eapply appends_seq;
      [appends_steps | appends_steps
       | reflexivity | reflexivity | reflexivity | reflexivity] ].

Lemma GetGPUContext_exact env w :
  exists w',
    GetGPUContext env w = Some (tt, w')
    /\ bufs w' = bufs w
    /\ stdout w' = (stdout w ++ adapter_lines (adapter_info env))%list
    /\ stderr w' = (stderr w ++ negotiation_failures env)%list
    /\ cmds w'
       = (cmds w ++ [CreateInstance; RequestAdapter; RequestDevice;
                     GetQueue])%list
    /\ polls w'
       = (latency (device_done env) + (latency (adapter_done env) + polls w))%nat.
Proof.
  assert (H : appends (GetGPUContext env)
                (adapter_lines (adapter_info env))
                (negotiation_failures env)
                [CreateInstance; RequestAdapter; RequestDevice; GetQueue]
                (latency (adapter_done env) + latency (device_done env))).
  { unfold GetGPUContext.
    eapply appends_eq; [appends_steps| | | |].
    - reflexivity.
    - unfold negotiation_failures.
      destruct (instance_created env), (ok (adapter_done env)),
        (ok (device_done env)); reflexivity.
    - reflexivity.
    - lia. }
  destruct (H w) as [w' [E [B [O [S [C P]]]]]].
  exists w'. repeat split; auto. rewrite P. lia.
Qed.

Lemma CreateShaderFromSource_exact path csLabel env w :
  exists w',
    CreateShaderFromSource "main" path csLabel env w = Some (tt, w')
    /\ bufs w' = bufs w
    /\ stdout w' = stdout w
    /\ stderr w' = (stderr w ++ shader_log path env)%list
    /\ cmds w' = (cmds w ++ shader_commands path)%list.
Proof.
  unfold CreateShaderFromSource, ReadWGSL, GetComputeShaderPipeline, await,
    bind, issue, eprint, ret, shader_log, shader_commands.
  destruct (file_opened env); simpl; rewrite pump_polled;
    rewrite report_messages_exact; simpl;
    eexists; (split; [reflexivity|]); simpl;
    rewrite <- ?app_assoc; repeat split.
Qed.

Lemma InitializeUniforms_exact size done w :
  length (info (bufs w)) = 4%nat ->
  exists w',
    InitializeUniforms size done w = Some (tt, w')
    /\ bufs w' = set_buffer (bufs w) Info [size; 0; 0; 0]
    /\ stdout w' = stdout w
    /\ cmds w'
       = (cmds w ++ [WriteBuffer Info 0 [size; 0; 0; 0]; Submit [];
                     OnSubmittedWorkDone])%list.
Proof.
  intros L.
  unfold InitializeUniforms, device_write, bind, issue, device_memory,
    set_device_memory. cbn [bufs buffer].
  assert (R : range_ok (info (bufs w)) 0
                (Z.of_nat (length [size; 0; 0; 0]) * word_bytes) = true).
  { replace (length [size; 0; 0; 0]) with (length (info (bufs w))).
    apply range_ok_whole. }
  rewrite R.
  rewrite overwrite_same_length by (symmetry; exact L).
  match goal with
  | |- context [QueueSync ?d ?w0] =>
      destruct (QueueSync_spec d w0) as [w1 [E [B [O C]]]]
  end.
  simpl in E |- *. rewrite E. exists w1. simpl in B, O, C.
  rewrite B, O, C, <- !app_assoc. repeat split.
Qed.

(** ** The whole program on an accepted command line *)

Lemma main_exact argv0 arg1 arg2 size batchSize env w :
  parse arg1 65535 = Some size -> parse arg2 1023 = Some batchSize ->
  let trials := trials_of (trial env) 0 (Z.to_nat batchSize) in
  exists w',
    main [argv0; arg1; arg2] env w = Some (EXIT_SUCCESS, w')
    /\ stdout w'
       = (stdout w ++ adapter_lines (adapter_info (session env))
          ++ batch_reports size trials
          ++ [Summary (batch_passed size trials) batchSize;
              Verdict (batch_passed size trials =? batchSize)])%list
    /\ cmds w'
       = (cmds w ++ setup_commands size ++ batch_commands size trials)%list
    /\ parameters w' = [size; 0; 0; 0].
Proof.
  intros P1 P2 trials. unfold main. rewrite P1, P2.
  apply parse_range in P1; [|lia]. apply parse_range in P2; [|lia].
  unfold bind.
  destruct (GetGPUContext_exact (session env) w)
    as [w1 [E1 [_ [O1 [_ [C1 _]]]]]].
  rewrite E1.
  set (w2 := {| bufs := {| info := repeat 0 4;
                           scanBump := repeat 0 1;
                           scan := repeat 0 (Z.to_nat (size * 2));
                           readback := repeat 0 (Z.to_nat (size * 4));
                           err := repeat 0 (Z.to_nat (size * 4)) |};
                stdout := stdout w1; stderr := stderr w1;
                cmds := (cmds w1
                         ++ [CreateBuffer "Info" 16;
                             CreateBuffer "Scan Atomic Bump" 4;
                             CreateBuffer "Scan" (4 * size * 2);
                             CreateBuffer "Main Readback" (4 * size * 4);
                             CreateBuffer "Error" (4 * size * 4)])%list;
                polls := polls w1 |}).
  assert (E2 : GetGPUBuffers size w1 = Some (tt, w2)).
  { unfold GetGPUBuffers, bind, issue, set_device_memory. simpl.
    subst w2. rewrite <- !app_assoc. reflexivity. }
  rewrite E2. unfold GetAllShaders, bind.
  destruct (CreateShaderFromSource_exact "Shaders/init.wgsl" "Init"
              (init_shader env) w2) as [w3 [E3 [B3 [O3 [_ C3]]]]].
  rewrite E3.
  destruct (CreateShaderFromSource_exact "Shaders/stress.wgsl" "Stress"
              (stress_shader env) w3) as [w4 [E4 [B4 [O4 [_ C4]]]]].
  rewrite E4.
  assert (B4' : bufs w4 = bufs w2) by congruence.
  destruct (InitializeUniforms_exact size (uniforms_done env) w4
              ltac:(rewrite B4'; reflexivity)) as [w5 [E5 [B5 [O5 C5]]]].
  rewrite E5.
  assert (Ha : allocated size (bufs w5)).
  { rewrite B5, B4'. split; simpl; apply repeat_length. }
  destruct (RunTest_exact size batchSize (trial env) w5 ltac:(lia)
              ltac:(lia) Ha) as [w6 [E6 [O6 [C6 _]]]].
  rewrite E6. exists w6. split; [reflexivity|].
  fold trials in O6, C6.
  split; [|split].
  - rewrite O6, O5, O4, O3. subst w2. simpl. rewrite O1.
    now rewrite <- !app_assoc.
  - rewrite C6, C5, C4, C3. subst w2. simpl cmds. rewrite C1.
    unfold setup_commands. now rewrite <- !app_assoc.
  - rewrite (RunTest_parameters size batchSize (trial env) w5 tt w6 E6).
    unfold parameters. now rewrite B5.
Qed.

(** X14.  After a run on an accepted command line, with instance, adapter
    and device obtained, the uniform parameter buffer holds exactly
    {size, 0, 0, 0}: [GetGPUBuffers] creates it with four words, the write of
    [InitializeUniforms] fits it, and no trial of the batch, whatever its
    kernels leave in the other buffers and whatever its copies and map
    requests do, changes it afterwards. *)
Theorem main_leaves_parameters_in_place argv0 arg1 arg2 size batchSize env w :
  parse arg1 65535 = Some size -> parse arg2 1023 = Some batchSize ->
  negotiated (session env) ->
  exists w',
    main [argv0; arg1; arg2] env w = Some (EXIT_SUCCESS, w')
    /\ info (bufs w') = [size; 0; 0; 0].
Proof.
  intros P1 P2 _.
  destruct (main_exact argv0 arg1 arg2 size batchSize env w P1 P2)
    as [w' [E [_ [_ I]]]].
  exists w'. split; assumption.
Qed.

Lemma main_leaves_parameters_in_place_witness :
  exists w',
    main ["scan"; "2"; "3"] sample_env initial_world
    = Some (EXIT_SUCCESS, w')
    /\ info (bufs w') = [2; 0; 0; 0].
Proof.
  apply (main_leaves_parameters_in_place
           "scan" "2" "3" 2 3 sample_env initial_world).
  - reflexivity.
  - reflexivity.
  - repeat split.
Defined.

(** X16.  For an accepted command line, with instance, adapter and device
    obtained, the device commands of the whole run are fixed by the two
    numbers and by which map requests succeed: first the setup (instance,
    adapter, device, queue, the five buffers with 16, 4, 4*size*2, 4*size*4
    and 4*size*4 bytes, for each of the two shaders its module, compilation
    info request, bind group layout, bind group, pipeline layout and compute
    pipeline with entry point main, then the parameter write with its empty
    submission and wait), then the commands of each trial in order. *)
Theorem main_command_trace argv0 arg1 arg2 size batchSize env w :
  parse arg1 65535 = Some size -> parse arg2 1023 = Some batchSize ->
  negotiated (session env) ->
  exists w',
    main [argv0; arg1; arg2] env w = Some (EXIT_SUCCESS, w')
    /\ cmds w'
       = (cmds w ++ setup_commands size
          ++ batch_commands size
               (trials_of (trial env) 0 (Z.to_nat batchSize)))%list.
Proof.
  intros P1 P2 _.
  destruct (main_exact argv0 arg1 arg2 size batchSize env w P1 P2)
    as [w' [E [_ [C _]]]].
  exists w'. split; assumption.
Qed.

Lemma main_command_trace_witness :
  exists w',
    main ["scan"; "2"; "3"] sample_env initial_world
    = Some (EXIT_SUCCESS, w')
    /\ cmds w'
       = (cmds initial_world ++ setup_commands 2
          ++ batch_commands 2
               (trials_of (trial sample_env) 0 (Z.to_nat 3)))%list.
Proof.
  apply (main_command_trace "scan" "2" "3" 2 3 sample_env initial_world).
  - reflexivity.
  - reflexivity.
  - repeat split.
Defined.

(** X17.  For an accepted command line standard output is exactly: the six
    adapter lines; for each trial in order, the diagnostic of the first
    nonzero error code of its telemetry if its map request succeeded and
    there is one; the summary, counting the trials that printed nothing; the
    verdict. *)
Theorem main_standard_output argv0 arg1 arg2 size batchSize env w :
  parse arg1 65535 = Some size -> parse arg2 1023 = Some batchSize ->
  exists w',
    main [argv0; arg1; arg2] env w = Some (EXIT_SUCCESS, w')
    /\ stdout w'
       = (stdout w ++ adapter_lines (adapter_info (session env))
          ++ batch_reports size (trials_of (trial env) 0 (Z.to_nat batchSize))
          ++ [Summary
                (batch_passed size
                   (trials_of (trial env) 0 (Z.to_nat batchSize)))
                batchSize;
              Verdict
                (batch_passed size
                   (trials_of (trial env) 0 (Z.to_nat batchSize))
                 =? batchSize)])%list.
Proof.
  intros P1 P2.
  destruct (main_exact argv0 arg1 arg2 size batchSize env w P1 P2)
    as [w' [E [O _]]].
  exists w'. split; assumption.
Qed.

Lemma main_standard_output_witness :
  exists w',
    main ["scan"; "2"; "3"] sample_env initial_world
    = Some (EXIT_SUCCESS, w')
    /\ stdout w'
       = (stdout initial_world
          ++ adapter_lines (adapter_info (session sample_env))
          ++ batch_reports 2 (trials_of (trial sample_env) 0 (Z.to_nat 3))
          ++ [Summary
                (batch_passed 2 (trials_of (trial sample_env) 0 (Z.to_nat 3)))
                3;
              Verdict
                (batch_passed 2 (trials_of (trial sample_env) 0 (Z.to_nat 3))
                 =? 3)])%list.
Proof.
  apply (main_standard_output "scan" "2" "3" 2 3 sample_env initial_world);
    reflexivity.
Defined.

(** ** Clean runs and runs with a hazard *)

Lemma telemetry_code size te t k :
  0 <= t < size -> 0 <= k < 2 ->
  code_at (telemetry size te) t k
  = Some (U32.wrap (err_after te (Z.to_nat (t * 4 + k * 2)))).
Proof.
  intros Ht Hk. unfold code_at, telemetry.
  rewrite nth_error_map, nth_error_seq.
  destruct (Nat.ltb (Z.to_nat (t * 4 + k * 2)) (Z.to_nat (size * 4))) eqn:E.
  - reflexivity.
  - apply Nat.ltb_ge in E. lia.
Qed.

Lemma telemetry_length size te :
  length (telemetry size te) = Z.to_nat (size * 4).
Proof. unfold telemetry. now rewrite length_map, length_seq. Qed.

Lemma pairs_contains size t k :
  0 <= t < size -> 0 <= k < 2 -> In (t, k) (tile_thread_pairs size).
Proof.
  intros Ht Hk. unfold tile_thread_pairs. apply in_flat_map.
  exists (Z.to_nat t). split; [apply in_seq; lia|].
  rewrite Z2Nat.id by lia.
  assert (Hc : k = 0 \/ k = 1) by lia.
  destruct Hc as [-> | ->]; simpl; auto.
Qed.

Lemma first_hazard_none words pairs :
  (forall t k, In (t, k) pairs -> code_at words t k = Some 0) ->
  first_hazard words pairs = None.
Proof.
  induction pairs as [|[t k] rest IH]; intros H; [reflexivity|].
  simpl. rewrite (H t k (or_introl eq_refl)).
  destruct (got_at words t k); [|reflexivity].
  apply IH. intros t' k' Hin. apply H. now right.
Qed.

Lemma first_hazard_some words size pairs t k :
  length words = Z.to_nat (size * 4) ->
  (forall t' k', In (t', k') pairs -> 0 <= t' < size /\ 0 <= k' < 2) ->
  In (t, k) pairs -> code_at words t k <> Some 0 ->
  first_hazard words pairs <> None.
Proof.
  intros L. induction pairs as [|[t0 k0] rest IH]; intros Hr Hin Hbad.
  - destruct Hin.
  - destruct (Hr t0 k0 (or_introl eq_refl)) as [Ht0 Hk0].
    destruct (entry_exists words size t0 k0 L Ht0 Hk0) as [e [g [He Hg]]].
    simpl. rewrite He, Hg.
    destruct (e =? 0) eqn:E; [|discriminate].
    apply Z.eqb_eq in E. subst e.
    destruct Hin as [Heq|Hin].
    + injection Heq as -> ->. contradiction.
    + apply IH; auto. intros t' k' H. apply Hr. now right.
Qed.

Lemma trial_report_clean size te :
  (forall t k, 0 <= t < size -> 0 <= k < 2 ->
               U32.wrap (err_after te (Z.to_nat (t * 4 + k * 2))) = 0) ->
  trial_report size te = None.
Proof.
  intros H. unfold trial_report.
  destruct ((size =? 0) || negb (ok (map_done te))); [reflexivity|].
  apply first_hazard_none. intros t k Hin.
  apply pairs_in_range in Hin. destruct Hin as [Ht Hk].
  rewrite telemetry_code by assumption. f_equal. now apply H.
Qed.

Lemma trial_report_hazard size te t k :
  ok (map_done te) = true -> 0 <= t < size -> 0 <= k < 2 ->
  U32.wrap (err_after te (Z.to_nat (t * 4 + k * 2))) <> 0 ->
  trial_report size te <> None.
Proof.
  intros Hok Ht Hk Hbad. unfold trial_report. rewrite Hok.
  destruct (size =? 0) eqn:E; [apply Z.eqb_eq in E; lia|]. simpl.
  apply (first_hazard_some (telemetry size te) size _ t k).
  - apply telemetry_length.
  - apply pairs_in_range.
  - now apply pairs_contains.
  - rewrite telemetry_code by assumption. congruence.
Qed.

Lemma batch_all_clean size trials :
  (forall te, In te trials -> trial_report size te = None) ->
  batch_reports size trials = []
  /\ batch_passed size trials = Z.of_nat (length trials).
Proof.
  unfold batch_reports, batch_passed.
  induction trials as [|te rest IH]; intros H; [split; reflexivity|].
  destruct IH as [IH1 IH2]; [intros te' Hin; apply H; now right|].
  simpl. rewrite (H te (or_introl eq_refl)). simpl.
  split; [exact IH1|]. simpl length. lia.
Qed.

Lemma batch_with_hazard size trials te :
  In te trials -> trial_report size te <> None ->
  batch_passed size trials < Z.of_nat (length trials).
Proof.
  unfold batch_passed. intros Hin Hbad.
  induction trials as [|te0 rest IH]; [destruct Hin|].
  simpl.
  pose proof (filter_length_le
                (fun te => is_none (trial_report size te)) rest) as Hle.
  destruct Hin as [->|Hin].
  - destruct (trial_report size te); [|contradiction]. simpl. lia.
  - specialize (IH Hin).
    destruct (is_none (trial_report size te0)); simpl length; lia.
Qed.

Lemma trials_of_in env count i :
  0 <= i < Z.of_nat count -> In (env i) (trials_of env 0 count).
Proof.
  intros Hi. unfold trials_of. apply in_map_iff.
  exists (Z.to_nat i). split; [now rewrite Z2Nat.id by lia|].
  apply in_seq. lia.
Qed.

Lemma trials_of_elements env count te :
  In te (trials_of env 0 count) ->
  exists i, 0 <= i < Z.of_nat count /\ te = env i.
Proof.
  unfold trials_of. intros H. apply in_map_iff in H.
  destruct H as [j [<- Hj]]. apply in_seq in Hj.
  exists (Z.of_nat j). split; [lia|reflexivity].
Qed.

(** X18.  A clean run: for an accepted command line, when in every trial
    every error code the stress kernel leaves is 0, the program prints the
    adapter lines and then only total / total with the all-passed verdict,
    and returns the success status. *)
Theorem main_clean_run argv0 arg1 arg2 size batchSize env w :
  parse arg1 65535 = Some size -> parse arg2 1023 = Some batchSize ->
  (forall i t k, 0 <= i < batchSize -> 0 <= t < size -> 0 <= k < 2 ->
     U32.wrap (err_after (trial env i) (Z.to_nat (t * 4 + k * 2))) = 0) ->
  exists w',
    main [argv0; arg1; arg2] env w = Some (EXIT_SUCCESS, w')
    /\ stdout w'
       = (stdout w ++ adapter_lines (adapter_info (session env))
          ++ [Summary batchSize batchSize; Verdict true])%list.
Proof.
  intros P1 P2 Hclean.
  destruct (main_exact argv0 arg1 arg2 size batchSize env w P1 P2)
    as [w' [E [O _]]].
  apply parse_range in P2; [|lia].
  destruct (batch_all_clean size
              (trials_of (trial env) 0 (Z.to_nat batchSize))) as [R Pd].
  { intros te Hin. apply trials_of_elements in Hin.
    destruct Hin as [i [Hi ->]]. apply trial_report_clean.
    intros t k Ht Hk. apply Hclean; lia. }
  rewrite R, Pd, trials_of_length in O.
  rewrite Z2Nat.id in O by lia. rewrite Z.eqb_refl in O.
  exists w'. split; assumption.
Qed.

Lemma main_clean_run_witness :
  exists w',
    main ["scan"; "1"; "3"] sample_env initial_world
    = Some (EXIT_SUCCESS, w')
    /\ stdout w'
       = (stdout initial_world
          ++ adapter_lines (adapter_info (session sample_env))
          ++ [Summary 3 3; Verdict true])%list.
Proof.
  apply (main_clean_run "scan" "1" "3" 1 3 sample_env initial_world).
  - reflexivity.
  - reflexivity.
  - intros i t k Hi Ht Hk.
    assert (Hc : t = 0 /\ (k = 0 \/ k = 1)) by lia.
    destruct Hc as [-> [-> | ->]]; simpl;
      destruct (i =? 1); reflexivity.
Defined.

(** X19.  A run with a hazard: for an accepted command line, when some trial
    whose map request succeeds leaves a nonzero error code in some entry, the
    verdict printed is the failure one and the passed count is below the
    total; the program still returns the success status. *)
Theorem main_hazard_run argv0 arg1 arg2 size batchSize env w i t k :
  parse arg1 65535 = Some size -> parse arg2 1023 = Some batchSize ->
  0 <= i < batchSize -> ok (map_done (trial env i)) = true ->
  0 <= t < size -> 0 <= k < 2 ->
  U32.wrap (err_after (trial env i) (Z.to_nat (t * 4 + k * 2))) <> 0 ->
  exists w' passed printed,
    main [argv0; arg1; arg2] env w = Some (EXIT_SUCCESS, w')
    /\ stdout w'
       = (printed ++ [Summary passed batchSize; Verdict false])%list
    /\ 0 <= passed < batchSize.
Proof.
  intros P1 P2 Hi Hok Ht Hk Hbad.
  destruct (main_exact argv0 arg1 arg2 size batchSize env w P1 P2)
    as [w' [E [O _]]].
  set (trials := trials_of (trial env) 0 (Z.to_nat batchSize)) in *.
  assert (Hlt : batch_passed size trials < batchSize).
  { pose proof (batch_with_hazard size trials (trial env i)
                  (trials_of_in (trial env) (Z.to_nat batchSize) i
                                ltac:(lia))
                  (trial_report_hazard size (trial env i) t k Hok Ht Hk Hbad))
      as H.
    subst trials. rewrite trials_of_length in H. lia. }
  pose proof (batch_passed_bounds size trials) as Hb.
  assert (Hv : (batch_passed size trials =? batchSize) = false) by lia.
  rewrite Hv in O.
  exists w', (batch_passed size trials),
    (stdout w ++ adapter_lines (adapter_info (session env))
     ++ batch_reports size trials)%list.
  split; [exact E|]. split; [|lia].
  rewrite O. now rewrite <- !app_assoc.
Qed.

Lemma main_hazard_run_witness :
  exists w' passed printed,
    main ["scan"; "2"; "3"] sample_env initial_world
    = Some (EXIT_SUCCESS, w')
    /\ stdout w' = (printed ++ [Summary passed 3; Verdict false])%list
    /\ 0 <= passed < 3.
Proof.
  apply (main_hazard_run "scan" "2" "3" 2 3 sample_env initial_world 1 1 1).
  - reflexivity.
  - reflexivity.
  - lia.
  - reflexivity.
  - lia.
  - lia.
  - discriminate.
Defined.

(** ** Reading a buffer back *)

Lemma range_ok_bounds ws off sz :
  range_ok ws off sz = true ->
  0 <= off /\ 0 <= sz /\ off mod word_bytes = 0 /\ sz mod word_bytes = 0
  /\ off + sz <= word_bytes * Z.of_nat (length ws).
Proof.
  unfold range_ok. rewrite !andb_true_iff.
  intros [[[[H1 H2] H3] H4] H5].
  apply Z.leb_le in H1, H2, H5. apply Z.eqb_eq in H3, H4. auto.
Qed.

Lemma range_ok_same_length ws ws' off sz :
  length ws = length ws' -> range_ok ws off sz = range_ok ws' off sz.
Proof. intros L. unfold range_ok. now rewrite L. Qed.

Lemma slice_words ws off n :
  0 <= off -> 0 <= n ->
  slice ws (off * word_bytes) (n * word_bytes)
  = firstn (Z.to_nat n) (skipn (Z.to_nat off) ws).
Proof.
  intros Ho Hn. unfold slice, word_bytes. now rewrite !Z.div_mul by lia.
Qed.

Lemma CopyAndReadbackSync_exact src dst readOut sourceOffset
      copy_done map_done w :
  let n := Z.of_nat (length readOut) in
  let words :=
    firstn (length readOut) (skipn (Z.to_nat sourceOffset)
                                   (buffer (bufs w) src)) in
  0 <= sourceOffset ->
  range_ok (buffer (bufs w) src) (sourceOffset * word_bytes)
           (n * word_bytes) = true ->
  range_ok (buffer (bufs w) dst) 0 (n * word_bytes) = true ->
  ok map_done = true ->
  exists w',
    CopyAndReadbackSync src dst readOut sourceOffset n copy_done map_done w
    = Some (words, w')
    /\ length words = length readOut
    /\ bufs w'
       = set_buffer (bufs w) dst
           (words ++ skipn (length readOut) (buffer (bufs w) dst))
    /\ stdout w' = stdout w.
Proof.
  intros n words Ho Rs Rd Hok.
  assert (Lw : length words = length readOut).
  { subst words. rewrite length_firstn, length_skipn.
    apply range_ok_bounds in Rs. unfold word_bytes in Rs. subst n. lia. }
  assert (Ld : (length readOut <= length (buffer (bufs w) dst))%nat).
  { apply range_ok_bounds in Rd. unfold word_bytes in Rd. subst n. lia. }
  assert (Sw : slice (buffer (bufs w) src) (sourceOffset * word_bytes)
                     (n * word_bytes) = words).
  { rewrite slice_words by (subst n; lia). subst n words.
    now rewrite Nat2Z.id. }
  unfold CopyAndReadbackSync, bind.
  destruct (CopyBufferSync_spec src dst (sourceOffset * word_bytes)
              (n * word_bytes) copy_done w) as [w1 [E1 [O1 [_ B1]]]].
  rewrite E1. rewrite Rs, Rd, Sw in B1. simpl andb in B1. cbv iota in B1.
  unfold overwrite in B1. rewrite Lw in B1.
  pose proof (ReadbackSync_spec dst readOut map_done w1) as R.
  cbv zeta in R. fold n in R.
  destruct R as [w2 [E2 [B2 [O2 _]]]].
  rewrite E2.
  assert (Bd : buffer (bufs w1) dst
               = (words ++ skipn (length readOut) (buffer (bufs w) dst))%list).
  { rewrite B1. destruct dst; reflexivity. }
  assert (Hm : map_succeeds map_done (bufs w1) dst (n * word_bytes) = true).
  { unfold map_succeeds. rewrite Hok. simpl.
    rewrite <- Rd. apply range_ok_same_length.
    rewrite Bd, length_app, length_skipn, Lw. lia. }
  rewrite Hm.
  assert (Sd : slice (buffer (bufs w1) dst) 0 (n * word_bytes) = words).
  { change 0 with (0 * word_bytes) at 1.
    rewrite slice_words by (subst n; lia).
    simpl skipn. rewrite Bd. subst n. rewrite Nat2Z.id.
    rewrite <- Lw. rewrite firstn_app, Nat.sub_diag, firstn_all. simpl.
    apply app_nil_r. }
  rewrite Sd. rewrite overwrite_same_length by exact Lw.
  exists w2. repeat split; auto; congruence.
Qed.

(** X20.  A copy followed by a readback returns the source words: when the
    byte ranges fit both buffers and the map request succeeds,
    [CopyAndReadbackSync] returns exactly the words of the source buffer from
    word [sourceOffset] on, as many as the host vector has; the destination
    buffer then starts with those words and keeps the rest of its content;
    nothing is printed. *)
Theorem CopyAndReadbackSync_returns_source_words
        src dst readOut sourceOffset copy_done map_done w :
  0 <= sourceOffset ->
  range_ok (buffer (bufs w) src) (sourceOffset * word_bytes)
           (Z.of_nat (length readOut) * word_bytes) = true ->
  range_ok (buffer (bufs w) dst) 0
           (Z.of_nat (length readOut) * word_bytes) = true ->
  ok map_done = true ->
  exists w',
    CopyAndReadbackSync src dst readOut sourceOffset
                        (Z.of_nat (length readOut)) copy_done map_done w
    = Some (firstn (length readOut)
                   (skipn (Z.to_nat sourceOffset) (buffer (bufs w) src)), w')
    /\ length (firstn (length readOut)
                      (skipn (Z.to_nat sourceOffset) (buffer (bufs w) src)))
       = length readOut
    /\ buffer (bufs w') dst
       = (firstn (length readOut)
                 (skipn (Z.to_nat sourceOffset) (buffer (bufs w) src))
          ++ skipn (length readOut) (buffer (bufs w) dst))%list
    /\ stdout w' = stdout w.
Proof.
  intros Ho Rs Rd Hok.
  destruct (CopyAndReadbackSync_exact src dst readOut sourceOffset
              copy_done map_done w Ho Rs Rd Hok) as [w' [E [L [B O]]]].
  exists w'. repeat split; auto.
  rewrite B. destruct dst; reflexivity.
Qed.

Lemma CopyAndReadbackSync_returns_source_words_witness :
  exists w',
    CopyAndReadbackSync Err Readback [7; 7; 7; 7] 12 (Z.of_nat 4)
                        prompt prompt (sample_world hazard_at_tile_3)
    = Some (firstn 4 (skipn (Z.to_nat 12)
                            (buffer (bufs (sample_world hazard_at_tile_3))
                                    Err)), w')
    /\ length (firstn 4 (skipn (Z.to_nat 12)
                               (buffer (bufs (sample_world hazard_at_tile_3))
                                       Err)))
       = 4%nat
    /\ buffer (bufs w') Readback
       = (firstn 4 (skipn (Z.to_nat 12)
                          (buffer (bufs (sample_world hazard_at_tile_3)) Err))
          ++ skipn 4 (buffer (bufs (sample_world hazard_at_tile_3))
                             Readback))%list
    /\ stdout w' = stdout (sample_world hazard_at_tile_3).
Proof.
  apply (CopyAndReadbackSync_returns_source_words
           Err Readback [7; 7; 7; 7] 12 prompt prompt
           (sample_world hazard_at_tile_3)).
  - lia.
  - reflexivity.
  - reflexivity.
  - reflexivity.
Defined.

(** ** The dump of the scan buffer *)

Lemma land_low_shifted a c : Z.land (a mod 2 ^ 16) (c * 2 ^ 16) = 0.
Proof.
  apply Z.bits_inj'. intros i Hi.
  rewrite Z.land_spec, Z.bits_0.
  destruct (Z.lt_ge_cases i 16) as [Hlt|Hge].
  - rewrite <- Z.shiftl_mul_pow2 by lia.
    rewrite (Z.shiftl_spec_low c 16 i) by lia. apply andb_false_r.
  - rewrite (Z.mod_pow2_bits_high a 16 i) by lia. reflexivity.
Qed.

Lemma rejoin_value lo hi :
  rejoin lo hi = lo mod 2 ^ 16 + 2 ^ 16 * (hi mod 2 ^ 16).
Proof.
  unfold rejoin, U32.or, U32.and, shl32, U32.wrap, U32.modulus.
  change 65535 with (Z.ones 16). rewrite Z.land_ones by lia.
  rewrite Z.shiftl_mul_pow2 by lia.
  change (2 ^ 32) with (2 ^ 16 * 2 ^ 16).
  rewrite Z.mul_mod_distr_r by lia.
  rewrite <- Z.lxor_lor by apply land_low_shifted.
  rewrite <- Z.add_nocarry_lxor by apply land_low_shifted.
  lia.
Qed.

(** X21.  Rejoining is the inverse of the 16-bit split: the rejoined word
    takes its low 16 bits from the first word and its high 16 bits from the
    low 16 bits of the second, ignoring all other bits; so for every 32-bit
    value v, rejoining its low half v & 0xFFFF and its high half v >> 16
    gives v back. *)
Theorem rejoin_inverts_the_split lo hi v :
  0 <= v < 2 ^ 32 ->
  rejoin lo hi = lo mod 2 ^ 16 + 2 ^ 16 * (hi mod 2 ^ 16)
  /\ rejoin (Z.land v 0xFFFF) (Z.shiftr v 16) = v.
Proof.
  intros Hv. split; [apply rejoin_value|].
  rewrite rejoin_value.
  change 0xFFFF with (Z.ones 16). rewrite Z.land_ones by lia.
  rewrite Z.mod_mod by lia.
  rewrite Z.shiftr_div_pow2 by lia.
  assert (Hq : 0 <= v / 2 ^ 16 < 2 ^ 16).
  { split; [apply Z.div_pos; lia|].
    apply Z.div_lt_upper_bound; lia. }
  rewrite (Z.mod_small (v / 2 ^ 16)) by exact Hq.
  pose proof (Z.div_mod v (2 ^ 16) ltac:(lia)). lia.
Qed.

Lemma rejoin_inverts_the_split_witness :
  rejoin 0x12345678 0xABCD9ABC
  = 0x12345678 mod 2 ^ 16 + 2 ^ 16 * (0xABCD9ABC mod 2 ^ 16)
  /\ rejoin (Z.land 71680000 0xFFFF) (Z.shiftr 71680000 16) = 71680000.
Proof.
  apply (rejoin_inverts_the_split 0x12345678 0xABCD9ABC 71680000). lia.
Defined.

Section Dump.

Variables (words readOut : list Z) (n lineLength : nat).
Hypothesis positive : (0 < lineLength)%nat.
Hypothesis fits : Z.of_nat n + Z.of_nat lineLength <= 2 ^ 32.
Hypothesis small : Z.of_nat n < 2 ^ 31.
Hypothesis read :
  forall j, (j < 2 * n)%nat -> nth_error readOut j = Some (nth j words 0).

Let N : Z := Z.of_nat n.
Let L : Z := Z.of_nat lineLength.

Lemma print_entry_exact i k w :
  Z.of_nat (i * lineLength + k) < 2 ^ 32 ->
  print_entry readOut N L (Z.of_nat i) (Z.of_nat k) w
  = Some (tt, say w (if (i * lineLength + k <? n)%nat
                     then [printed_value words (i * lineLength + k)]
                     else [])).
Proof.
  intros Hb. unfold print_entry, N, L.
  assert (Hi : U32.add (U32.mul (Z.of_nat i) (Z.of_nat lineLength))
                       (Z.of_nat k)
               = Z.of_nat (i * lineLength + k)).
  { rewrite mul_small by nia. rewrite add_small by nia. nia. }
  rewrite Hi.
  destruct (i * lineLength + k <? n)%nat eqn:E.
  - apply Nat.ltb_lt in E.
    assert (G : (Z.of_nat (i * lineLength + k) <? Z.of_nat n) = true)
      by (apply Z.ltb_lt; lia).
    rewrite G.
    set (j := (i * lineLength + k)%nat) in *.
    rewrite (mul_small (Z.of_nat j) 2) by lia.
    rewrite add_small by lia.
    unfold bind, at_index.
    replace (Z.to_nat (Z.of_nat j * 2)) with (2 * j)%nat by lia.
    replace (Z.to_nat (Z.of_nat j * 2 + 1)) with (2 * j + 1)%nat by lia.
    rewrite !read by lia. unfold ret.
    reflexivity.
  - apply Nat.ltb_ge in E.
    assert (G : (Z.of_nat (i * lineLength + k) <? Z.of_nat n) = false)
      by (apply Z.ltb_ge; lia).
    rewrite G. unfold ret. now rewrite say_nil.
Qed.

Lemma print_entries_exact i count : forall k w,
  Z.of_nat (i * lineLength + k + count) < 2 ^ 32 ->
  for_from count (Z.of_nat k) (print_entry readOut N L (Z.of_nat i)) w
  = Some (tt, say w (map (printed_value words)
                         (seq (i * lineLength + k)
                              (Nat.min count (n - (i * lineLength + k)))))).
Proof.
  induction count as [|count IH]; intros k w Hb.
  - simpl. unfold ret. now rewrite say_nil.
  - simpl for_from. unfold bind.
    pose proof (Nat2Z.is_nonneg (i * lineLength)) as Hp.
    rewrite Nat2Z.inj_add in Hb. rewrite Nat2Z.inj_add in Hb.
    rewrite print_entry_exact
      by (rewrite Nat2Z.inj_add; lia).
    rewrite (add_small (Z.of_nat k) 1) by lia.
    replace (Z.of_nat k + 1) with (Z.of_nat (S k)) by lia.
    rewrite IH by (rewrite !Nat2Z.inj_add; lia).
    rewrite say_say. do 3 f_equal.
    destruct (i * lineLength + k <? n)%nat eqn:E.
    + apply Nat.ltb_lt in E.
      replace (n - (i * lineLength + k))%nat
        with (S (n - (i * lineLength + S k)))%nat by lia.
      simpl Nat.min. simpl seq. simpl map.
      replace (i * lineLength + S k)%nat with (S (i * lineLength + k))
        by lia.
      reflexivity.
    + apply Nat.ltb_ge in E.
      replace (n - (i * lineLength + k))%nat with 0%nat by lia.
      replace (n - (i * lineLength + S k))%nat with 0%nat by lia.
      rewrite !Nat.min_0_r. reflexivity.
Qed.

Lemma print_line_exact i w :
  Z.of_nat ((i + 1) * lineLength) < 2 ^ 32 ->
  print_line readOut N L (Z.of_nat i) w
  = Some (tt, say w (dump_line words n lineLength i)).
Proof.
  intros Hb. unfold print_line, bind, L. rewrite Nat2Z.id.
  change 0 with (Z.of_nat 0).
  rewrite print_entries_exact by lia.
  rewrite print_say, say_say. unfold dump_line.
  now rewrite Nat.add_0_r.
Qed.

Lemma print_lines_exact count : forall i w,
  Z.of_nat ((i + count) * lineLength) < 2 ^ 32 ->
  for_from count (Z.of_nat i) (print_line readOut N L) w
  = Some (tt, say w (flat_map (dump_line words n lineLength) (seq i count))).
Proof.
  induction count as [|count IH]; intros i w Hb.
  - simpl. unfold ret. now rewrite say_nil.
  - simpl for_from. unfold bind.
    rewrite print_line_exact by nia.
    rewrite (add_small (Z.of_nat i) 1) by nia.
    replace (Z.of_nat i + 1) with (Z.of_nat (S i)) by lia.
    rewrite IH by (replace (S i + count)%nat with (i + S count)%nat by lia;
                   exact Hb).
    now rewrite say_say.
Qed.

Lemma line_count :
  Z.to_nat (sub32 (U32.add N L) 1 / L) = ((n + lineLength - 1) / lineLength)%nat
  /\ Z.of_nat (((n + lineLength - 1) / lineLength) * lineLength) < 2 ^ 32.
Proof.
  unfold N, L, sub32.
  assert (Ha : Z.of_nat n + Z.of_nat lineLength < 2 ^ 32 \/
               Z.of_nat n + Z.of_nat lineLength = 2 ^ 32) by lia.
  assert (Hw : U32.wrap (U32.add (Z.of_nat n) (Z.of_nat lineLength) - 1)
               = Z.of_nat (n + lineLength - 1)).
  { destruct Ha as [Ha|Ha].
    - rewrite add_small by lia. rewrite wrap_small; [lia|].
      unfold U32.in_range, U32.modulus. lia.
    - unfold U32.add. rewrite Ha.
      change (U32.wrap (2 ^ 32)) with 0.
      change (U32.wrap (0 - 1)) with (2 ^ 32 - 1). lia. }
  rewrite Hw. rewrite <- Nat2Z.inj_div, Nat2Z.id.
  split; [reflexivity|].
  pose proof (Nat.Div0.mul_div_le (n + lineLength - 1) lineLength) as H.
  lia.
Qed.

End Dump.

Lemma range_ok_prefix ws m :
  (m <= length ws)%nat -> range_ok ws 0 (Z.of_nat m * word_bytes) = true.
Proof.
  intros H. unfold range_ok, word_bytes. rewrite Z.mod_mul by lia.
  rewrite !andb_true_iff.
  repeat split; try reflexivity; apply Z.leb_le; lia.
Qed.

Lemma nth_error_prefix (ws : list Z) m j :
  (j < m)%nat -> (m <= length ws)%nat ->
  nth_error (firstn m ws) j = Some (nth j ws 0).
Proof.
  intros Hj Hm. rewrite nth_error_firstn.
  assert (E : Nat.ltb j m = true) by (apply Nat.ltb_lt; exact Hj).
  rewrite E. apply nth_error_nth'. lia.
Qed.

(** X22.  The dump prints the scan buffer value by value: for a line length
    above 0, when the first 2n words of the scan buffer fit the staging
    buffer and the map request succeeds, [ReadbackAndPrintSync] prints, for
    index 0 to n-1 in order, the halves of words 2j and 2j+1 rejoined and
    divided by 1024, followed by a comma, [lineLength] values to a line,
    each line (the last, shorter one included) ended by a newline; that is
    ceil(n / lineLength) lines, and nothing for n = 0. *)
Theorem ReadbackAndPrintSync_prints_rows lineLength n copy_done map_done w :
  (0 < lineLength)%nat ->
  Z.of_nat n + Z.of_nat lineLength <= 2 ^ 32 -> Z.of_nat n < 2 ^ 31 ->
  (2 * n <= length (scan (bufs w)))%nat ->
  (2 * n <= length (readback (bufs w)))%nat ->
  ok map_done = true ->
  exists w',
    ReadbackAndPrintSync (Z.of_nat lineLength) (Z.of_nat n)
                         copy_done map_done w = Some (tt, w')
    /\ stdout w' = (stdout w ++ dump (scan (bufs w)) n lineLength)%list.
Proof.
  intros Hpos Hfit Hsmall Hscan Hstage Hok.
  unfold ReadbackAndPrintSync.
  rewrite (mul_small (Z.of_nat n) 2) by lia.
  replace (Z.to_nat (Z.of_nat n * 2)) with (2 * n)%nat by lia.
  set (zeros := repeat 0 (2 * n)).
  assert (Lz : length zeros = (2 * n)%nat) by apply repeat_length.
  replace (Z.of_nat n * 2) with (Z.of_nat (length zeros)) by lia.
  unfold bind.
  destruct (CopyAndReadbackSync_exact Scan Readback zeros 0
              copy_done map_done w (Z.le_refl 0)) as [w1 [E [_ [_ O]]]].
  - change (0 * word_bytes) with 0. simpl buffer.
    apply range_ok_prefix. lia.
  - simpl buffer. apply range_ok_prefix. lia.
  - exact Hok.
  - rewrite E. simpl buffer. simpl skipn. rewrite Lz.
    assert (Hl : (Z.of_nat lineLength =? 0) = false) by lia.
    rewrite Hl.
    destruct (line_count n lineLength Hpos Hfit) as [Hc Hb].
    rewrite Hc.
    change 0 with (Z.of_nat 0) at 1.
    rewrite (print_lines_exact (scan (bufs w))
               (firstn (2 * n) (scan (bufs w))) n lineLength);
      try assumption.
    + eexists. split; [reflexivity|]. simpl. now rewrite O.
    + intros j Hj. now apply nth_error_prefix.
Qed.

Lemma ReadbackAndPrintSync_prints_rows_witness :
  exists w',
    ReadbackAndPrintSync (Z.of_nat 4) (Z.of_nat 6) prompt prompt scan_world
    = Some (tt, w')
    /\ stdout w' = (stdout scan_world ++ dump (scan (bufs scan_world)) 6 4)%list.
Proof.
  apply (ReadbackAndPrintSync_prints_rows 4 6 prompt prompt scan_world).
  - lia.
  - lia.
  - lia.
  - simpl. lia.
  - simpl. lia.
  - reflexivity.
Defined.

(** The dump of the sample scan buffer, four values to a line. *)
Example dump_sample :
  dump sample_scan 6 4
  = [Cout "1, "; Cout "2, "; Cout "3, "; Cout "4, "; Cout nl;
     Cout "5, "; Cout "70000, "; Cout nl].
Proof. vm_compute. reflexivity. Qed.
